(** * GigaredPlay: lookup cache and reconciliation layer

    A shallow embedding of the Python modules [ph] (upstream record client and
    its TTL/LRU cache), [tv] (spreadsheet helpers, name matching, credential
    allocation) and of the [api_cliente] handler of [main], followed by the
    properties established about them.

    Part I holds the model, one Rocq module per Python module; Part II holds
    the lemmas and theorems. *)

From Stdlib Require Import ZArith NArith String Ascii DecimalString Sorted.
From stdpp Require Import base option list gmap strings sorting.

Set Warnings "-register-all".

(** * Part I: the model *)

(** ** Python values shared by the three modules *)
Module py.

(** A Python [str] is a sequence of Unicode code points. *)
Definition char := N.
Definition str := list N.

(** ASCII literals: below 128 a byte is its own code point. *)
Definition lit (s : string) : str := N_of_ascii <$> list_ascii_of_string s.

(** [bool(s)] for a string. *)
Definition nonempty (s : str) : bool :=
  match s with [] => false | _ => true end.

Definition str_eqb (a b : str) : bool := bool_decide (a = b).

(** [a.startswith(b)]. *)
Fixpoint startswith (a b : str) : bool :=
  match b, a with
  | [], _ => true
  | y :: b', x :: a' => (x =? y)%N && startswith a' b'
  | _ :: _, [] => false
  end.

(** [str(n)] for an [int]. *)
Definition str_of_Z (z : Z) : str := lit (NilZero.string_of_int (Z.to_int z)).
Definition str_of_nat (n : nat) : str := lit (NilZero.string_of_uint (Nat.to_uint n)).

(** The tables of the Unicode database that the code reaches through
    [unicodedata] and through the [str] methods.  They belong to the Python
    runtime, not to the repository, so the model is parametric in them; the
    instance [BasicLatin] below gives their restriction to the Latin-1 range. *)
Class Unicode := {
  normalize_NFD : str -> str;   (* unicodedata.normalize("NFD", s) *)
  category_Mn : char -> bool;   (* unicodedata.category(c) == "Mn" *)
  upper : str -> str;           (* s.upper() *)
  lower : str -> str;           (* s.lower() *)
  isspace : char -> bool;       (* whitespace of str.strip() and of \s *)
  int_of_str : str -> option Z  (* int(s); None when it raises ValueError *)
}.

Section Strings.
Context {U : Unicode}.

Fixpoint lstrip (s : str) : str :=
  match s with
  | c :: s' => if isspace c then lstrip s' else s
  | [] => []
  end.

(** [s.strip()]. *)
Definition strip (s : str) : str := reverse (lstrip (reverse (lstrip s))).

(** [''.join(c for c in unicodedata.normalize("NFD", str(value))
            if unicodedata.category(c) != "Mn")]. *)
Definition strip_marks (value : str) : str :=
  List.filter (fun c => negb (category_Mn c)) (normalize_NFD value).

(** [re.findall(pattern, s)] for a pattern [[class]+]: the maximal runs of
    characters of the class, left to right.  [cur] is the run being read,
    last character first. *)
Fixpoint findall_runs (cls : char -> bool) (cur : str) (s : str) : list str :=
  match s with
  | [] => match cur with [] => [] | _ => [reverse cur] end
  | c :: s' =>
      if cls c then findall_runs cls (c :: cur) s'
      else match cur with
           | [] => findall_runs cls [] s'
           | _ => reverse cur :: findall_runs cls [] s'
           end
  end.

(** The class [[A-Z0-9]]. *)
Definition is_AZ09 (c : char) : bool :=
  ((65 <=? c) && (c <=? 90) || (48 <=? c) && (c <=? 57))%N.

(** The class [[\s_\-]]. *)
Definition is_sep (c : char) : bool :=
  isspace c || (c =? 95)%N || (c =? 45)%N.

End Strings.

Definition str_eq_dec (a b : str) : {a = b} + {a <> b} := decide (a = b).

(** *** [collections.Counter] over strings *)

Abbreviation Counter := (gmap str nat).

(** [c[k]]: a missing key counts zero. *)
Definition count (c : Counter) (k : str) : nat := default 0 (c !! k).

(** [Counter(iterable)]: [for elem in iterable: c[elem] = c.get(elem, 0) + 1]. *)
Definition Counter_of (tokens : list str) : Counter :=
  foldl (fun c t => <[t := S (count c t)]> c) ∅ tokens.

(** [c1 == c2]: every key of either side has the same count on both sides. *)
Definition Counter_eqb (c1 c2 : Counter) : bool :=
  forallb (fun k => Nat.eqb (count c1 k) (count c2 k))
          ((map_to_list c1).*1 ++ (map_to_list c2).*1).

(** *** Insertion-ordered [dict] with string keys

    Python dictionaries keep insertion order and the code iterates over them,
    so they are association lists: assignment to a present key keeps its
    position, assignment to a new key appends. *)
Definition dict (V : Type) := list (str * V).

Section Dict.
Context {V : Type}.

Fixpoint dict_get (k : str) (d : dict V) : option V :=
  match d with
  | [] => None
  | (k', v) :: d' => if decide (k = k') then Some v else dict_get k d'
  end.

(** [d[k] = v]. *)
Fixpoint dict_set (k : str) (v : V) (d : dict V) : dict V :=
  match d with
  | [] => [(k, v)]
  | (k', v') :: d' =>
      if decide (k = k') then (k, v) :: d' else (k', v') :: dict_set k v d'
  end.

(** [d.pop(k, None)]. *)
Definition dict_pop (k : str) (d : dict V) : dict V :=
  List.filter (fun e => negb (bool_decide (e.1 = k))) d.

Definition dict_keys (d : dict V) : list str := d.*1.
Definition dict_values (d : dict V) : list V := d.*2.

(** [k in d]. *)
Definition dict_mem (k : str) (d : dict V) : bool :=
  match dict_get k d with Some _ => true | None => false end.

(** [OrderedDict.move_to_end(k)] for a present key (a missing key raises
    [KeyError]; every call site has just looked the key up or assigned it). *)
Definition move_to_end (k : str) (d : dict V) : dict V :=
  match dict_get k d with
  | Some v => dict_pop k d ++ [(k, v)]
  | None => d
  end.

End Dict.

(** *** Exceptions and outcomes of a call *)

Inductive exn :=
| RuntimeError (msg : string)
| ValueError
| TypeError
| RecursionError
| ConnectionError
| HTTPException (status : Z).

Inductive outcome (A : Type) :=
| Returned (a : A)
| Raised (e : exn).
Arguments Returned {A} a.
Arguments Raised {A} e.

(** *** The Latin-1 fragment of the Unicode tables

    Decompositions, case mappings and whitespace for code points below U+0100,
    and the combining diacritical marks U+0300..U+036F (all of category Mn).
    Outside that range the tables below are the identity, which is not what
    Unicode says for every character; statements that use this instance only
    mention strings inside the range. *)

(** Canonical decomposition of the Latin-1 letters: base letter and mark. *)
Definition latin1_decompose (c : char) : str :=
  let mk base mark := [base; mark] in
  let table (up : bool) (c : N) : str :=
    let b x := if up then x else (x + 32)%N in
    match c with
    | 192 => mk (b 65) 768 | 193 => mk (b 65) 769 | 194 => mk (b 65) 770
    | 195 => mk (b 65) 771 | 196 => mk (b 65) 776 | 197 => mk (b 65) 778
    | 199 => mk (b 67) 807
    | 200 => mk (b 69) 768 | 201 => mk (b 69) 769 | 202 => mk (b 69) 770
    | 203 => mk (b 69) 776
    | 204 => mk (b 73) 768 | 205 => mk (b 73) 769 | 206 => mk (b 73) 770
    | 207 => mk (b 73) 776
    | 209 => mk (b 78) 771
    | 210 => mk (b 79) 768 | 211 => mk (b 79) 769 | 212 => mk (b 79) 770
    | 213 => mk (b 79) 771 | 214 => mk (b 79) 776
    | 217 => mk (b 85) 768 | 218 => mk (b 85) 769 | 219 => mk (b 85) 770
    | 220 => mk (b 85) 776
    | 221 => mk (b 89) 769
    | _ => [if up then c else (c + 32)%N]
    end%N in
  if (192 <=? c)%N && (c <=? 222)%N then table true c
  else if (224 <=? c)%N && (c <=? 254)%N then table false (c - 32)%N
  else if (c =? 255)%N then [121; 776]%N
  else [c].

Definition latin1_upper_char (c : char) : str :=
  if (97 <=? c)%N && (c <=? 122)%N then [(c - 32)%N]
  else if (224 <=? c)%N && (c <=? 254)%N && negb (c =? 247)%N then [(c - 32)%N]
  else if (c =? 223)%N then [83; 83]%N
  else if (c =? 181)%N then [924]%N
  else if (c =? 255)%N then [376]%N
  else [c].

Definition latin1_lower_char (c : char) : char :=
  if (65 <=? c)%N && (c <=? 90)%N then (c + 32)%N
  else if (192 <=? c)%N && (c <=? 222)%N && negb (c =? 215)%N then (c + 32)%N
  else c.

(** [str.isspace] per character (the whole Unicode set). *)
Definition unicode_isspace (c : char) : bool :=
  ((9 <=? c) && (c <=? 13) || (28 <=? c) && (c <=? 32) || (c =? 133)
   || (c =? 160) || (c =? 5760) || (8192 <=? c) && (c <=? 8202)
   || (c =? 8232) || (c =? 8233) || (c =? 8239) || (c =? 8287)
   || (c =? 12288))%N.

(** [int(s)] on ASCII input: surrounding whitespace, an optional sign, decimal
    digits, single underscores between digits. *)
Fixpoint digits_value (acc : Z) (after_digit : bool) (s : str) : option Z :=
  match s with
  | [] => if after_digit then Some acc else None
  | c :: s' =>
      if (48 <=? c)%N && (c <=? 57)%N
      then digits_value (10 * acc + Z.of_N (c - 48)) true s'
      else if (c =? 95)%N && after_digit then digits_value acc false s'
      else None
  end.

Definition ascii_int (s : str) : option Z :=
  let fix lstrip s :=
    match s with
    | c :: s' => if unicode_isspace c then lstrip s' else s
    | [] => []
    end in
  match reverse (lstrip (reverse (lstrip s))) with
  | 45%N :: ds => Z.opp <$> digits_value 0 false ds
  | 43%N :: ds => digits_value 0 false ds
  | ds => digits_value 0 false ds
  end.

#[export] Instance BasicLatin : Unicode := {
  normalize_NFD s := s ≫= latin1_decompose;
  category_Mn c := (768 <=? c)%N && (c <=? 879)%N;
  upper s := s ≫= latin1_upper_char;
  lower s := latin1_lower_char <$> s;
  isspace := unicode_isspace;
  int_of_str := ascii_int
}.

End py.

(** ** Module [ph]: the upstream record client *)
Module ph.
Import py.

(** *** The record cache: an [OrderedDict] from key to [(timestamp, data)]

    Timestamps are readings of [time.time()] in a fixed unit.  The cache is
    parametric in the type [V] of the values, in a store [H] in which mutable
    values live and in the copy [dict(value)] taken on the way in and on the
    way out: [pure_config] instantiates it for values without identity, the
    module [heap] below for objects in a store. *)
Class Config (V H : Type) := {
  CACHE_TTL : Z;
  CACHE_MAX : Z;
  dict_copy : H -> V -> outcome (V * H)   (* dict(value) *)
}.

Definition cache (V : Type) := dict (Z * V).

Section Cache.
Context {V H : Type} {C : Config V H}.

(** [now - ts > CACHE_TTL]. *)
Definition expired (now : Z) (e : str * (Z * V)) : bool :=
  (CACHE_TTL <? now - e.2.1)%Z.

Definition _purge_expired (now : Z) (c : cache V) : cache V :=
  if (CACHE_TTL <=? 0)%Z then []
  else List.filter (fun e => negb (expired now e)) c.

Definition _cache_get (now : Z) (key : str) (c : cache V) (h : H)
  : outcome (option V) * cache V * H :=
  if (CACHE_TTL <=? 0)%Z then (Returned None, c, h)
  else
    let c := _purge_expired now c in
    match dict_get key c with
    | None => (Returned None, c, h)
    | Some (_, data) =>
        let c := move_to_end key c in
        match dict_copy h data with
        | Returned (v, h') => (Returned (Some v), c, h')
        | Raised e => (Raised e, c, h)
        end
    end.

(** [while len(_CACHE) > CACHE_MAX > 0: _CACHE.popitem(last=False)]: the
    entries popped, oldest first, and what is left. *)
Fixpoint popitems (c : cache V) : list (str * (Z * V)) * cache V :=
  match c with
  | [] => ([], [])
  | e :: c' =>
      if (CACHE_MAX <? Z.of_nat (length c))%Z && (0 <? CACHE_MAX)%Z
      then let '(popped, rest) := popitems c' in (e :: popped, rest)
      else ([], c)
  end.

(** The cache after [_CACHE[key] = (now, copy); _CACHE.move_to_end(key)]. *)
Definition stored (now : Z) (key : str) (v : V) (c : cache V) : cache V :=
  move_to_end key (dict_set key (now, v) c).

Definition _cache_set (now : Z) (key : str) (value : V) (c : cache V) (h : H)
  : outcome unit * cache V * H :=
  if (CACHE_TTL <=? 0)%Z then (Returned (), c, h)
  else
    let c := _purge_expired now c in
    match dict_copy h value with
    | Returned (v, h') => (Returned (), (popitems (stored now key v c)).2, h')
    | Raised e => (Raised e, c, h)
    end.

End Cache.

(** Values without identity: the copy is the value. *)
Definition pure_config (V : Type) (ttl max : Z) : Config V unit :=
  {| CACHE_TTL := ttl; CACHE_MAX := max;
     dict_copy := fun h v => Returned (v, h) |}.

(** *** JSON as [json.loads] yields it

    A finite float is [m * 2^e]. *)
Inductive json :=
| JNull
| JBool (b : bool)
| JInt (z : Z)
| JFloat (m e : Z)
| JStr (s : str)
| JList (items : list json)
| JDict (items : dict json).

(** [bool(v)]. *)
Definition truthy (v : json) : bool :=
  match v with
  | JNull => false
  | JBool b => b
  | JInt z => negb (z =? 0)%Z
  | JFloat m _ => negb (m =? 0)%Z
  | JStr s => nonempty s
  | JList items => match items with [] => false | _ => true end
  | JDict items => match items with [] => false | _ => true end
  end.

(** [a or b]. *)
Definition py_or (a b : json) : json := if truthy a then a else b.

(** [d.get(k)]. *)
Definition get (k : string) (d : dict json) : json :=
  default JNull (dict_get (lit k) d).

Definition is_dict (v : json) : bool :=
  match v with JDict _ => true | _ => false end.

(** [isinstance(v, (str, int, float))]; [bool] is a subclass of [int]. *)
Definition is_scalar (v : json) : bool :=
  match v with
  | JBool _ | JInt _ | JFloat _ _ | JStr _ => true
  | _ => false
  end.

(** [str(v)] where it is a bare word or numeral.  For a float Python prints a
    point or an exponent and for a container brackets, so on those [str(v)]
    differs from every integer numeral and from ["OK"]: the comparisons below,
    the only uses of [str] on JSON in the code modelled, are then false. *)
Definition py_str (v : json) : option str :=
  match v with
  | JNull => Some (lit "None")
  | JBool true => Some (lit "True")
  | JBool false => Some (lit "False")
  | JInt z => Some (str_of_Z z)
  | JStr s => Some s
  | JFloat _ _ | JList _ | JDict _ => None
  end.

(** [str(v) == s] for such an [s]. *)
Definition str_is (v : json) (s : str) : bool :=
  match py_str v with Some t => str_eqb t s | None => false end.

(** *** Requests *)
Inductive method := POST | GET.

Inductive body :=
| NoBody
| JsonBody (payload : dict json)
| FormBody (payload : dict json).

Record request := {
  req_method : method;
  req_url : str;
  req_params : dict json;
  req_body : body;
  req_headers : dict str
}.

(** What [SESSION.request] followed by [_json] does: the call raises, or a
    response arrives with a status and a body that parses or does not. *)
Inductive reply :=
| NoReply
| Reply (status_code : Z) (parsed : option json).

(** The normalised record that [transformar_desde_masiva] returns. *)
Inductive scalar :=
| SNone
| SBool (b : bool)
| SInt (z : Z)
| SStr (s : str).

Record ClientRecord := {
  ID : str; Nombre : str; DNI : str; Mail : str; Contrasena : str;
  TV : bool; HBO : bool; Pack_Futbol : bool;
  Estado : str; EstadoCode : str
}.

Definition record_dict (r : ClientRecord) : dict scalar :=
  [ (lit "ID", SStr (ID r)); (lit "Nombre", SStr (Nombre r));
    (lit "DNI", SStr (DNI r)); (lit "Mail", SStr (Mail r));
    (lit "Contrasena", SStr (Contrasena r));
    (lit "TV", SBool (TV r)); (lit "HBO", SBool (HBO r));
    (lit "Pack Futbol", SBool (Pack_Futbol r));
    (lit "Estado", SStr (Estado r)); (lit "EstadoCode", SStr (EstadoCode r));
    (lit "_via", SStr (lit "masiva")) ].

(** The surroundings of the client: the environment variables, the upstream
    server, the outcome of the authentication of [_token] once the variables
    are set, and the derivation of the fields of the normalised record (no
    property below depends on how a field is derived). *)
Class Env := {
  PH_URL : str;
  PH_USER : str;
  PH_PASS : str;
  authenticate : outcome json;
  session_request : request -> reply;
  derive_fields : dict json -> outcome ClientRecord
}.

Section Client.
Context {E : Env}.

Definition _token : outcome json :=
  if nonempty PH_URL && nonempty PH_USER && nonempty PH_PASS then authenticate
  else Raised (RuntimeError "PH_URL/PH_USER/PH_PASS not configured in .env").

Definition accept_json : dict str := [(lit "Accept", lit "application/json")].

Definition masiva_params : dict json :=
  [(lit "action", JStr (lit "Consulta_Masiva_Datos")); (lit "JSON", JInt 1)].

(** The three requests tried for one payload. *)
Definition attempts (payload : dict json) : list request :=
  [ {| req_method := POST; req_url := PH_URL; req_params := masiva_params;
       req_body := JsonBody payload; req_headers := accept_json |};
    {| req_method := POST; req_url := PH_URL; req_params := masiva_params;
       req_body := FormBody payload;
       req_headers := dict_set (lit "Content-Type")
                        (lit "application/x-www-form-urlencoded") accept_json |};
    {| req_method := GET; req_url := PH_URL;
       req_params := foldl (fun d kv => dict_set kv.1 kv.2 d) masiva_params payload;
       req_body := NoBody; req_headers := accept_json |} ].

(** The loop of [_req_masiva]: a request that raises, a status other than
    200 and a body that does not parse all lead to the next attempt. *)
Fixpoint first_answer (reqs : list request) : option json :=
  match reqs with
  | [] => None
  | r :: reqs' =>
      match session_request r with
      | Reply 200 (Some data) => Some data
      | _ => first_answer reqs'
      end
  end.

Definition _req_masiva (payload : dict json) : outcome (option json) :=
  if nonempty PH_URL then Returned (first_answer (attempts payload))
  else Raised (RuntimeError "PH_URL not configured in .env").

Definition record_keys : list string :=
  ["abonados"; "Abonados"; "data"; "Data"; "rows"; "items"; "result"]%string.

(** The generator [_iter_records], as the list of what it yields. *)
Definition _iter_records (data : json) : list (dict json) :=
  let dicts items :=
    items ≫= (fun item => match item with JDict d => [d] | _ => [] end) in
  match data with
  | JList items => dicts items
  | JDict d =>
      (record_keys ≫= (fun key =>
         match get key d with JList arr => dicts arr | _ => [] end))
      ++ (if existsb is_scalar (dict_values d) then [d] else [])
  | _ => []
  end.

(** [str(rec.get("ID") or rec.get("IDA") or '') == str(ida_int)]. *)
Definition rid_matches (ida_int : Z) (rec : dict json) : bool :=
  str_is (py_or (get "ID" rec) (py_or (get "IDA" rec) (JStr []))) (str_of_Z ida_int).

(** ["code" in data and str(data["code"]) not in {"200", "OK"}]. *)
Definition code_rejects (data : json) : bool :=
  match data with
  | JDict d =>
      match dict_get (lit "code") d with
      | Some code => negb (str_is code (lit "200") || str_is code (lit "OK"))
      | None => false
      end
  | _ => false
  end.

Definition payloads (token : json) (ida_int : Z) : list (dict json) :=
  let shape desde hasta :=
    [(lit "token", token); (lit desde, JInt ida_int); (lit hasta, JInt ida_int)] in
  [ shape "ID_Desde" "ID_Hasta"; shape "Id_Desde" "Id_Hasta";
    shape "IDDesde" "IDHasta"; shape "Desde" "Hasta" ]%string.

(** The two loops over the records of one response. *)
Definition pick_record (ida_int : Z) (data : json) : option (dict json) :=
  match List.find (rid_matches ida_int) (_iter_records data) with
  | Some rec => Some rec
  | None => head (_iter_records data)
  end.

(** The loop over the payloads. *)
Fixpoint try_payloads (ida_int : Z) (ps : list (dict json))
  : outcome (option (dict json)) :=
  match ps with
  | [] => Returned None
  | payload :: ps' =>
      match _req_masiva payload with
      | Raised e => Raised e
      | Returned None => try_payloads ida_int ps'
      | Returned (Some data) =>
          if negb (truthy data) then try_payloads ida_int ps'
          else if code_rejects data then try_payloads ida_int ps'
          else match pick_record ida_int data with
               | Some rec => Returned (Some rec)
               | None => try_payloads ida_int ps'
               end
      end
  end.

Definition consulta_masiva_por_id (ida_int : Z) : outcome (option (dict json)) :=
  match _token with
  | Raised e => Raised e
  | Returned token => try_payloads ida_int (payloads token ida_int)
  end.

Definition transformar_desde_masiva (record : dict json) : outcome (dict scalar) :=
  match derive_fields record with
  | Returned r => Returned (record_dict r)
  | Raised e => Raised e
  end.

Definition no_data : exn := RuntimeError "Consulta_Masiva_Datos did not return data".

(** [consultar_y_transformar_masiva]; [t_get] and [t_set] are the readings of
    the clock in its two cache calls. *)
Definition consultar_y_transformar_masiva {S : Type} {C : Config (dict scalar) S}
    (t_get t_set : Z) (ida_int : Z) (c : cache (dict scalar)) (h : S)
  : outcome (dict scalar) * cache (dict scalar) * S :=
  match _cache_get t_get (str_of_Z ida_int) c h with
  | (Raised e, c, h) => (Raised e, c, h)
  | (Returned (Some cached), c, h) => (Returned cached, c, h)
  | (Returned None, c, h) =>
      match consulta_masiva_por_id ida_int with
      | Raised e => (Raised e, c, h)
      | Returned record =>
          match record with
          | None | Some [] => (Raised no_data, c, h)
          | Some record =>
              match transformar_desde_masiva record with
              | Raised e => (Raised e, c, h)
              | Returned data =>
                  match _cache_set t_set (str_of_Z ida_int) data c h with
                  | (Raised e, c, h) => (Raised e, c, h)
                  | (Returned _, c, h) => (Returned data, c, h)
                  end
              end
          end
      end
  end.

End Client.

End ph.

(** ** Module [tv]: the spreadsheet helpers *)
Module tv.
Import py.

(** *** The sheet cache: a plain [dict] from key to [(timestamp, value)],
    parametric in the values, the store and [copy.deepcopy] like the cache
    of [ph]. *)
Class Config (V H : Type) := {
  SHEET_CACHE_TTL : Z;
  deepcopy : H -> V -> outcome (V * H)
}.

Section Cache.
Context {V H : Type} {C : Config V H}.

Definition _cache_get (now : Z) (key : str) (c : gmap str (Z * V)) (h : H)
  : outcome (option V) * gmap str (Z * V) * H :=
  if (SHEET_CACHE_TTL <=? 0)%Z then (Returned None, c, h)
  else
    match c !! key with
    | None => (Returned None, c, h)
    | Some (ts, value) =>
        if (SHEET_CACHE_TTL <? now - ts)%Z then (Returned None, delete key c, h)
        else match deepcopy h value with
             | Returned (v, h') => (Returned (Some v), c, h')
             | Raised e => (Raised e, c, h)
             end
    end.

Definition _cache_set (now : Z) (key : str) (value : V) (c : gmap str (Z * V)) (h : H)
  : outcome unit * gmap str (Z * V) * H :=
  if (SHEET_CACHE_TTL <=? 0)%Z then (Returned (), c, h)
  else
    match deepcopy h value with
    | Returned (v, h') => (Returned (), <[key := (now, v)]> c, h')
    | Raised e => (Raised e, c, h)
    end.

Definition _cache_clear (c : gmap str (Z * V)) : gmap str (Z * V) := ∅.

End Cache.

Definition pure_config (V : Type) (ttl : Z) : Config V unit :=
  {| SHEET_CACHE_TTL := ttl; deepcopy := fun h v => Returned (v, h) |}.

(** *** Normalisation helpers *)
Section Names.
Context {U : Unicode}.

(** [(value or '').strip()]. *)
Definition _norm (value : str) : str := strip value.

Definition _normkey (value : str) : str :=
  match value with
  | [] => []
  | _ => List.filter (fun c => negb (is_sep c)) (lower (strip_marks value))
  end.

(** The list [tokens] of [_name_signature] (empty for an empty name). *)
Definition name_tokens (value : str) : list str :=
  match value with
  | [] => []
  | _ => findall_runs is_AZ09 [] (upper (strip_marks value))
  end.

Definition _name_signature (value : str) : Counter :=
  Counter_of (name_tokens value).

End Names.

(** *** The sheet *)
Definition grid := list (list str).
Definition record := dict str.

(** What the cache holds: the matrix under ["matrix"], the parsed rows under
    ["records"]. *)
Inductive sheet_value :=
| Matrix (values : grid)
| Records (records : list record).

(** The surroundings: the clock and the remote worksheet, each given by what
    its n-th use returns, and the time to live of the cache. *)
Class Sheet := {
  SHEET_TTL : Z;
  clock : nat -> Z;                       (* time.time() *)
  get_all_values : nat -> outcome grid    (* _open_ws().get_all_values() *)
}.

Record world := {
  sheet_cache : gmap str (Z * sheet_value);
  clock_reads : nat;
  sheet_reads : nat
}.

(** Calls that read and change the module state and may raise; what a call
    changed before it raised stays changed. *)
Definition M (A : Type) := world -> outcome A * world.

#[export] Instance M_ret : MRet M := fun A a w => (Returned a, w).
#[export] Instance M_bind : MBind M := fun A B k m w =>
  match m w with
  | (Returned a, w') => k a w'
  | (Raised e, w') => (Raised e, w')
  end.

Definition raise {A : Type} (e : exn) : M A := fun w => (Raised e, w).

(** [try: m except Exception: handler]. *)
Definition try_except {A : Type} (m : M A) (handler : M A) : M A := fun w =>
  match m w with
  | (Returned a, w') => (Returned a, w')
  | (Raised _, w') => handler w'
  end.

Section Sheet.
Context {U : Unicode} {Sh : Sheet}.

#[local] Instance sheet_config : Config sheet_value unit :=
  pure_config sheet_value SHEET_TTL.

(** The two cache calls on the module state.  A reading of the clock is
    drawn for each call, also when the call returns before [time.time()]. *)
Definition cache_get (key : string) : M (option sheet_value) := fun w =>
  let '(r, c, _) := _cache_get (clock (clock_reads w)) (lit key) (sheet_cache w) () in
  (r, {| sheet_cache := c; clock_reads := S (clock_reads w);
         sheet_reads := sheet_reads w |}).

Definition cache_set (key : string) (value : sheet_value) : M unit := fun w =>
  let '(r, c, _) := _cache_set (clock (clock_reads w)) (lit key) value (sheet_cache w) () in
  (r, {| sheet_cache := c; clock_reads := S (clock_reads w);
         sheet_reads := sheet_reads w |}).

(** [ws = _open_ws(); values = ws.get_all_values()]. *)
Definition fetch_values : M grid := fun w =>
  (get_all_values (sheet_reads w),
   {| sheet_cache := sheet_cache w; clock_reads := clock_reads w;
      sheet_reads := S (sheet_reads w) |}).

(** [values = _cache_get("matrix")] and, on a miss, the fetch and
    [_cache_set("matrix", values)].  The key only ever holds a matrix; a
    state in which it holds something else makes the model raise. *)
Definition cached_matrix : M (option grid) :=
  v ← cache_get "matrix";
  match v with
  | None => mret None
  | Some (Matrix values) => mret (Some values)
  | Some (Records _) => raise TypeError
  end.

Definition matrix_or_fetch (cached : option grid) : M grid :=
  match cached with
  | Some values => mret values
  | None =>
      values ← fetch_values;
      _ ← cache_set "matrix" (Matrix values);
      mret values
  end.

(** **** Header discovery and record derivation *)

Definition count_nonempty (row : list str) : nat :=
  length (List.filter (fun cell => nonempty (_norm cell)) row).

Definition has_CIC (row : list str) : bool :=
  existsb (fun cell => str_eqb (upper (_norm cell)) (lit "CIC")) row.

(** The loop over [enumerate(values[:5])]; [idx] is the index of the head of
    [rows]. *)
Fixpoint scan_header (rows : grid) (idx header_index : nat) (best_nonempty : Z) : nat :=
  match rows with
  | [] => header_index
  | row :: rows' =>
      let nonempty := Z.of_nat (count_nonempty row) in
      if has_CIC row then idx
      else if (best_nonempty <? nonempty)%Z then scan_header rows' (S idx) idx nonempty
      else scan_header rows' (S idx) header_index best_nonempty
  end.

Definition header_index (values : grid) : nat :=
  scan_header (take 5 values) 0 0 (-1).

(** The loop over [enumerate(header_raw)]; [j] is the index of the head. *)
Fixpoint name_headers (header_raw : list str) (j : nat) (seen : gmap str nat) : list str :=
  match header_raw with
  | [] => []
  | header :: rest =>
      let name :=
        if nonempty (_norm header) then _norm header
        else lit "col_" ++ str_of_nat (j + 1) in
      match seen !! name with
      | Some n =>
          (name ++ lit "_" ++ str_of_nat (S n))
            :: name_headers rest (S j) (<[name := S n]> seen)
      | None => name :: name_headers rest (S j) (<[name := 1]> seen)
      end
  end.

Definition headers_of (values : grid) : list str :=
  name_headers (values !!! header_index values) 0 ∅.

(** The dict comprehension over [range(len(headers))]. *)
Fixpoint fill_record (headers : list str) (j : nat) (row : list str) (rec : record) : record :=
  match headers with
  | [] => rec
  | name :: headers' =>
      fill_record headers' (S j) row
        (dict_set name (match row !! j with Some cell => _norm cell | None => [] end) rec)
  end.

Definition is_blank (row : list str) : bool :=
  negb (existsb (fun cell => nonempty (_norm cell)) row).

Definition records_of (values : grid) : list record :=
  (fun row => fill_record (headers_of values) 0 row [])
    <$> List.filter (fun row => negb (is_blank row)) (drop (S (header_index values)) values).

Definition load_data_from_sheet (force_refresh : bool) : M (list record) :=
  cached ← (if force_refresh then mret None else cached_matrix);
  values ← matrix_or_fetch cached;
  match values with
  | [] => mret []
  | _ =>
      _ ← cache_set "records" (Records (records_of values));
      mret (records_of values)
  end.

(** **** Tolerant column lookup *)

(** First loop of [_find_key]: [for cand in desired: if cand in normalised]. *)
Fixpoint find_exact (normalised : dict str) (desired : list str) : option str :=
  match desired with
  | [] => None
  | cand :: desired' =>
      match dict_get cand normalised with
      | Some k_real => Some k_real
      | None => find_exact normalised desired'
      end
  end.

(** Inner loop of the second: [for k_norm, k_real in normalised.items()]. *)
Fixpoint find_prefixed (cand : str) (items : dict str) : option str :=
  match items with
  | [] => None
  | (k_norm, k_real) :: items' =>
      if startswith k_norm cand then Some k_real else find_prefixed cand items'
  end.

Fixpoint find_prefix (normalised : dict str) (desired : list str) : option str :=
  match desired with
  | [] => None
  | cand :: desired' =>
      match find_prefixed cand normalised with
      | Some k_real => Some k_real
      | None => find_prefix normalised desired'
      end
  end.

Definition _find_key (row : record) (candidates : list string) : option str :=
  match row with
  | [] => None
  | _ =>
      let normalised := foldl (fun d key => dict_set (_normkey key) key d) [] (dict_keys row) in
      let desired := (fun c => _normkey (lit c)) <$> candidates in
      match find_exact normalised desired with
      | Some k => Some k
      | None => find_prefix normalised desired
      end
  end.

(** [row.get(key, '').strip() if key else '']: no key, or an empty one, gives
    the empty string. *)
Definition cell_of (row : record) (key : option str) : str :=
  match key with
  | Some (c :: k) => strip (default [] (dict_get (c :: k) row))
  | _ => []
  end.

Definition _get_abonado_num (row : record) : str :=
  cell_of row (_find_key row ["Gigared"; "Abonado"; "Numero"; "Nro Abonado"]%string).

(** **** Matching by name *)

Record Match := {
  abonado : str;
  row : record;
  cic : str;
  usuario : str
}.

Definition name_candidates : list string :=
  ["Nombre"; "Razon Social"; "Razon_Social"; "Cliente"; "Titular"]%string.

Definition user_candidates : list string :=
  ["Usuario"; "Usuario GP"; "Usuario GigaredPlay"; "User"]%string.

(** The loop [for row in rows] of [encontrar_abonado_por_nombre]. *)
Fixpoint match_rows (signature_query : Counter) (rows : list record) : option Match :=
  match rows with
  | [] => None
  | r :: rows' =>
      match _find_key r name_candidates with
      | Some (c :: k) =>
          let signature_row := _name_signature (default [] (dict_get (c :: k) r)) in
          if Counter_eqb signature_row signature_query
          then Some {| abonado := _get_abonado_num r;
                       row := r;
                       cic := cell_of r (_find_key r ["CIC"%string]);
                       usuario := cell_of r (_find_key r user_candidates) |}
          else match_rows signature_query rows'
      | _ => match_rows signature_query rows'
      end
  end.

Definition encontrar_abonado_por_nombre (nombre_busqueda : str) : M (option Match) :=
  rows ← load_data_from_sheet false;
  mret (match_rows (_name_signature nombre_busqueda) rows).

(** **** The first available credential *)

Record Disp := {
  disp_usuario : str;
  disp_cic : str;
  row_index : nat
}.

Fixpoint index_where (p : str -> bool) (index : nat) (headers : list str) : option nat :=
  match headers with
  | [] => None
  | header :: headers' =>
      if p header then Some index else index_where p (S index) headers'
  end.

(** [find_col_idx]; [None] stands for the -1 of the code. *)
Definition find_col_idx (headers : list str) (name : string) : option nat :=
  let target := _normkey (lit name) in
  match index_where (fun header => str_eqb (_normkey header) target) 0 headers with
  | Some index => Some index
  | None => index_where (fun header => startswith (_normkey header) target) 0 headers
  end.

(** [row[idx] if idx < len(row) else '']. *)
Definition cell_at (row : list str) (idx : nat) : str := default [] (row !! idx).

Definition is_no (reg_raw : str) : bool :=
  bool_decide (reg_raw ∈ [lit "no"; lit "n"; lit "false"; lit "0"]).

(** The loop [for row_index in range(1, len(values))]; [row_index] is the
    index in [values] of the head of [rows]. *)
Fixpoint scan_rows (idx_cic idx_user idx_reg : nat) (row_index : nat) (rows : grid)
  : option Disp :=
  match rows with
  | [] => None
  | r :: rows' =>
      let reg_raw := lower (strip (cell_at r idx_reg)) in
      let usuario := strip (cell_at r idx_user) in
      let cic := strip (cell_at r idx_cic) in
      if is_no reg_raw && (nonempty usuario || nonempty cic)
      then Some {| disp_usuario := usuario; disp_cic := cic; row_index := row_index + 1 |}
      else scan_rows idx_cic idx_user idx_reg (S row_index) rows'
  end.

Definition first_available (values : grid) : option Disp :=
  match values with
  | [] | [_] => None
  | headers :: rows =>
      match find_col_idx headers "CIC", find_col_idx headers "Usuario",
            find_col_idx headers "Registrado" with
      | Some idx_cic, Some idx_user, Some idx_reg =>
          scan_rows idx_cic idx_user idx_reg 1 rows
      | _, _, _ => None
      end
  end.

Definition obtener_usuario_cic_disponible : M (option Disp) :=
  cached ← cached_matrix;
  values ← matrix_or_fetch cached;
  mret (first_available values).

End Sheet.

End tv.

(** ** Module [main]: the handler [api_cliente] *)
Module main.
Import py.

(** What the handler uses of the module [tv]. *)
Record TvModule := {
  encontrar_abonado_por_nombre : str -> tv.M (option tv.Match);
  obtener_usuario_cic_disponible : tv.M (option tv.Disp)
}.

(** The module as defined above. *)
Definition tv_module {U : Unicode} {Sh : tv.Sheet} : TvModule :=
  {| encontrar_abonado_por_nombre := tv.encontrar_abonado_por_nombre;
     obtener_usuario_cic_disponible := tv.obtener_usuario_cic_disponible |}.

(** The surroundings of the handler: [tv] is [None] when [import tv] failed;
    [ph_clock] gives the readings of the clock taken inside [ph]. *)
Class App := {
  tv : option TvModule;
  ALTA_URL : str;
  ph_clock : nat -> Z;
  PH_CACHE_TTL : Z;
  PH_CACHE_MAX : Z
}.

Record world := {
  ph_cache : ph.cache (dict ph.scalar);
  ph_clock_reads : nat;
  sheet : tv.world
}.

Section Handler.
Context {U : Unicode} {E : ph.Env} {A : App}.

#[local] Instance ph_config : ph.Config (dict ph.scalar) unit :=
  ph.pure_config (dict ph.scalar) PH_CACHE_TTL PH_CACHE_MAX.

(** [bool(v)] and [str(v)] on a field of the record. *)
Definition scalar_truthy (v : ph.scalar) : bool :=
  match v with
  | ph.SNone => false
  | ph.SBool b => b
  | ph.SInt z => negb (z =? 0)%Z
  | ph.SStr s => nonempty s
  end.

Definition scalar_str (v : ph.scalar) : str :=
  match v with
  | ph.SNone => lit "None"
  | ph.SBool true => lit "True"
  | ph.SBool false => lit "False"
  | ph.SInt z => str_of_Z z
  | ph.SStr s => s
  end.

(** The name that [_name_signature(data.get("Nombre", ''))] reads: a falsy
    value gives the empty signature, like the empty name. *)
Definition nombre_of (data : dict ph.scalar) : str :=
  match dict_get (lit "Nombre") data with
  | Some v => if scalar_truthy v then scalar_str v else []
  | None => []
  end.

(** [ph.consultar_y_transformar_masiva(ida)] on the state of the process. *)
Definition consultar (ida : str) (w : world) : outcome (dict ph.scalar) * world :=
  match int_of_str ida with
  | None => (Raised ValueError, w)
  | Some ida_int =>
      let '(r, c, _) :=
        ph.consultar_y_transformar_masiva
          (ph_clock (ph_clock_reads w)) (ph_clock (S (ph_clock_reads w)))
          ida_int (ph_cache w) () in
      (r, {| ph_cache := c; ph_clock_reads := S (S (ph_clock_reads w));
             sheet := sheet w |})
  end.

(** A call into [tv] under [try ... except Exception], with the value taken
    when it raises. *)
Definition guarded {A : Type} (call : tv.M A) (fallback : A) (w : world) : A * world :=
  match call (sheet w) with
  | (Returned a, s) =>
      (a, {| ph_cache := ph_cache w; ph_clock_reads := ph_clock_reads w; sheet := s |})
  | (Raised _, s) =>
      (fallback, {| ph_cache := ph_cache w; ph_clock_reads := ph_clock_reads w; sheet := s |})
  end.

(** The assignments between the two calls into [tv]. *)
Definition with_match (match_ : option tv.Match) (data : dict ph.scalar) : dict ph.scalar :=
  let field (f : tv.Match -> str) :=
    ph.SStr (match match_ with Some m => f m | None => [] end) in
  dict_set (lit "CICPropuesto") (ph.SStr [])
    (dict_set (lit "UsuarioPropuesto") (ph.SStr [])
      (dict_set (lit "AltaURL") (ph.SStr ALTA_URL)
        (dict_set (lit "cic_sheet") (field tv.cic)
          (dict_set (lit "usuario_sheet") (field tv.usuario)
            (dict_set (lit "abonado_sheet") (field tv.abonado)
              (dict_set (lit "ya_tiene_usuario")
                 (ph.SBool (match match_ with Some _ => true | None => false end))
                 data)))))).

(** The assignments under [if disp:]. *)
Definition with_proposal (disp : option tv.Disp) (data : dict ph.scalar) : dict ph.scalar :=
  match disp with
  | None => data
  | Some d =>
      dict_set (lit "fila_propuesta") (ph.SInt (Z.of_nat (tv.row_index d)))
        (dict_set (lit "CICPropuesto") (ph.SStr (tv.disp_cic d))
          (dict_set (lit "UsuarioPropuesto") (ph.SStr (tv.disp_usuario d)) data))
  end.

Definition api_cliente (ida : str) (w : world) : outcome (dict ph.scalar) * world :=
  match strip ida with
  | [] => (Raised (HTTPException 400), w)
  | ida =>
      match consultar ida w with
      | (Raised _, w) => (Raised (HTTPException 500), w)
      | (Returned data, w) =>
          let '(match_, w) :=
            match tv with
            | Some m => guarded (encontrar_abonado_por_nombre m (nombre_of data)) None w
            | None => (None, w)
            end in
          let data := with_match match_ data in
          match match_, tv with
          | None, Some m =>
              let '(disp, w) := guarded (obtener_usuario_cic_disponible m) None w in
              (Returned (with_proposal disp data), w)
          | _, _ => (Returned data, w)
          end
      end
  end.

End Handler.

End main.

(** ** Module [heap]: mutable objects in a store

    For the properties that depend on which object a reference denotes, the
    lists and dictionaries handed to the caches live in a store and are known
    by their location; numbers and strings are immutable and carried by value. *)
Module heap.
Import py.

Abbreviation loc := nat.

Inductive value :=
| VNone
| VBool (b : bool)
| VInt (z : Z)
| VFloat (m e : Z)
| VStr (s : str)
| VRef (l : loc).

Inductive object :=
| OList (items : list value)
| ODict (items : dict value).

Abbreviation store := (list object).

Definition children (o : object) : list value :=
  match o with
  | OList items => items
  | ODict items => dict_values items
  end.

(** Putting new children in an object of the same shape. *)
Definition rebuild (o : object) (items : list value) : object :=
  match o with
  | OList _ => OList items
  | ODict kvs => ODict (zip (dict_keys kvs) items)
  end.

(** Copies of the items of a container, left to right. *)
Fixpoint copy_items (copy : store -> value -> outcome (value * store))
    (h : store) (items : list value) : outcome (list value * store) :=
  match items with
  | [] => Returned ([], h)
  | x :: items' =>
      match copy h x with
      | Raised e => Raised e
      | Returned (x', h') =>
          match copy_items copy h' items' with
          | Raised e => Raised e
          | Returned (xs', h'') => Returned (x' :: xs', h'')
          end
      end
  end.

(** [copy.deepcopy(v)] under a recursion limit [depth]: a fresh object for
    every list and dictionary met.  The memo of [deepcopy] is left out, so an
    object met twice is copied twice; the copy has the same structure either
    way.  A location outside the store has no counterpart in Python. *)
Fixpoint deepcopy (depth : nat) (h : store) (v : value) : outcome (value * store) :=
  match v with
  | VRef l =>
      match depth with
      | 0 => Raised RecursionError
      | S depth' =>
          match h !! l with
          | None => Raised TypeError
          | Some o =>
              match copy_items (deepcopy depth') h (children o) with
              | Raised e => Raised e
              | Returned (items, h') => Returned (VRef (length h'), h' ++ [rebuild o items])
              end
          end
      end
  | _ => Returned (v, h)
  end.

(** [dict(v)] for a dictionary [v]: a fresh dictionary with the same items. *)
Definition dict_copy (h : store) (v : value) : outcome (value * store) :=
  match v with
  | VRef l =>
      match h !! l with
      | Some (ODict items) => Returned (VRef (length h), h ++ [ODict items])
      | _ => Raised TypeError
      end
  | _ => Raised TypeError
  end.

(** The structure of a value: what [==] compares. *)
Fixpoint reify (depth : nat) (h : store) (v : value) : option ph.json :=
  match v with
  | VNone => Some ph.JNull
  | VBool b => Some (ph.JBool b)
  | VInt z => Some (ph.JInt z)
  | VFloat m e => Some (ph.JFloat m e)
  | VStr s => Some (ph.JStr s)
  | VRef l =>
      match depth with
      | 0 => None
      | S depth' =>
          match h !! l with
          | Some (OList items) => ph.JList <$> mapM (reify depth' h) items
          | Some (ODict items) =>
              (fun js => ph.JDict (zip (dict_keys items) js))
                <$> mapM (reify depth' h) (dict_values items)
          | None => None
          end
      end
  end.

(** The objects a value gives access to. *)
Inductive reachable (h : store) : value -> loc -> Prop :=
| reach_root l : reachable h (VRef l) l
| reach_child l o v l' :
    h !! l = Some o -> v ∈ children o -> reachable h v l' ->
    reachable h (VRef l) l'.

(** The two caches over the store. *)
Definition ph_config (ttl max : Z) : ph.Config value store :=
  {| ph.CACHE_TTL := ttl; ph.CACHE_MAX := max; ph.dict_copy := dict_copy |}.

Definition tv_config (depth : nat) (ttl : Z) : tv.Config value store :=
  {| tv.SHEET_CACHE_TTL := ttl; tv.deepcopy := deepcopy depth |}.

End heap.

(** ** Vocabulary of the cache properties *)
Module cache_spec.
Import py.

Section RecordCache.
Context {V H : Type} {C : ph.Config V H}.

(** The operations on the record cache and their effect on the cache and
    the store. *)
Inductive op :=
| OpGet (now : Z) (key : str)
| OpSet (now : Z) (key : str) (value : V).

Definition apply (o : op) (c : ph.cache V) (h : H) : ph.cache V * H :=
  match o with
  | OpGet now key => let '(_, c', h') := ph._cache_get now key c h in (c', h')
  | OpSet now key value => let '(_, c', h') := ph._cache_set now key value c h in (c', h')
  end.

(** The key an operation touches: the key of a get that finds an entry, the
    key of a set that stores one. *)
Definition touches (o : op) (c : ph.cache V) (h : H) : option str :=
  match o with
  | OpGet now key =>
      if dict_mem key (ph._purge_expired now c) then Some key else None
  | OpSet now key value =>
      match ph.dict_copy h value with
      | Returned _ => Some key
      | Raised _ => None
      end
  end.

(** A run of operations, with the history of the keys touched, the latest
    first. *)
Definition step (st : ph.cache V * H * list str) (o : op) : ph.cache V * H * list str :=
  let '(c, h, hist) := st in
  (apply o c h, match touches o c h with Some k => k :: hist | None => hist end).

Definition run (ops : list op) (st : ph.cache V * H * list str) : ph.cache V * H * list str :=
  foldl step st ops.

(** How long ago a key was last touched: the number of touches since. *)
Fixpoint age (hist : list str) (k : str) : nat :=
  match hist with
  | [] => 0
  | k' :: hist' => if decide (k = k') then 0 else S (age hist' k)
  end.

(** Oldest first: every entry was touched longer ago than those after it. *)
Definition by_recency (hist : list str) (c : ph.cache V) : Prop :=
  StronglySorted (fun e1 e2 => age hist e2.1 < age hist e1.1) c.

(** What holds of the cache and the history after every operation. *)
Definition lru_invariant (hist : list str) (c : ph.cache V) : Prop :=
  by_recency hist c
  /\ Forall (fun e => e.1 ∈ hist) c
  /\ (Z.of_nat (length c) <= ph.CACHE_MAX)%Z.

(** The entries that [_cache_set] pops once it has stored a copy [v]. *)
Definition evicted (now : Z) (key : str) (v : V) (c : ph.cache V) : list (str * (Z * V)) :=
  (ph.popitems (ph.stored now key v (ph._purge_expired now c))).1.

(** No entry of the record cache is older than the time to live. *)
Definition all_fresh (now : Z) (c : ph.cache V) : Prop :=
  Forall (fun e => (now - e.2.1 <= ph.CACHE_TTL)%Z) c.

End RecordCache.

(** No entry of the sheet cache is older than the time to live. *)
Definition sheet_all_fresh {V : Type} (ttl now : Z) (c : gmap str (Z * V)) : Prop :=
  forall k ts v, c !! k = Some (ts, v) -> (now - ts <= ttl)%Z.

End cache_spec.

(** ** Vocabulary of the copy properties *)
Module heap_spec.
Import py heap.

(** A value that is not a reference to an object below location [n]. *)
Definition above (n : nat) (v : value) : Prop :=
  match v with VRef l => n <= l | _ => True end.

(** Objects whose items do not refer below [n]. *)
Definition closed_above (n : nat) (objects : list object) : Prop :=
  Forall (fun o => Forall (above n) (children o)) objects.

Definition is_atom (v : value) : bool :=
  match v with VRef _ => false | _ => true end.

(** [h'] is [h] after any change made through [v]: the objects that [v]
    gives access to (the object [v] itself and those nested in it) are
    whatever the change made them, objects may have been created (they are at
    the locations from [length h] on, and may have been put in the former),
    and every other object of [h] is as it was. *)
Definition mutation_of (h : store) (v : value) (h' : store) : Prop :=
  forall l, l < length h -> ~ reachable h v l -> h' !! l = h !! l.

(** [h'] is [h] after any change to the object at [l] itself, which may
    create objects and put them in it: every other object of [h] is as it
    was. *)
Definition mutation_at (h : store) (l : loc) (h' : store) : Prop :=
  forall l', l' < length h -> l' ≠ l -> h' !! l' = h !! l'.

(** An ordered dictionary that ends with the entry [(key, x)], the only one
    under [key]. *)
Definition ends_with {V : Type} (key : str) (x : V) (d : dict V) : Prop :=
  exists d0, d = d0 ++ [(key, x)] /\ Forall (fun e => e.1 ≠ key) d0.

End heap_spec.

(** ** Reference descriptions of the upstream lookup

    Two descriptions of what [consultar_y_transformar_masiva] does on a cache
    miss, written from the words of the specification and not from the code:
    [fetch_as_claimed] as the specification states it, [fetch_amended] with
    the two conditions the code adds. *)
Module fetch_spec.
Import py ph.

Section Fetch.
Context {E : Env}.


(** As specified: the variants of a shape are tried in order up to the first
    answered with status 200, whose body is the data of the shape. *)
Definition claimed_data (payload : dict json) : option json :=
  mjoin (head (omap (fun r =>
                       match session_request r with
                       | Reply 200 parsed => Some parsed
                       | _ => None
                       end) (attempts payload))).






End Fetch.

End fetch_spec.

(** ** Vocabulary of the sheet properties *)
Module tv_spec.
Import py tv.

(** [k] is the index of the first element of [l] that satisfies [p]. *)
Definition first_index {A : Type} (p : A -> bool) (l : list A) (k : nat) : Prop :=
  exists x, l !! k = Some x /\ p x = true
            /\ forall k' x', k' < k -> l !! k' = Some x' -> p x' = false.

Section Sheet.
Context {U : Unicode}.

(** The column [name] is located at [idx]: the first header whose collapsed
    key is the collapsed name or, when there is none, the first header whose
    collapsed key starts with it. *)
Definition located (headers : list str) (name : string) (idx : nat) : Prop :=
  let target := _normkey (lit name) in
  first_index (fun header => str_eqb (_normkey header) target) headers idx
  \/ (Forall (fun header => str_eqb (_normkey header) target = false) headers
      /\ first_index (fun header => startswith (_normkey header) target) headers idx).

(** The name of each header cell before duplicates are told apart: the
    trimmed cell, or col_N for a blank cell in column N (counted from 1);
    [j] is the index of the first cell. *)
Fixpoint raw_names (header_raw : list str) (j : nat) : list str :=
  match header_raw with
  | [] => []
  | header :: rest =>
      (if nonempty (_norm header) then _norm header else lit "col_" ++ str_of_nat (j + 1))
        :: raw_names rest (S j)
  end.

(** A row under its column names: the trimmed cells, the empty string where
    the row is short; [j] is the index of the first column. *)
Fixpoint padded (headers : list str) (j : nat) (r : list str) : record :=
  match headers with
  | [] => []
  | name :: headers' =>
      (name, match r !! j with Some cell => _norm cell | None => [] end)
        :: padded headers' (S j) r
  end.

(** A data row that can be handed out: its Registrado cell, trimmed and
    lower-cased, is one of no, n, false, 0, and its Usuario or its CIC cell is
    not empty once trimmed. *)
Definition available (idx_cic idx_user idx_reg : nat) (r : list str) : bool :=
  is_no (lower (strip (cell_at r idx_reg)))
  && (nonempty (strip (cell_at r idx_user)) || nonempty (strip (cell_at r idx_cic))).

(** A record with a name column that can be found and a name without any
    token in it. *)
Definition has_blank_name (r : record) : bool :=
  match _find_key r name_candidates with
  | Some (c :: k) =>
      match name_tokens (default [] (dict_get (c :: k) r)) with
      | [] => true
      | _ => false
      end
  | _ => false
  end.

(** The match that [encontrar_abonado_por_nombre] builds from a record. *)
Definition match_of (r : record) : Match :=
  {| abonado := _get_abonado_num r;
     row := r;
     cic := cell_of r (_find_key r ["CIC"%string]);
     usuario := cell_of r (_find_key r user_candidates) |}.

End Sheet.

End tv_spec.

(** ** Vocabulary of the handler properties *)
Module main_spec.
Import py main.

(** The handler with another lookup of the available credential in place
    of [tv.obtener_usuario_cic_disponible], all else the same. *)
Definition with_obtener (f : tv.M (option tv.Disp)) (m : TvModule) : TvModule :=
  {| encontrar_abonado_por_nombre := encontrar_abonado_por_nombre m;
     obtener_usuario_cic_disponible := f |}.

Definition with_lookup (f : tv.M (option tv.Disp)) (A : App) : App :=
  {| tv := with_obtener f <$> tv; ALTA_URL := ALTA_URL; ph_clock := ph_clock;
     PH_CACHE_TTL := PH_CACHE_TTL; PH_CACHE_MAX := PH_CACHE_MAX |}.

(** Every value in the record cache is a normalised record, as it is when
    only [consultar_y_transformar_masiva] writes to the cache. *)
Definition cache_ok (c : ph.cache (dict ph.scalar)) : Prop :=
  Forall (fun e => exists r, e.2.2 = ph.record_dict r) c.

(** [data.get(k)]. *)
Definition field (k : string) (data : dict ph.scalar) : option ph.scalar :=
  dict_get (lit k) data.

End main_spec.

From Stdlib Require DecimalZ DecimalPos.

(** ** Module [main], continued: accounts and sessions *)
Module auth.
Import py.

(** The four environment variables of the accounts; a variable that is not
    set has its default, so each is a string. *)
Class Accounts := {
  READ_USERNAME : str;
  READ_PASSWORD : str;
  WRITE_USERNAME : str;
  WRITE_PASSWORD : str
}.

(** [request.session]: a dictionary; under ["auth"] it holds the dictionary
    that [login_submit] stores. *)
Definition session := dict (dict str).

(** The two kinds of response of the HTML routes.  The context of a
    template is given without its ["request"] entry, and a template response
    has status 200 unless another is given. *)
Inductive response :=
| TemplateResponse (name : string) (context : dict str) (status_code : Z)
| RedirectResponse (url : string) (status_code : Z).

Section Auth.
Context {U : Unicode} {Acc : Accounts}.

Definition _build_accounts : list (str * str * str) :=
  (if nonempty READ_USERNAME && nonempty READ_PASSWORD
   then [(lit "read", READ_USERNAME, READ_PASSWORD)] else [])
  ++ (if nonempty WRITE_USERNAME && nonempty WRITE_PASSWORD
      then [(lit "write", WRITE_USERNAME, WRITE_PASSWORD)] else []).

Definition ACCOUNTS : list (str * str * str) := _build_accounts.

(** The loop [for role, user, pwd in ACCOUNTS]. *)
Fixpoint first_account (accounts : list (str * str * str)) (username password : str)
  : option str :=
  match accounts with
  | [] => None
  | (role, user, pwd) :: accounts' =>
      if str_eqb username user && str_eqb password pwd then Some role
      else first_account accounts' username password
  end.

Definition authenticate (username password : str) : option str :=
  first_account ACCOUNTS username password.

(** [require_auth]: an absent and an empty ["auth"] are both falsy. *)
Definition require_auth (s : session) : outcome (dict str) :=
  match dict_get (lit "auth") s with
  | Some (field :: auth) => Returned (field :: auth)
  | _ => Raised (HTTPException 401)
  end.

Definition require_write (auth : dict str) : outcome (dict str) :=
  if bool_decide (dict_get (lit "role") auth = Some (lit "write")) then Returned auth
  else Raised (HTTPException 403).

(** [Depends(require_write)], which itself depends on [require_auth]. *)
Definition depends_require_write (s : session) : outcome (dict str) :=
  match require_auth s with
  | Returned auth => require_write auth
  | Raised e => Raised e
  end.

(** The message of a refused login, with its two letters outside ASCII. *)
Definition invalid_login : str :=
  lit "Usuario o contrase" ++ [241%N] ++ lit "a inv" ++ [225%N] ++ lit "lidos".

Definition login_form (s : session) : response :=
  match dict_get (lit "auth") s with
  | Some (_ :: _) => RedirectResponse "/" 303
  | _ => TemplateResponse "login.html" [(lit "error", [])] 200
  end.

(** [login_submit]: the response and the session after it. *)
Definition login_submit (s : session) (username password : str) : response * session :=
  match authenticate (strip username) (strip password) with
  | Some (c :: role) =>
      (RedirectResponse "/" 303,
       dict_set (lit "auth") [(lit "user", strip username); (lit "role", c :: role)] s)
  | _ => (TemplateResponse "login.html" [(lit "error", invalid_login)] 400, s)
  end.

(** [logout]: [request.session.clear()]. *)
Definition logout (s : session) : response * session :=
  (RedirectResponse "/login" 303, []).

Definition home (s : session) : response :=
  match dict_get (lit "auth") s with
  | Some (field :: auth) =>
      TemplateResponse "index.html"
        [(lit "role", default (lit "read") (dict_get (lit "role") (field :: auth)));
         (lit "username", default [] (dict_get (lit "user") (field :: auth)))] 200
  | _ => RedirectResponse "/login" 303
  end.

End Auth.

End auth.

(** ** Module [tv], continued: marking a credential as handed out *)
Module tv_write.
Import py.

(** The calls that change the remote worksheet. *)
Inductive ws_call :=
| update_cell (row col : Z) (value : str)
| format (a1_range : str) (cell_format : ph.json).

(** The remote worksheet opened for writing.  What a call does may depend on
    the calls made before it, so each is given the list of those that
    returned: [_open_ws_rw()] raises or gives the worksheet, [col_values]
    raises or gives the cells of a column from the first row down, and a
    changing call raises or is carried out. *)
Class Worksheet := {
  _open_ws_rw : list ws_call -> outcome unit;
  col_values : list ws_call -> Z -> outcome (list str);
  perform : list ws_call -> ws_call -> outcome unit
}.

(** The module state: the state of [tv] above and the changing calls that
    returned, the earliest first. *)
Record world := {
  sheet : tv.world;
  written : list ws_call
}.

Definition M (A : Type) := world -> outcome A * world.

#[export] Instance M_ret : MRet M := fun A a w => (Returned a, w).
#[export] Instance M_bind : MBind M := fun A B k m w =>
  match m w with
  | (Returned a, w') => k a w'
  | (Raised e, w') => (Raised e, w')
  end.

Definition raise {A : Type} (e : exn) : M A := fun w => (Raised e, w).

(** What [marcar_registro_sheet] returns. *)
Record Marked := {
  ok : bool;
  row : Z;
  usuario : str;
  ida : str;
  nombre : str
}.

(** The text format of [ws.format]: a black foreground. *)
Definition black_text : ph.json :=
  ph.JDict [(lit "textFormat",
    ph.JDict [(lit "foregroundColor",
      ph.JDict [(lit "red", ph.JInt 0); (lit "green", ph.JInt 0);
                (lit "blue", ph.JInt 0)])])].

Section Marcar.
Context {U : Unicode} {Ws : Worksheet}.

Definition open_ws_rw : M unit := fun w => (_open_ws_rw (written w), w).

Definition read_col (col : Z) : M (list str) := fun w => (col_values (written w) col, w).

Definition call (c : ws_call) : M unit := fun w =>
  match perform (written w) c with
  | Returned _ => (Returned (), {| sheet := sheet w; written := written w ++ [c] |})
  | Raised e => (Raised e, w)
  end.

(** [_cache_clear()] on the state of [tv]. *)
Definition cache_clear : M unit := fun w =>
  (Returned (),
   {| sheet := {| tv.sheet_cache := tv._cache_clear (tv.sheet_cache (sheet w));
                  tv.clock_reads := tv.clock_reads (sheet w);
                  tv.sheet_reads := tv.sheet_reads (sheet w) |};
      written := written w |}).

(** The loop over [enumerate(col_usuario, start=1)]; [idx] is the number of
    the head of [col_usuario]. *)
Fixpoint find_row (usuario_norm : str) (idx : Z) (col_usuario : list str) : option Z :=
  match col_usuario with
  | [] => None
  | value :: rest =>
      if (idx =? 1)%Z then find_row usuario_norm (idx + 1) rest
      else if str_eqb (strip value) usuario_norm then Some idx
      else find_row usuario_norm (idx + 1) rest
  end.

(** [target_row] before the test [if not target_row]. *)
Definition target_row (usuario : str) (row_index : option Z) : M (option Z) :=
  let search :=
    col_usuario ← read_col 3;
    mret (find_row (strip usuario) 1 col_usuario) in
  match row_index with
  | Some r => if negb (r =? 0)%Z && (2 <=? r)%Z then mret (Some r) else search
  | None => search
  end.

(** The four changing calls for a row. *)
Definition marks (target_row : Z) (ida nombre : str) : list ws_call :=
  [ update_cell target_row 4 (lit "Mail");
    update_cell target_row 6 ida;
    update_cell target_row 7 nombre;
    format (lit "A" ++ str_of_Z target_row ++ lit ":J" ++ str_of_Z target_row) black_text ].

Definition marcar_registro_sheet (usuario ida nombre : str) (row_index : option Z)
  : M Marked :=
  _ ← open_ws_rw;
  target ← target_row usuario row_index;
  match target with
  | None => raise ValueError
  | Some r =>
      if (r =? 0)%Z then raise ValueError
      else
        _ ← call (update_cell r 4 (lit "Mail"));
        _ ← call (update_cell r 6 ida);
        _ ← call (update_cell r 7 nombre);
        _ ← call (format (lit "A" ++ str_of_Z r ++ lit ":J" ++ str_of_Z r) black_text);
        _ ← cache_clear;
        mret {| ok := true; row := r; usuario := usuario; ida := ida; nombre := nombre |}
  end.

End Marcar.

End tv_write.

(** ** Module [main], continued: the routes behind a session *)
Module routes.
Import py auth.

(** [MarcaPayload]. *)
Record MarcaPayload := {
  usuario : str;
  ida : str;
  nombre : str;
  row_index : option Z
}.

Section Routes.
Context {U : Unicode} {Acc : Accounts} {E : ph.Env} {A : main.App}
        {Ws : tv_write.Worksheet}.

(** [api_cliente] with its dependency [require_auth], which is resolved
    before the body runs. *)
Definition api_cliente (s : session) (ida : str) (w : main.world)
  : outcome (dict ph.scalar) * main.world :=
  match require_auth s with
  | Raised e => (Raised e, w)
  | Returned _ => main.api_cliente ida w
  end.

(** [api_marcar_registro] with its dependency [require_write]. *)
Definition api_marcar_registro (s : session) (payload : MarcaPayload)
  : tv_write.M tv_write.Marked := fun w =>
  match depends_require_write s with
  | Raised e => (Raised e, w)
  | Returned _ =>
      match main.tv with
      | None => (Raised (HTTPException 500), w)
      | Some _ =>
          match tv_write.marcar_registro_sheet (usuario payload) (ida payload)
                  (nombre payload) (row_index payload) w with
          | (Returned res, w') => (Returned res, w')
          | (Raised _, w') => (Raised (HTTPException 500), w')
          end
      end
  end.

End Routes.

End routes.

(** ** Vocabulary of the account properties *)
Module auth_spec.
Import py auth.

Section Accounts.
Context {Acc : Accounts}.

(** The credentials of the read account, which exists when neither part of
    them is empty; likewise for the write account. *)
Definition is_read (username password : str) : Prop :=
  username = READ_USERNAME /\ password = READ_PASSWORD
  /\ username ≠ [] /\ password ≠ [].

Definition is_write (username password : str) : Prop :=
  username = WRITE_USERNAME /\ password = WRITE_PASSWORD
  /\ username ≠ [] /\ password ≠ [].

End Accounts.

End auth_spec.

(** ** Vocabulary of the route properties *)
Module routes_spec.
Import py.

(** The keys that [api_cliente] adds to the record, in the order of its
    assignments; [fila_propuesta] comes after them when a credential is
    proposed. *)
Definition added_keys : list str :=
  [ lit "ya_tiene_usuario"; lit "abonado_sheet"; lit "usuario_sheet"; lit "cic_sheet";
    lit "AltaURL"; lit "UsuarioPropuesto"; lit "CICPropuesto" ].

End routes_spec.

(** ** Failures beyond those of [py.exn] *)
Module errors.
Import py.

(** A call that may raise [AttributeError] (a method looked up on a value
    that has none of that name) besides the exceptions of [exn]. *)
Inductive failure :=
| Exception (e : exn)
| AttributeError.

Inductive result (A : Type) :=
| Ok (a : A)
| Failed (f : failure).
Arguments Ok {A} a.
Arguments Failed {A} f.

End errors.

(** ** Module [ph], continued: the cached token *)
Module ph_token.
Import py ph errors.

(** The module variable [_TOKEN]. *)
Record token_state := {
  value : json;
  ts : Z
}.

Definition initial : token_state := {| value := JStr []; ts := 0 |}.

Section Token.
Context {E : Env}.

(** [_token].  [second] is the number of units of the clock in a second,
    [now] the reading of the clock and [reply] what the authentication
    request does if it is made: [SESSION.get], [raise_for_status] and
    [_json] raise, or the body parses to a value. *)
Definition _token (second : Z) (reply : outcome json) (now : Z) (st : token_state)
  : result json * token_state :=
  if negb (nonempty PH_URL && nonempty PH_USER && nonempty PH_PASS)
  then (Failed (Exception (RuntimeError "PH_URL/PH_USER/PH_PASS not configured in .env")), st)
  else if truthy (value st) && (now - ts st <? 12 * 60 * second)%Z
  then (Ok (value st), st)
  else
    match reply with
    | Raised e => (Failed (Exception e), st)
    | Returned data =>
        match py_or data (JDict []) with
        | JDict d =>
            let token := default (JStr []) (dict_get (lit "token") d) in
            if truthy token then (Ok token, {| value := token; ts := now |})
            else (Failed (Exception (RuntimeError "Phantom API returned an empty token")), st)
        | _ => (Failed AttributeError, st)
        end
    end.

End Token.

End ph_token.

(** ** Module [ph], continued: the fields of the normalised record *)
Module ph_fields.
Import py ph errors.

(** [str(v)] for the values on which [py_str] is silent: the text Python
    prints for a float and for a list or a dictionary.  It belongs to the
    runtime, so the model is parametric in it. *)
Class Repr := {
  repr : json -> str
}.

(** [x in p] for strings. *)
Fixpoint contains (x p : str) : bool :=
  startswith p x
  || match p with
     | [] => false
     | _ :: p' => contains x p'
     end.

(** [s.split(sep)] for a separator of one character. *)
Fixpoint split (sep : char) (s : str) : list str :=
  match s with
  | [] => [[]]
  | c :: s' =>
      if (c =? sep)%N then [] :: split sep s'
      else match split sep s' with
           | piece :: pieces => (c :: piece) :: pieces
           | [] => [[c]]
           end
  end.

(** [sep.join(pieces)]. *)
Fixpoint join (sep : str) (pieces : list str) : str :=
  match pieces with
  | [] => []
  | [piece] => piece
  | piece :: pieces' => piece ++ sep ++ join sep pieces'
  end.

(** [s.replace(old, new)] for a non-empty [old]: the occurrences of [old]
    are replaced from the left, without overlap.  [skip] counts the
    characters of an occurrence still to pass over. *)
Fixpoint replace_from (old new : str) (skip : nat) (s : str) : str :=
  match s with
  | [] => []
  | c :: s' =>
      match skip with
      | S skip' => replace_from old new skip' s'
      | 0 =>
          if startswith s old then new ++ replace_from old new (length old - 1) s'
          else c :: replace_from old new 0 s'
      end
  end.

Definition replace (old new : string) (s : str) : str :=
  replace_from (lit old) (lit new) 0 s.

(** *** The pattern [_EMAIL_RE]

    [[A-Z0-9._%+\-]+@[A-Z0-9.\-]+\.[A-Z]{2,}] under [re.I].  With that flag
    the class [[A-Z]] of a Unicode pattern holds the 52 ASCII letters and the
    four letters whose case folding is an ASCII letter: U+0130, U+0131,
    U+017F and U+212A. *)
Definition is_letter (c : char) : bool :=
  ((65 <=? c) && (c <=? 90) || (97 <=? c) && (c <=? 122)
   || (c =? 304) || (c =? 305) || (c =? 383) || (c =? 8490))%N.

Definition is_digit (c : char) : bool := ((48 <=? c) && (c <=? 57))%N.

(** [[A-Z0-9._%+\-]]. *)
Definition is_local (c : char) : bool :=
  is_letter c || is_digit c
  || (c =? 46)%N || (c =? 95)%N || (c =? 37)%N || (c =? 43)%N || (c =? 45)%N.

(** [[A-Z0-9.\-]]. *)
Definition is_domain (c : char) : bool :=
  is_letter c || is_digit c || (c =? 46)%N || (c =? 45)%N.

(** The longest prefix of characters of a class, and the rest. *)
Fixpoint span (cls : char -> bool) (s : str) : str * str :=
  match s with
  | c :: s' => if cls c then let '(run, rest) := span cls s' in (c :: run, rest)
               else ([], s)
  | [] => ([], [])
  end.

(** [[A-Z0-9.\-]+\.[A-Z]{2,}] at the head of [s], as the backtracking
    matcher finds it.  The first part takes the whole run of characters of
    its class and then gives characters back one at a time until what
    follows is a dot and two letters or more: the match ends after the
    letters that follow the last dot of the run that has a character of the
    run before it and two letters or more after it.  [domain_end run n] is
    the length of that match when [n] characters of the run are already
    passed, at least one of them. *)
Fixpoint domain_end (run : str) (n : nat) : option nat :=
  match run with
  | [] => None
  | c :: run' =>
      match domain_end run' (S n) with
      | Some stop => Some stop
      | None =>
          if (c =? 46)%N && (2 <=? length (span is_letter run').1)
          then Some (n + 1 + length (span is_letter run').1)
          else None
      end
  end.

Definition match_domain (s : str) : option str :=
  match (span is_domain s).1 with
  | [] => None
  | _ :: run' =>
      match domain_end run' 1 with
      | Some stop => Some (take stop s)
      | None => None
      end
  end.

(** The pattern at the head of [s]: the first part takes the whole run of
    its class, which the at sign must follow. *)
Definition match_here (s : str) : option str :=
  match span is_local s with
  | ((_ :: _) as user, 64%N :: rest) =>
      match match_domain rest with
      | Some domain => Some (user ++ [64%N] ++ domain)
      | None => None
      end
  | _ => None
  end.

(** [_EMAIL_RE.search(s)]: the match at the first position that has one;
    [match.group(0)]. *)
Fixpoint email_search (s : str) : option str :=
  match match_here s with
  | Some m => Some m
  | None =>
      match s with
      | [] => None
      | _ :: s' => email_search s'
      end
  end.

Section Fields.
Context {U : Unicode} {R : Repr}.

(** [str(v)], also the text an f-string gives for [v]. *)
Definition to_str (v : json) : str :=
  match py_str v with
  | Some s => s
  | None => repr v
  end.

(** [s.split()]: the maximal runs of characters that are not whitespace. *)
Definition words (s : str) : list str :=
  findall_runs (fun c => negb (isspace c)) [] s.

Definition _normalize_text (value : option str) : str :=
  match value with
  | None => []
  | Some value => upper (strip_marks value)
  end.

Definition _clean_email_text (value : json) : str :=
  if negb (truthy value) then []
  else
    let value := to_str value in
    let value :=
      replace " arroba " "@" (replace "(at)" "@" (replace "[at]" "@"
        (replace " at " "@" value))) in
    let value := replace "(dot)" "." (replace "[dot]" "." (replace " dot " "." value)) in
    replace "|" " " (replace ";" " " (replace "," " " value)).

Definition mail_keys : list string :=
  ["Email"; "email"; "Mail"; "MAIL"; "E-mail"; "UsuarioAutogestion";
   "Autogestion_User"]%string.

(** The list [candidates] of [extraer_mail]. *)
Definition mail_candidates (record : dict json) : list json :=
  let named :=
    omap (fun key => match dict_get (lit key) record with
                     | Some v => if truthy v then Some v else None
                     | None => None
                     end) mail_keys in
  match named with
  | [] => List.filter (fun v => match v with JStr _ => true | _ => false end)
            (dict_values record)
  | _ => named
  end.

(** The loop [for value in candidates]. *)
Fixpoint first_mail (candidates : list json) : str :=
  match candidates with
  | [] => []
  | value :: candidates' =>
      match email_search (_clean_email_text value) with
      | Some m => lower m
      | None => first_mail candidates'
      end
  end.

Definition extraer_mail (record : dict json) : str :=
  first_mail (mail_candidates record).

(** The dictionary that [_parse_product_flags] returns. *)
Record Flags := {
  flag_TV : bool;
  flag_HBO : bool;
  flag_Pack_Futbol : bool
}.

Definition _parse_product_flags (productos : str) : Flags :=
  let items := strip <$> List.filter (fun p => nonempty (strip p)) (split 59%N productos) in
  let normalized := (fun p => _normalize_text (Some p)) <$> items in
  {| flag_TV :=
       existsb (fun p => contains (lit "SERVICIO TV") p || contains (lit "BASICO") p
                          || contains (lit "BASIC") p) normalized;
     flag_HBO := existsb (fun p => contains (lit "HBO") p) normalized;
     flag_Pack_Futbol :=
       existsb (fun p => contains (lit "PACK FUTB") p || contains (lit "FUTBOL") p
                          || contains (lit "DEPORTIVO") p) normalized |}.

Definition _estado_code (value : str) : str :=
  let normalized := _normalize_text (Some value) in
  if startswith normalized (lit "ACT") then lit "activo"
  else if startswith normalized (lit "SUS") then lit "suspendido"
  else if startswith normalized (lit "BAJ") then lit "baja"
  else lit "desconocido".

(** [record.get(k, '')]. *)
Definition get_or_empty (k : string) (record : dict json) : json :=
  default (JStr []) (dict_get (lit k) record).

(** A method of [str] called on a value: [AttributeError] unless the value
    is a string. *)
Definition as_str (v : json) : result str :=
  match v with
  | JStr s => Ok s
  | _ => Failed AttributeError
  end.

Definition nombre_base (record : dict json) : json :=
  py_or (get "RS" record)
    (JStr (to_str (get_or_empty "Apellido" record) ++ lit " "
           ++ to_str (get_or_empty "Nombre" record))).

Definition nombre_limpio (record : dict json) : str :=
  join (lit " ") (words (replace "," " " (to_str (nombre_base record)))).

Definition dni (record : dict json) : json :=
  py_or (get "Documento" record) (py_or (get "CUIT" record) (JStr [])).

Definition iniciales (record : dict json) : str :=
  lower (concat (take 1 <$> List.filter nonempty (words (nombre_limpio record)))).

Definition transformar_desde_masiva (record : dict json) : result ClientRecord :=
  let mail := py_or (get "Email" record) (JStr (extraer_mail record)) in
  let contrasena := strip (iniciales record ++ to_str (dni record)) in
  match as_str (py_or (get "Television" record) (py_or (get "Productos" record) (JStr []))) with
  | Failed f => Failed f
  | Ok productos =>
      let flags := _parse_product_flags productos in
      match as_str (py_or (get "Estado" record) (py_or (get "estado" record) (JStr []))) with
      | Failed f => Failed f
      | Ok estado =>
          let estado_txt := strip estado in
          match as_str (py_or mail (JStr [])) with
          | Failed f => Failed f
          | Ok mail =>
              Ok {| ID := to_str (py_or (get "ID" record)
                                    (py_or (get "IDA" record) (JStr [])));
                    Nombre := nombre_limpio record;
                    DNI := to_str (dni record);
                    Mail := strip mail;
                    Contrasena := contrasena;
                    TV := flag_TV flags;
                    HBO := flag_HBO flags;
                    Pack_Futbol := flag_Pack_Futbol flags;
                    Estado := estado_txt;
                    EstadoCode := _estado_code estado_txt |}
          end
      end
  end.

End Fields.

End ph_fields.

(** ** Vocabulary of the field properties *)
Module fields_spec.
Import py ph ph_fields.

(** The language of the pattern [_EMAIL_RE]: one character or more of the
    first class, an at sign, one character or more of the second class, a
    dot, two letters or more. *)
Definition email_shaped (m : str) : Prop :=
  exists user domain tld,
    m = user ++ [64%N] ++ domain ++ [46%N] ++ tld
    /\ user ≠ [] /\ forallb is_local user = true
    /\ domain ≠ [] /\ forallb is_domain domain = true
    /\ 2 <= length tld /\ forallb is_letter tld = true.

(** [m] occurs in [s] after the characters [pre]. *)
Definition occurs_at (pre m s : str) : Prop :=
  exists post, s = pre ++ m ++ post.



End fields_spec.

(** ** The inputs of the examples, witnesses and counterexamples *)
Module examples.
Import py.

(** The names of the examples; 237 is the code point of i with acute. *)
Definition juan_garcia : str := lit "Juan Garc" ++ [237%N] ++ lit "a".
Definition garcia_juan : str := lit "GARCIA, Juan".
Definition juan_garcias : str := lit "Juan Garcias".

(** A sheet cache that lives 45, holding two entries written at time 0. *)
Definition sheet_cfg : tv.Config nat unit := tv.pure_config nat 45.
Definition two_entries : gmap str (Z * nat) :=
  <[lit "matrix" := (0%Z, 1)]> (<[lit "records" := (0%Z, 2)]> ∅).

(** A record cache of capacity 2 that lives 10, and a run on it. *)
Definition record_cfg : ph.Config nat unit := ph.pure_config nat 10 2.
Definition three_sets : list (@cache_spec.op nat) :=
  [ cache_spec.OpSet 0 (lit "1") 11; cache_spec.OpSet 1 (lit "2") 22;
    cache_spec.OpGet 2 (lit "1"); cache_spec.OpSet 3 (lit "3") 33 ].

(** Caches that are switched off. *)
Definition record_cfg_off : ph.Config nat unit := ph.pure_config nat 0 2.
Definition sheet_cfg_off : tv.Config nat unit := tv.pure_config nat (-1).

(** A dictionary with a nested list, in a store: [{"a": [1]}]. *)
Definition nested_store : heap.store :=
  [heap.OList [heap.VInt 1]; heap.ODict [(lit "a", heap.VRef 0)]].
Definition nested_structure : ph.json :=
  ph.JDict [(lit "a", ph.JList [ph.JInt 1])].

(** The record cache over the store: a set, a get, a mutation of the list
    nested in the value returned (an [append(2)]) and a second get. *)
Definition shared_cfg : ph.Config heap.value heap.store := heap.ph_config 180 64.
Definition after_set : outcome unit * ph.cache heap.value * heap.store :=
  @ph._cache_set _ _ shared_cfg 0 (lit "7") (heap.VRef 1) [] nested_store.
Definition first_get : outcome (option heap.value) * ph.cache heap.value * heap.store :=
  @ph._cache_get _ _ shared_cfg 1 (lit "7") after_set.1.2 after_set.2.
Definition mutated : heap.store :=
  <[0 := heap.OList [heap.VInt 1; heap.VInt 2]]> first_get.2.
Definition second_get : outcome (option heap.value) * ph.cache heap.value * heap.store :=
  @ph._cache_get _ _ shared_cfg 2 (lit "7") first_get.1.2 mutated.

(** A change of the dictionary returned itself that creates a list (the
    assignment [g["b"] = [3]]). *)
Definition extended : heap.store :=
  <[3 := heap.ODict [(lit "a", heap.VRef 0); (lit "b", heap.VRef 4)]]> first_get.2
  ++ [heap.OList [heap.VInt 3]].

(** The sheet cache over the same store: a set, a get, and a change of the
    value returned that reaches into it and creates a list (an [append(2)] to
    the list nested in it and the assignment [g["b"] = [3]]). *)
Definition copying_cfg : tv.Config heap.value heap.store := heap.tv_config 2 180.
Definition deep_set : outcome unit * gmap str (Z * heap.value) * heap.store :=
  @tv._cache_set _ _ copying_cfg 0 (lit "7") (heap.VRef 1) ∅ nested_store.
Definition deep_get : outcome (option heap.value) * gmap str (Z * heap.value) * heap.store :=
  @tv._cache_get _ _ copying_cfg 1 (lit "7") deep_set.1.2 deep_set.2.
Definition grown : heap.store :=
  <[4 := heap.OList [heap.VInt 1; heap.VInt 2]]>
    (<[5 := heap.ODict [(lit "a", heap.VRef 4); (lit "b", heap.VRef 6)]]> deep_get.2)
  ++ [heap.OList [heap.VInt 3]].
Definition grown_structure : ph.json :=
  ph.JDict [(lit "a", ph.JList [ph.JInt 1; ph.JInt 2]); (lit "b", ph.JList [ph.JInt 3])].

(** The sheet cache over the store, holding a grid of one row. *)
Definition deep_cfg : tv.Config heap.value heap.store := heap.tv_config 3 45.
Definition grid_store : heap.store :=
  [heap.OList [heap.VStr (lit "ID"); heap.VStr (lit "CIC")]; heap.OList [heap.VRef 0]].
Definition grid_structure : ph.json :=
  ph.JList [ph.JList [ph.JStr (lit "ID"); ph.JStr (lit "CIC")]].
Definition flat_store : heap.store :=
  [heap.ODict [(lit "ID", heap.VStr (lit "7")); (lit "TV", heap.VBool true)]].

(** A derivation of the fields that copies the identifier and the name. *)
Definition plain_fields (record : dict ph.json) : outcome ph.ClientRecord :=
  let text k := match ph.get k record with
                | ph.JStr s => s
                | ph.JInt z => str_of_Z z
                | _ => []
                end in
  Returned {| ph.ID := text "ID"; ph.Nombre := text "RS"; ph.DNI := text "Documento";
              ph.Mail := text "Email"; ph.Contrasena := [];
              ph.TV := false; ph.HBO := false; ph.Pack_Futbol := false;
              ph.Estado := text "Estado"; ph.EstadoCode := lit "desconocido" |}.

(** An upstream that answers every request with status 200 and an error
    envelope: [{"code": "401", "message": "Token invalido"}]. *)
Definition error_envelope : ph.json :=
  ph.JDict [(lit "code", ph.JStr (lit "401")); (lit "message", ph.JStr (lit "Token invalido"))].

Definition rejecting_upstream : ph.Env :=
  {| ph.PH_URL := lit "https://ph.example/api"; ph.PH_USER := lit "u"; ph.PH_PASS := lit "p";
     ph.authenticate := Returned (ph.JStr (lit "t0"));
     ph.session_request := fun _ => ph.Reply 200 (Some error_envelope);
     ph.derive_fields := plain_fields |}.

(** An upstream that answers the JSON post with status 200 and a body that
    is not JSON, and the other requests with the record of client 7. *)
Definition client_7 : ph.json :=
  ph.JList [ph.JDict [(lit "ID", ph.JInt 7); (lit "RS", ph.JStr (lit "PEREZ ANA"))]].

Definition garbled_upstream : ph.Env :=
  {| ph.PH_URL := lit "https://ph.example/api"; ph.PH_USER := lit "u"; ph.PH_PASS := lit "p";
     ph.authenticate := Returned (ph.JStr (lit "t0"));
     ph.session_request := fun r =>
       match ph.req_body r with
       | ph.JsonBody _ => ph.Reply 200 None
       | _ => ph.Reply 200 (Some client_7)
       end;
     ph.derive_fields := plain_fields |}.



(** The grids of the examples. *)
Definition s (text : string) : str := lit text.

Definition banner_grid : tv.grid :=
  [ [[]; []; []]; [s "Title"];
    [s "ID"; s "Name"; s "CIC"; s "Registrado"];
    [s "1"; s "Ana"; s "C1"; s "no"] ].

Definition credentials_grid : tv.grid :=
  [ [s "ID"; s "Usuario"; s "CIC"; s "Registrado"];
    [s "1"; s "u1"; s "c1"; s "si"];
    [s "2"; s "u2"; s "c2"; s "no"] ].

(** A header that already holds the name that disambiguation makes up. *)
Definition clash_grid : tv.grid :=
  [ [s "a"; s "a"; s "a_2"]; [s "1"; s "2"; s "3"] ].

(** A sheet whose first data row has a name without letters or digits. *)
Definition dashes_grid : tv.grid :=
  [ [s "Nombre"; s "Usuario"; s "CIC"; s "Abonado"];
    [s "---"; s "u1"; s "c1"; s "1001"];
    [s "Ana Perez"; s "u2"; s "c2"; s "1002"] ].

Definition dashes_sheet : tv.Sheet :=
  {| tv.SHEET_TTL := 45; tv.clock := fun n => Z.of_nat n;
     tv.get_all_values := fun _ => Returned dashes_grid |}.

Definition fresh_world : tv.world :=
  {| tv.sheet_cache := ∅; tv.clock_reads := 0; tv.sheet_reads := 0 |}.

(** The handler over the sheet of the example, with an upstream that knows
    client 7 under the name PEREZ ANA. *)
Definition known_upstream : ph.Env :=
  {| ph.PH_URL := lit "https://ph.example/api"; ph.PH_USER := lit "u"; ph.PH_PASS := lit "p";
     ph.authenticate := Returned (ph.JStr (lit "t0"));
     ph.session_request := fun _ => ph.Reply 200 (Some client_7);
     ph.derive_fields := plain_fields |}.

Definition handler : main.App :=
  {| main.tv := Some (@main.tv_module BasicLatin dashes_sheet);
     main.ALTA_URL := lit "https://alta.example";
     main.ph_clock := fun n => Z.of_nat n;
     main.PH_CACHE_TTL := 180; main.PH_CACHE_MAX := 64 |}.

Definition start : main.world :=
  {| main.ph_cache := []; main.ph_clock_reads := 0; main.sheet := fresh_world |}.

(** The request of client 7 to the handler in the state [start], and the
    rows of the sheet of the example. *)
Definition handled : outcome (dict ph.scalar) * main.world :=
  @main.api_cliente BasicLatin known_upstream handler (lit "7") start.

Definition loaded : outcome (list tv.record) * tv.world :=
  @tv.load_data_from_sheet BasicLatin dashes_sheet false fresh_world.

Definition clash_sheet : tv.Sheet :=
  {| tv.SHEET_TTL := 45; tv.clock := fun n => Z.of_nat n;
     tv.get_all_values := fun _ => Returned clash_grid |}.

End examples.

(** ** Further inputs of examples and witnesses *)
Module more_examples.
Import py.

(** A worksheet that opens, whose third column reads Usuario, u1, u2 (the
    last one padded with blanks), and that carries out every call. *)
Definition open_sheet : tv_write.Worksheet :=
  {| tv_write._open_ws_rw := fun _ => Returned ();
     tv_write.col_values := fun _ _ => Returned [lit "Usuario"; lit "u1"; lit " u2 "];
     tv_write.perform := fun _ _ => Returned () |}.

(** The state before any call: nothing cached, nothing written. *)
Definition idle : tv_write.world :=
  {| tv_write.sheet := examples.fresh_world; tv_write.written := [] |}.

(** Marking the credential u2 without a row number. *)
Definition marked_u2 : outcome tv_write.Marked * tv_write.world :=
  @tv_write.marcar_registro_sheet BasicLatin open_sheet
    (lit "u2") (lit "7") (lit "PEREZ ANA") None idle.

(** A record cache without a bound that lives 10. *)
Definition unbounded_cfg : ph.Config nat unit := ph.pure_config nat 10 0.

(** Two entries of a record cache, stored at times 4 and 15. *)
Definition two_records : ph.cache nat :=
  [(lit "7", (4%Z, 11)); (lit "8", (15%Z, 12))].

(** The lookup of client 7 on the empty cache at times 0 and 1, with the
    upstream that knows the client and with the one that rejects. *)
Definition fetched_7 : outcome (dict ph.scalar) * ph.cache (dict ph.scalar) * unit :=
  @ph.consultar_y_transformar_masiva examples.known_upstream _
    (ph.pure_config _ 180 64) 0 1 7 [] ().

Definition refused_7 : outcome (dict ph.scalar) * ph.cache (dict ph.scalar) * unit :=
  @ph.consultar_y_transformar_masiva examples.rejecting_upstream _
    (ph.pure_config _ 180 64) 0 1 7 [] ().

(** A forced load of the sheet of the example. *)
Definition reloaded : outcome (list tv.record) * tv.world :=
  @tv.load_data_from_sheet BasicLatin examples.dashes_sheet true examples.fresh_world.

(** The text of floats and containers is not needed in the examples. *)
Definition no_repr : ph_fields.Repr := {| ph_fields.repr := fun _ => [] |}.

(** A record whose name is written with a comma and spare blanks. *)
Definition perez_ana : dict ph.json :=
  [(lit "ID", ph.JInt 7); (lit "RS", ph.JStr (lit " PEREZ,  Ana "))].

(** An upstream that answers every request with status 200 and an envelope
    that holds no record: [{"code": "200", "data": []}]. *)
Definition empty_envelope : dict ph.json :=
  [(lit "code", ph.JStr (lit "200")); (lit "data", ph.JList [])].

Definition empty_upstream : ph.Env :=
  {| ph.PH_URL := lit "https://ph.example/api"; ph.PH_USER := lit "u"; ph.PH_PASS := lit "p";
     ph.authenticate := Returned (ph.JStr (lit "t0"));
     ph.session_request := fun _ => ph.Reply 200 (Some (ph.JDict empty_envelope));
     ph.derive_fields := examples.plain_fields |}.

(** The handler over the grid of credentials, which has no column of names:
    no row matches and the credential u2 of row 3 is proposed. *)
Definition credentials_sheet : tv.Sheet :=
  {| tv.SHEET_TTL := 45; tv.clock := fun n => Z.of_nat n;
     tv.get_all_values := fun _ => Returned examples.credentials_grid |}.

Definition proposing_handler : main.App :=
  {| main.tv := Some (@main.tv_module BasicLatin credentials_sheet);
     main.ALTA_URL := lit "https://alta.example";
     main.ph_clock := fun n => Z.of_nat n;
     main.PH_CACHE_TTL := 180; main.PH_CACHE_MAX := 64 |}.

Definition proposed_7 : outcome (dict ph.scalar) * main.world :=
  @main.api_cliente BasicLatin examples.known_upstream proposing_handler
    (lit "7") examples.start.

End more_examples.

(** * Part II: verification *)

(** ** Counters and name signatures *)
Module signature_facts.
Import py examples.

Abbreviation occ l k := (count_occ str_eq_dec l k).

Lemma count_insert_eq (c : Counter) (k : str) (n : nat) :
  count (<[k := n]> c) k = n.
Proof. unfold count. by rewrite lookup_insert_eq. Qed.

Lemma count_insert_ne (c : Counter) (k k' : str) (n : nat) :
  k ≠ k' -> count (<[k := n]> c) k' = count c k'.
Proof. intros. unfold count. by rewrite lookup_insert_ne. Qed.

(** Counting adds the occurrences in the list to the counts so far. *)
Lemma count_foldl (l : list str) (c : Counter) (k : str) :
  count (foldl (fun c t => <[t := S (count c t)]> c) c l) k = (count c k + occ l k)%nat.
Proof.
  revert c. induction l as [|t l IH]; intros c; simpl.
  - unfold occ. simpl. lia.
  - rewrite IH. unfold occ. simpl.
    destruct (str_eq_dec t k) as [->|Hne].
    + rewrite count_insert_eq. lia.
    + rewrite count_insert_ne by done. lia.
Qed.

Lemma count_Counter_of (l : list str) (k : str) :
  count (Counter_of l) k = occ l k.
Proof. unfold Counter_of. rewrite count_foldl. unfold count. by rewrite lookup_empty. Qed.

(** A key the map does not hold counts zero, so comparing the counts of the
    keys held by either side compares all counts. *)
Lemma Counter_eqb_counts (c1 c2 : Counter) :
  Counter_eqb c1 c2 = true <-> forall k, count c1 k = count c2 k.
Proof.
  unfold Counter_eqb. rewrite forallb_forall. split.
  - intros Hall k.
    destruct (c1 !! k) as [n1|] eqn:E1.
    + apply Nat.eqb_eq, Hall, in_app_iff. left.
      apply list_elem_of_In, list_elem_of_fmap. exists (k, n1). split; [done|].
      by apply elem_of_map_to_list.
    + destruct (c2 !! k) as [n2|] eqn:E2.
      * apply Nat.eqb_eq, Hall, in_app_iff. right.
        apply list_elem_of_In, list_elem_of_fmap. exists (k, n2). split; [done|].
        by apply elem_of_map_to_list.
      * unfold count. by rewrite E1, E2.
  - intros Hk k _. by apply Nat.eqb_eq.
Qed.

Lemma Counter_of_eqb_perm (l1 l2 : list str) :
  Counter_eqb (Counter_of l1) (Counter_of l2) = true <-> l1 ≡ₚ l2.
Proof.
  rewrite Counter_eqb_counts.
  rewrite (Permutation_count_occ str_eq_dec).
  split; intros Hk k; specialize (Hk k); by rewrite !count_Counter_of in *.
Qed.

(** C2. The signatures of two names are equal exactly when their token
    lists, the runs of [A-Z0-9] of the upper-cased name without its combining
    marks, are equal as multisets (one is a permutation of the other), for
    whatever the Unicode tables are; with the Latin-1 tables "Juan García"
    and "GARCIA, Juan" have equal signatures and "Juan García" and
    "Juan Garcias" do not. *)
Theorem C2_signature_equality :
  (forall (U : Unicode) (a b : str),
      Counter_eqb (tv._name_signature a) (tv._name_signature b) = true
      <-> tv.name_tokens a ≡ₚ tv.name_tokens b)
  /\ Counter_eqb (tv._name_signature juan_garcia) (tv._name_signature garcia_juan) = true
  /\ Counter_eqb (tv._name_signature juan_garcia) (tv._name_signature juan_garcias) = false.
Proof.
  split; [|split].
  - intros U a b. apply Counter_of_eqb_perm.
  - vm_compute. reflexivity.
  - vm_compute. reflexivity.
Qed.

End signature_facts.

(** ** The two caches *)
Module cache_facts.
Import py cache_spec examples.

(** *** Dictionaries *)
Section DictFacts.
Context {V : Type}.
Implicit Types (d : dict V) (k : str) (v : V).

Lemma dict_get_set_eq k v d : dict_get k (dict_set k v d) = Some v.
Proof.
  induction d as [|[k' v'] d IH]; simpl.
  - by rewrite decide_True.
  - destruct (decide (k = k')) as [->|Hne]; simpl.
    + by rewrite decide_True.
    + by rewrite decide_False.
Qed.

Lemma dict_pop_set k v d : dict_pop k (dict_set k v d) = dict_pop k d.
Proof.
  unfold dict_pop. induction d as [|[k' v'] d IH]; simpl.
  - by rewrite bool_decide_eq_true_2.
  - destruct (decide (k = k')) as [->|Hne]; simpl.
    + by rewrite !bool_decide_eq_true_2.
    + rewrite IH. done.
Qed.

Lemma move_to_end_set k v d :
  move_to_end k (dict_set k v d) = dict_pop k d ++ [(k, v)].
Proof. unfold move_to_end. by rewrite dict_get_set_eq, dict_pop_set. Qed.

Lemma dict_get_Some_elem k v d : dict_get k d = Some v -> (k, v) ∈ d.
Proof.
  induction d as [|[k' v'] d IH]; simpl; [done|].
  destruct (decide (k = k')) as [->|Hne].
  - intros [= ->]. left.
  - intros. right. auto.
Qed.

Lemma dict_pop_subseteq k d : dict_pop k d ⊆ d.
Proof. intros e. unfold dict_pop. rewrite !list_elem_of_In, filter_In. tauto. Qed.

Lemma dict_pop_keys k d e : e ∈ dict_pop k d -> e.1 ≠ k.
Proof.
  unfold dict_pop. rewrite list_elem_of_In, filter_In. intros [_ Hk].
  apply negb_true_iff, bool_decide_eq_false in Hk. done.
Qed.

Lemma dict_pop_length k d : length (dict_pop k d) <= length d.
Proof. apply List.filter_length_le. Qed.

Lemma dict_get_set_ne k k' v d : k ≠ k' -> dict_get k' (dict_set k v d) = dict_get k' d.
Proof.
  intros Hne. induction d as [|[k0 v0] d IH]; simpl.
  - by rewrite decide_False.
  - destruct (decide (k = k0)) as [->|Hne0]; simpl.
    + by rewrite !decide_False.
    + by rewrite IH.
Qed.

Lemma dict_pop_shorter k v d :
  dict_get k d = Some v -> S (length (dict_pop k d)) <= length d.
Proof.
  unfold dict_pop. induction d as [|[k' v'] d IH]; simpl; [done|].
  destruct (decide (k = k')) as [->|Hne].
  - intros _. rewrite bool_decide_eq_true_2 by done. simpl.
    pose proof (List.filter_length_le (fun e : str * V => negb (bool_decide (e.1 = k'))) d).
    lia.
  - intros Hget. rewrite bool_decide_eq_false_2 by (simpl; congruence). simpl.
    specialize (IH Hget). lia.
Qed.

End DictFacts.

(** *** The record cache of [ph] *)
Section RecordCache.
Context {V H : Type} {C : ph.Config V H}.
Implicit Types (c : ph.cache V) (hist : list str) (k key : str).

Lemma purge_enabled now c :
  (0 < ph.CACHE_TTL)%Z ->
  ph._purge_expired now c = List.filter (fun e => negb (ph.expired now e)) c.
Proof.
  intros Httl. unfold ph._purge_expired.
  destruct (Z.leb_spec ph.CACHE_TTL 0); [lia|done].
Qed.

Lemma purge_length now c : length (ph._purge_expired now c) <= length c.
Proof.
  unfold ph._purge_expired. destruct (ph.CACHE_TTL <=? 0)%Z; simpl; [lia|].
  apply List.filter_length_le.
Qed.

Lemma purge_all_fresh now c : all_fresh now (ph._purge_expired now c).
Proof.
  unfold ph._purge_expired, all_fresh. destruct (ph.CACHE_TTL <=? 0)%Z; [constructor|].
  apply Forall_forall. intros e. rewrite list_elem_of_In, filter_In.
  intros [_ Hf]. apply negb_true_iff in Hf. unfold ph.expired in Hf.
  apply Z.ltb_ge in Hf. done.
Qed.

Lemma stored_eq now key v c :
  ph.stored now key v c = dict_pop key c ++ [(key, (now, v))].
Proof. apply move_to_end_set. Qed.

Lemma move_to_end_eq key x c :
  dict_get key c = Some x -> move_to_end key c = dict_pop key c ++ [(key, x)].
Proof. intros Hget. unfold move_to_end. by rewrite Hget. Qed.

(** What the loop of [_cache_set] pops and what it leaves. *)
Lemma popitems_split c : c = (ph.popitems c).1 ++ (ph.popitems c).2.
Proof.
  induction c as [|e c IH]; [done|]. simpl.
  destruct (_ && _); [|done].
  destruct (ph.popitems c) as [popped rest]. simpl in *. by f_equal.
Qed.

Lemma popitems_bound c :
  (0 < ph.CACHE_MAX)%Z -> (Z.of_nat (length (ph.popitems c).2) <= ph.CACHE_MAX)%Z.
Proof.
  intros Hmax. induction c as [|e c IH]; simpl; [lia|].
  destruct (Z.ltb_spec ph.CACHE_MAX (Z.of_nat (S (length c)))) as [Hlt|Hge];
    destruct (Z.ltb_spec 0 ph.CACHE_MAX); try lia; simpl.
  - destruct (ph.popitems c) as [popped rest]. done.
  - simpl. lia.
Qed.

Lemma popitems_popped c :
  (Z.of_nat (length c) <= ph.CACHE_MAX + 1)%Z -> length (ph.popitems c).1 <= 1.
Proof.
  destruct c as [|e c]; cbn [ph.popitems]; [simpl; lia|]. intros Hlen.
  destruct (_ && _); [|simpl; lia].
  destruct c as [|e' c]; cbn [ph.popitems]; [simpl; lia|].
  cbn [length] in *.
  destruct (Z.ltb_spec ph.CACHE_MAX (Z.of_nat (S (length c)))) as [Hlt|Hge]; [lia|].
  simpl. lia.
Qed.

(** Ages after a touch of [k]. *)
Lemma age_touched k hist : age (k :: hist) k = 0.
Proof. simpl. by rewrite decide_True. Qed.

Lemma age_other k k' hist : k' ≠ k -> age (k :: hist) k' = S (age hist k').
Proof. intros. simpl. by rewrite decide_False. Qed.

Lemma by_recency_filter (p : str * (Z * V) -> bool) hist c :
  by_recency hist c -> by_recency hist (List.filter p c).
Proof.
  unfold by_recency. induction 1 as [|e c Hs IH Hall]; simpl; [constructor|].
  destruct (p e); [|done]. constructor; [done|].
  apply Forall_forall. intros e'. rewrite list_elem_of_In, filter_In.
  intros [Hin _]. rewrite Forall_forall in Hall. apply Hall. by apply list_elem_of_In.
Qed.

Lemma by_recency_purge now hist c :
  by_recency hist c -> by_recency hist (ph._purge_expired now c).
Proof.
  intros Hs. unfold ph._purge_expired. destruct (ph.CACHE_TTL <=? 0)%Z.
  - constructor.
  - by apply by_recency_filter.
Qed.

(** Touching [k] moves it behind all other entries and keeps their order. *)
Lemma by_recency_touch k x hist c :
  by_recency hist c -> by_recency (k :: hist) (dict_pop k c ++ [(k, x)]).
Proof.
  intros Hs. apply StronglySorted_app. split; [|split].
  - intros e1 e2 He1 He2. apply list_elem_of_singleton in He2 as ->.
    simpl fst. rewrite age_touched, age_other by (by eapply dict_pop_keys). lia.
  - assert (Hpop : by_recency hist (dict_pop k c)) by (by apply by_recency_filter).
    assert (Hkeys : Forall (fun e => e.1 ≠ k) (dict_pop k c)).
    { apply Forall_forall. intros e. apply dict_pop_keys. }
    revert Hpop Hkeys. generalize (dict_pop k c). unfold by_recency.
    induction 1 as [|e l Hs' IH Hall]; intros Hkeys; [constructor|].
    apply Forall_cons in Hkeys as [He Hkeys]. constructor; [auto|].
    rewrite Forall_forall in Hall, Hkeys. apply Forall_forall. intros e' He'.
    rewrite !age_other by auto. specialize (Hall _ He'). lia.
  - repeat constructor.
Qed.

Lemma touched_in_history k x hist c :
  Forall (fun e => e.1 ∈ hist) c ->
  Forall (fun e => e.1 ∈ k :: hist) (dict_pop k c ++ [(k, x)]).
Proof.
  intros Hall. apply Forall_app. split.
  - apply Forall_forall. intros e He. right.
    rewrite Forall_forall in Hall. by apply Hall, (dict_pop_subseteq k).
  - repeat constructor.
Qed.

Lemma purge_invariant now hist c :
  lru_invariant hist c -> lru_invariant hist (ph._purge_expired now c).
Proof.
  intros (Hs & Hh & Hl). split; [|split].
  - by apply by_recency_purge.
  - unfold ph._purge_expired. destruct (ph.CACHE_TTL <=? 0)%Z; [constructor|].
    apply Forall_forall. intros e. rewrite list_elem_of_In, filter_In. intros [Hin _].
    rewrite Forall_forall in Hh. by apply Hh, list_elem_of_In.
  - pose proof (purge_length now c). lia.
Qed.

(** The cache after an insertion, before the eviction. *)
Lemma stored_sorted now key v hist c :
  lru_invariant hist c ->
  by_recency (key :: hist) (ph.stored now key v c)
  /\ Forall (fun e => e.1 ∈ key :: hist) (ph.stored now key v c)
  /\ (Z.of_nat (length (ph.stored now key v c)) <= ph.CACHE_MAX + 1)%Z.
Proof.
  intros (Hs & Hh & Hl). rewrite stored_eq. split; [|split].
  - by apply by_recency_touch.
  - by apply touched_in_history.
  - rewrite length_app. simpl. pose proof (dict_pop_length key c). lia.
Qed.

Lemma step_invariant (o : op) c (h : H) hist :
  (0 < ph.CACHE_MAX)%Z -> (0 < ph.CACHE_TTL)%Z ->
  lru_invariant hist c ->
  lru_invariant (step (c, h, hist) o).2 (step (c, h, hist) o).1.1.
Proof.
  intros Hmax Httl Hinv.
  assert (Hon : (ph.CACHE_TTL <=? 0)%Z = false) by (apply Z.leb_gt; lia).
  pose proof (purge_invariant) as Hpurge.
  destruct o as [now key|now key value]; simpl.
  - unfold ph._cache_get, dict_mem. rewrite Hon.
    specialize (Hpurge now _ _ Hinv).
    destruct (dict_get key (ph._purge_expired now c)) as [[ts data]|] eqn:Hget.
    + assert (Hmoved : lru_invariant (key :: hist)
                (move_to_end key (ph._purge_expired now c))).
      { rewrite (move_to_end_eq _ _ _ Hget). destruct Hpurge as (Hs & Hh & Hl).
        split; [|split].
        - by apply by_recency_touch.
        - by apply touched_in_history.
        - rewrite length_app. simpl. pose proof (dict_pop_shorter _ _ _ Hget). lia. }
      by destruct (ph.dict_copy h data) as [[v h']|e].
    + done.
  - unfold ph._cache_set. rewrite Hon.
    specialize (Hpurge now _ _ Hinv).
    destruct (ph.dict_copy h value) as [[v h']|e]; simpl; [|done].
    destruct (stored_sorted now key v _ _ Hpurge) as (Hs & Hh & Hl).
    rewrite (popitems_split (ph.stored now key v (ph._purge_expired now c))) in Hs, Hh.
    split; [|split].
    + by apply StronglySorted_app_1_r in Hs.
    + by apply Forall_app in Hh as [_ Hh].
    + by apply popitems_bound.
Qed.

Lemma run_invariant (ops : list op) (st : ph.cache V * H * list str) :
  (0 < ph.CACHE_MAX)%Z -> (0 < ph.CACHE_TTL)%Z ->
  lru_invariant st.2 st.1.1 ->
  lru_invariant (run ops st).2 (run ops st).1.1.
Proof.
  intros Hmax Httl. revert st.
  induction ops as [|o ops IH]; intros [[c h] hist] Hinv; [done|].
  change (run (o :: ops) (c, h, hist)) with (run ops (step (c, h, hist) o)).
  apply IH. by apply step_invariant.
Qed.

(** C3. With a positive capacity and a positive time to live, after any
    sequence of gets and sets on an empty cache the cache holds at most
    [CACHE_MAX] entries, each under a key touched before; and a set that
    stores a value then evicts at most one entry, leaves at most [CACHE_MAX],
    and every entry it evicts was touched longer ago (by a get that hit or by
    a set) than every entry it keeps. *)
Theorem C3_bounded_lru (ops : list op) (h0 : H) :
  (0 < ph.CACHE_MAX)%Z -> (0 < ph.CACHE_TTL)%Z ->
  let '(c, h, hist) := run ops ([], h0, []) in
  (Z.of_nat (length c) <= ph.CACHE_MAX)%Z
  /\ Forall (fun e => e.1 ∈ hist) c
  /\ forall now key value v h',
       ph.dict_copy h value = Returned (v, h') ->
       let c' := (ph._cache_set now key value c h).1.2 in
       ph.stored now key v (ph._purge_expired now c) = evicted now key v c ++ c'
       /\ (Z.of_nat (length c') <= ph.CACHE_MAX)%Z
       /\ length (evicted now key v c) <= 1
       /\ forall e e', e ∈ evicted now key v c -> e' ∈ c' ->
            age (key :: hist) e'.1 < age (key :: hist) e.1.
Proof.
  intros Hmax Httl.
  assert (Hinit : lru_invariant [] ([] : ph.cache V)).
  { split; [constructor|split; [constructor|simpl; lia]]. }
  pose proof (run_invariant ops ([], h0, []) Hmax Httl Hinit) as Hinv.
  revert Hinv. destruct (run ops ([], h0, [])) as [[c h] hist]. cbv beta iota.
  intros (Hs & Hh & Hl). cbn [fst snd] in Hs, Hh, Hl. split; [done|]. split; [done|].
  intros now key value v h' Hcopy c'.
  assert (Hc' : c' = (ph.popitems (ph.stored now key v (ph._purge_expired now c))).2).
  { subst c'. unfold ph._cache_set.
    destruct (Z.leb_spec ph.CACHE_TTL 0); [lia|]. by rewrite Hcopy. }
  destruct (stored_sorted now key v hist (ph._purge_expired now c)) as (Hs' & Hh' & Hl').
  { by apply purge_invariant. }
  rewrite Hc'. unfold evicted. split; [apply popitems_split|]. split; [by apply popitems_bound|].
  split; [by apply popitems_popped|].
  intros e e' He He'.
  rewrite (popitems_split (ph.stored now key v (ph._purge_expired now c))) in Hs'.
  apply (StronglySorted_app_1_elem_of _ _ _ _ _ Hs' He He').
Qed.

(** *** The disabled caches *)

(** C4. With a time to live of zero or less a get returns nothing and a set
    stores nothing: both leave the cache and the store as they were, in the
    record cache of [ph] and in the sheet cache of [tv]. *)
Theorem C4_disabled_cache {W G : Type} {D : tv.Config W G}
    (now : Z) (key : str) (value : V) (c : ph.cache V) (h : H)
    (sheet_value : W) (sc : gmap str (Z * W)) (g : G) :
  (ph.CACHE_TTL <= 0)%Z -> (tv.SHEET_CACHE_TTL <= 0)%Z ->
  ph._cache_get now key c h = (Returned None, c, h)
  /\ ph._cache_set now key value c h = (Returned (), c, h)
  /\ tv._cache_get now key sc g = (Returned None, sc, g)
  /\ tv._cache_set now key sheet_value sc g = (Returned (), sc, g).
Proof.
  intros Hph Htv.
  unfold ph._cache_get, ph._cache_set, tv._cache_get, tv._cache_set.
  destruct (Z.leb_spec ph.CACHE_TTL 0); [|lia].
  destruct (Z.leb_spec tv.SHEET_CACHE_TTL 0); [|lia]. done.
Qed.

(** *** What holds of every entry is kept by the operations *)
Section Entries.
Context (P : str * (Z * V) -> Prop).

Lemma Forall_purge now c : Forall P c -> Forall P (ph._purge_expired now c).
Proof.
  intros Hall. unfold ph._purge_expired. destruct (ph.CACHE_TTL <=? 0)%Z; [constructor|].
  apply Forall_forall. intros e. rewrite list_elem_of_In, filter_In. intros [Hin _].
  rewrite Forall_forall in Hall. by apply Hall, list_elem_of_In.
Qed.

Lemma Forall_touch key x c : Forall P c -> P (key, x) -> Forall P (dict_pop key c ++ [(key, x)]).
Proof.
  intros Hall Hx. apply Forall_app. split; [|by repeat constructor].
  apply Forall_forall. intros e He. rewrite Forall_forall in Hall.
  by apply Hall, (dict_pop_subseteq key).
Qed.

Lemma Forall_move key c : Forall P c -> Forall P (move_to_end key c).
Proof.
  intros Hall. unfold move_to_end. destruct (dict_get key c) as [x|] eqn:Hget; [|done].
  apply Forall_touch; [done|]. rewrite Forall_forall in Hall.
  by apply Hall, dict_get_Some_elem.
Qed.

Lemma Forall_popitems c : Forall P c -> Forall P (ph.popitems c).2.
Proof.
  intros Hall. rewrite (popitems_split c) in Hall. by apply Forall_app in Hall as [_ Hall].
Qed.

Lemma Forall_get now key c h : Forall P c -> Forall P (ph._cache_get now key c h).1.2.
Proof.
  intros Hall. unfold ph._cache_get. destruct (ph.CACHE_TTL <=? 0)%Z; [done|].
  pose proof (Forall_purge now c Hall) as Hp.
  destruct (dict_get key (ph._purge_expired now c)) as [[ts data]|]; [|done].
  pose proof (Forall_move key _ Hp).
  by destruct (ph.dict_copy h data) as [[v h']|e].
Qed.

Lemma Forall_set now key value c h :
  Forall P c -> (forall v h', ph.dict_copy h value = Returned (v, h') -> P (key, (now, v))) ->
  Forall P (ph._cache_set now key value c h).1.2.
Proof.
  intros Hall Hv. unfold ph._cache_set. destruct (ph.CACHE_TTL <=? 0)%Z; [done|].
  pose proof (Forall_purge now c Hall) as Hp.
  destruct (ph.dict_copy h value) as [[v h']|e]; [|done]. simpl.
  apply Forall_popitems. rewrite stored_eq. apply Forall_touch; [done|]. by eapply Hv.
Qed.

End Entries.

(** A get that returns a value returns a copy of an entry of the cache. *)
Lemma get_hit now key c h v c' h' :
  ph._cache_get now key c h = (Returned (Some v), c', h') ->
  exists ts data, (key, (ts, data)) ∈ ph._purge_expired now c
                  /\ ph.dict_copy h data = Returned (v, h').
Proof.
  unfold ph._cache_get. destruct (ph.CACHE_TTL <=? 0)%Z; [done|].
  destruct (dict_get key (ph._purge_expired now c)) as [[ts data]|] eqn:Hget; [|done].
  destruct (ph.dict_copy h data) as [[v0 h0]|e] eqn:Hcopy; [|done].
  intros [= <- <- <-]. exists ts, data. split; [|done]. by apply dict_get_Some_elem.
Qed.

(** *** Expiry *)

Lemma all_fresh_touch now key x c :
  all_fresh now c -> (now - x.1 <= ph.CACHE_TTL)%Z ->
  all_fresh now (dict_pop key c ++ [(key, x)]).
Proof.
  unfold all_fresh. intros Hall Hx. apply Forall_app. split.
  - apply Forall_forall. intros e He. rewrite Forall_forall in Hall.
    by apply Hall, (dict_pop_subseteq key).
  - by repeat constructor.
Qed.

Lemma get_all_fresh now key c h :
  (0 < ph.CACHE_TTL)%Z -> all_fresh now (ph._cache_get now key c h).1.2.
Proof.
  intros Httl. unfold ph._cache_get.
  destruct (Z.leb_spec ph.CACHE_TTL 0); [lia|].
  pose proof (purge_all_fresh now c) as Hp.
  destruct (dict_get key (ph._purge_expired now c)) as [[ts data]|] eqn:Hget; [|done].
  assert (Hm : all_fresh now (move_to_end key (ph._purge_expired now c))).
  { rewrite (move_to_end_eq _ _ _ Hget). apply all_fresh_touch; [done|].
    apply dict_get_Some_elem in Hget. unfold all_fresh in Hp.
    rewrite Forall_forall in Hp. apply (Hp _ Hget). }
  by destruct (ph.dict_copy h data) as [[v h']|e].
Qed.

Lemma set_all_fresh now key value c h :
  (0 < ph.CACHE_TTL)%Z -> all_fresh now (ph._cache_set now key value c h).1.2.
Proof.
  intros Httl. unfold ph._cache_set.
  destruct (Z.leb_spec ph.CACHE_TTL 0); [lia|].
  pose proof (purge_all_fresh now c) as Hp.
  destruct (ph.dict_copy h value) as [[v h']|e]; [|done]. simpl.
  assert (Hs : all_fresh now (ph.stored now key v (ph._purge_expired now c))).
  { rewrite stored_eq. apply all_fresh_touch; [done|]. simpl. lia. }
  rewrite (popitems_split (ph.stored now key v (ph._purge_expired now c))) in Hs.
  by apply Forall_app in Hs as [_ Hs].
Qed.

(** C5, amended. In the record cache of [ph], switched on or, when switched
    off, empty as it then always is, no stored entry is older than the time to
    live after a get or a set.  In the sheet cache of [tv] a get returns no
    value older than the time to live and removes the entry it finds too old,
    and neither a get nor a set changes what is stored under the other keys. *)
Theorem C5_lazy_expiry {W G : Type} {D : tv.Config W G}
    (now : Z) (key : str) (value : V) (c : ph.cache V) (h : H)
    (sheet_value : W) (sc : gmap str (Z * W)) (g : G) :
  (0 < ph.CACHE_TTL)%Z \/ c = [] ->
  all_fresh now (ph._cache_get now key c h).1.2
  /\ all_fresh now (ph._cache_set now key value c h).1.2
  /\ (forall v, (tv._cache_get now key sc g).1.1 = Returned (Some v) ->
        exists ts v0, sc !! key = Some (ts, v0) /\ (now - ts <= tv.SHEET_CACHE_TTL)%Z)
  /\ (forall ts v0, (0 < tv.SHEET_CACHE_TTL)%Z -> sc !! key = Some (ts, v0) ->
        (tv.SHEET_CACHE_TTL < now - ts)%Z ->
        (tv._cache_get now key sc g).1.2 !! key = None)
  /\ (forall k, k ≠ key ->
        (tv._cache_get now key sc g).1.2 !! k = sc !! k
        /\ (tv._cache_set now key sheet_value sc g).1.2 !! k = sc !! k).
Proof.
  intros Hph.
  assert (Hfresh : all_fresh now (ph._cache_get now key c h).1.2
                   /\ all_fresh now (ph._cache_set now key value c h).1.2).
  { destruct (Z.leb_spec ph.CACHE_TTL 0) as [Hoff|Hon].
    - destruct Hph as [Hon| ->]; [lia|].
      unfold ph._cache_get, ph._cache_set.
      destruct (Z.leb_spec ph.CACHE_TTL 0); [|lia]. split; constructor.
    - split; [by apply get_all_fresh|by apply set_all_fresh]. }
  destruct Hfresh as [Hget Hset]. split; [done|]. split; [done|]. clear Hget Hset.
  unfold tv._cache_get, tv._cache_set.
  destruct (Z.leb_spec tv.SHEET_CACHE_TTL 0) as [Hoff|Hon].
  - split; [intros v [=]|]. split; [intros; lia|]. done.
  - destruct (sc !! key) as [[ts v0]|] eqn:Hget.
    + destruct (Z.ltb_spec tv.SHEET_CACHE_TTL (now - ts)) as [Hold|Hyoung].
      * split; [intros v [=]|]. split.
        { intros. simpl. by rewrite lookup_delete_eq. }
        intros k Hk. split; [simpl; by rewrite lookup_delete_ne|].
        destruct (tv.deepcopy g sheet_value) as [[v' g']|e]; simpl; [|done].
        by rewrite lookup_insert_ne.
      * split; [intros v _; by exists ts, v0|].
        split; [intros ts' v0' _ [= <- <-]; lia|].
        intros k Hk. split.
        { by destruct (tv.deepcopy g v0) as [[v' g']|e]. }
        destruct (tv.deepcopy g sheet_value) as [[v' g']|e]; simpl; [|done].
        by rewrite lookup_insert_ne.
    + split; [intros v [=]|]. split; [intros ts v0 _ [=]|].
      intros k Hk. split; [done|].
      destruct (tv.deepcopy g sheet_value) as [[v' g']|e]; simpl; [|done].
      by rewrite lookup_insert_ne.
Qed.

End RecordCache.

(** C5, the sheet cache as the specification has it: an entry older than
    the time to live is still stored after a get of another key.  The cache
    holds two entries written at time 0, lives 45, and is read at time 100. *)
Lemma C5_sheet_cache_keeps_expired :
  (@tv._cache_get nat unit sheet_cfg 100 (lit "matrix") two_entries ()).1.2 !! lit "records" = Some (0%Z, 2)
  /\ ~ sheet_all_fresh 45 100 (@tv._cache_get nat unit sheet_cfg 100 (lit "matrix") two_entries ()).1.2.
Proof.
  assert (Hrec : (@tv._cache_get nat unit sheet_cfg 100 (lit "matrix") two_entries ()).1.2 !! lit "records"
                 = Some (0%Z, 2)) by (vm_compute; reflexivity).
  split; [done|]. intros Hall. specialize (Hall _ _ _ Hrec). lia.
Qed.


End cache_facts.

(** ** Copies handed out by the caches *)
Module copy_facts.
Import py heap heap_spec examples.

(** Reading a structure only looks at the objects of the store it was read
    in. *)
Lemma reify_agree (depth : nat) (h h' : store) (v : value) (j : ph.json) :
  reify depth h v = Some j ->
  (forall l, l < length h -> h' !! l = h !! l) ->
  reify depth h' v = Some j.
Proof.
  intros Hr Hagree. revert v j Hr.
  induction depth as [|d IH]; intros v j Hr; destruct v; try done.
  simpl in *. destruct (h !! l) as [o|] eqn:Hl; [|done].
  rewrite Hagree, Hl by (by eapply lookup_lt_Some).
  assert (Hitems : forall items js, mapM (reify d h) items = Some js ->
                                    mapM (reify d h') items = Some js).
  { intros items js. rewrite !mapM_Some. intros HF.
    eapply Forall2_impl; [exact HF|]. auto. }
  destruct o as [items|items].
  - destruct (mapM (reify d h) items) as [js|] eqn:Hm; [|done].
    by rewrite (Hitems _ _ Hm).
  - destruct (mapM (reify d h) (dict_values items)) as [js|] eqn:Hm; [|done].
    by rewrite (Hitems _ _ Hm).
Qed.

Lemma reify_extend (depth : nat) (h ext : store) (v : value) (j : ph.json) :
  reify depth h v = Some j -> reify depth (h ++ ext) v = Some j.
Proof.
  intros Hr. apply (reify_agree _ _ _ _ _ Hr). intros l Hl. by apply lookup_app_l.
Qed.

Lemma mapM_reify_extend (depth : nat) (h ext : store) (items : list value) (js : list ph.json) :
  mapM (reify depth h) items = Some js ->
  mapM (reify depth (h ++ ext)) items = Some js.
Proof.
  rewrite !mapM_Some. intros HF. eapply Forall2_impl; [exact HF|].
  intros. by apply reify_extend.
Qed.

Lemma above_le (n m : nat) (v : value) : n <= m -> above m v -> above n v.
Proof. destruct v; simpl; auto. lia. Qed.

Lemma closed_above_le (n m : nat) (objects : list object) :
  n <= m -> closed_above m objects -> closed_above n objects.
Proof.
  intros Hle. unfold closed_above. intros Hc.
  eapply Forall_impl; [exact Hc|]. intros o Ho. simpl in Ho.
  eapply Forall_impl; [exact Ho|]. intros v. by apply above_le.
Qed.

Lemma children_rebuild (o : object) (items : list value) :
  length items = length (children o) -> children (rebuild o items) = items.
Proof.
  destruct o as [xs|kvs]; simpl; [done|]. intros Hlen.
  unfold dict_values, dict_keys in *. apply snd_zip. rewrite !length_fmap in *. lia.
Qed.

(** The structure of a rebuilt object, from the structures of its items. *)
Lemma reify_rebuild (d : nat) (h : store) (l : loc) (o : object)
    (items : list value) (js : list ph.json) (j : ph.json) :
  length items = length (children o) ->
  h !! l = Some (rebuild o items) ->
  mapM (reify d h) items = Some js ->
  match o with
  | OList _ => ph.JList js
  | ODict kvs => ph.JDict (zip (dict_keys kvs) js)
  end = j ->
  reify (S d) h (VRef l) = Some j.
Proof.
  intros Hlen Hl Hm <-. simpl. rewrite Hl.
  destruct o as [xs|kvs]; simpl in *.
  - by rewrite Hm.
  - assert (Hk : dict_keys (zip (dict_keys kvs) items) = dict_keys kvs).
    { unfold dict_keys, dict_values in *. apply fst_zip. rewrite !length_fmap in *. lia. }
    assert (Hv : dict_values (zip (dict_keys kvs) items) = items).
    { unfold dict_keys, dict_values in *. apply snd_zip. rewrite !length_fmap in *. lia. }
    by rewrite Hk, Hv, Hm.
Qed.

(** The copy of a number, a string or [None] is the value itself. *)
Ltac copy_of_atom :=
  match goal with
  | Hr : reify _ ?h ?v = Some _ |- _ =>
      exists v, []; rewrite app_nil_r; simpl in *;
      repeat split; first [done | constructor]
  end.

(** A deep copy of a value that has a structure within the recursion limit
    succeeds, only adds objects to the store, has the same structure, and
    consists of new objects only. *)
Lemma deepcopy_spec (depth : nat) (h : store) (v : value) (j : ph.json) :
  reify depth h v = Some j ->
  exists v' ext,
    deepcopy depth h v = Returned (v', h ++ ext)
    /\ reify depth (h ++ ext) v' = Some j
    /\ above (length h) v'
    /\ closed_above (length h) ext.
Proof.
  revert h v j. induction depth as [|d IH]; intros h v j Hr.
  { destruct v; try done; copy_of_atom. }
  destruct v; try (by copy_of_atom).
  simpl in Hr. destruct (h !! l) as [o|] eqn:Hl; [|done].
  assert (Hitems : forall items h js,
    mapM (reify d h) items = Some js ->
    exists items' ext,
      copy_items (deepcopy d) h items = Returned (items', h ++ ext)
      /\ mapM (reify d (h ++ ext)) items' = Some js
      /\ Forall (above (length h)) items'
      /\ closed_above (length h) ext
      /\ length items' = length items).
  { clear h l o Hl Hr. induction items as [|x items IHi]; intros h js Hm.
    - exists [], []. simpl in *. rewrite app_nil_r. injection Hm as <-.
      repeat split; constructor.
    - simpl in Hm. destruct (reify d h x) as [jx|] eqn:Hx; [|done]. simpl in Hm.
      destruct (mapM (reify d h) items) as [js'|] eqn:Hm'; [|done].
      simpl in Hm. injection Hm as <-.
      destruct (IH _ _ _ Hx) as (x' & ext1 & Hc1 & Hr1 & Ha1 & Hcl1).
      assert (Hm1 : mapM (reify d (h ++ ext1)) items = Some js')
        by (by apply mapM_reify_extend).
      destruct (IHi _ _ Hm1) as (items' & ext2 & Hc2 & Hr2 & Ha2 & Hcl2 & Hlen).
      exists (x' :: items'), (ext1 ++ ext2). simpl. rewrite Hc1, Hc2.
      rewrite length_app in Ha2, Hcl2. rewrite !app_assoc. repeat split.
      + simpl. rewrite <- app_assoc in Hr2 |- *.
        rewrite app_assoc. rewrite (reify_extend _ _ ext2 _ _ Hr1). simpl.
        rewrite <- app_assoc. by rewrite Hr2.
      + constructor; [done|]. eapply Forall_impl; [exact Ha2|].
        intros v. apply above_le. lia.
      + apply Forall_app. split; [done|]. eapply closed_above_le; [|exact Hcl2]. lia.
      + simpl. by rewrite Hlen. }
  assert (Hkids : exists js, mapM (reify d h) (children o) = Some js
            /\ match o with
               | OList _ => ph.JList js
               | ODict kvs => ph.JDict (zip (dict_keys kvs) js)
               end = j).
  { destruct o as [xs|kvs]; simpl in *.
    - destruct (mapM (reify d h) xs) as [js|]; [|done]. exists js. split; [done|].
      by injection Hr.
    - destruct (mapM (reify d h) (dict_values kvs)) as [js|]; [|done]. exists js.
      split; [done|]. by injection Hr. }
  destruct Hkids as (js & Hm & Hj).
  destruct (Hitems _ _ _ Hm) as (items' & ext & Hc & Hr' & Ha & Hcl & Hlen).
  exists (VRef (length (h ++ ext))), (ext ++ [rebuild o items']).
  simpl. rewrite Hl, Hc, app_assoc. repeat split.
  - eapply reify_rebuild; [exact Hlen| |by apply mapM_reify_extend|exact Hj].
    by apply list_lookup_middle.
  - rewrite length_app. lia.
  - apply Forall_app. split; [done|]. constructor; [|constructor].
    by rewrite children_rebuild.
Qed.

(** The objects of a value that does not refer below [n], in a store whose
    objects from [n] on do not either, are all at [n] or later. *)
Lemma reachable_above (n : nat) (h : store) (v : value) (l : loc) :
  above n v ->
  (forall l' o, n <= l' -> h !! l' = Some o -> Forall (above n) (children o)) ->
  reachable h v l -> n <= l.
Proof.
  intros Ha Hcl Hr. induction Hr as [l|l0 o x l' Hl Hx Hr IH]; [exact Ha|].
  apply IH. specialize (Hcl _ _ Ha Hl). rewrite Forall_forall in Hcl. auto.
Qed.

Lemma closed_region (h ext : store) (l : loc) (o : object) :
  closed_above (length h) ext ->
  length h <= l -> (h ++ ext) !! l = Some o ->
  Forall (above (length h)) (children o).
Proof.
  intros Hcl Hle Hl. rewrite lookup_app_r in Hl by done.
  apply list_elem_of_lookup_2 in Hl. unfold closed_above in Hcl.
  rewrite Forall_forall in Hcl. auto.
Qed.

(** **** The sheet cache: deep copies *)
Lemma sheet_cache_copies (d : nat) (ttl : Z) (sc : gmap str (Z * value)) (key : str)
    (h0 : store) (v : value) (j : ph.json) (now now1 now2 : Z) :
  (0 < ttl)%Z -> reify d h0 v = Some j ->
  (now1 - now <= ttl)%Z -> (now2 - now <= ttl)%Z ->
  exists sv h1,
    @tv._cache_set _ _ (tv_config d ttl) now key v sc h0
      = (Returned (), <[key := (now, sv)]> sc, h1)
    /\ exists v1 h2,
         @tv._cache_get _ _ (tv_config d ttl) now1 key (<[key := (now, sv)]> sc) h1
           = (Returned (Some v1), <[key := (now, sv)]> sc, h2)
         /\ reify d h2 v1 = Some j
         /\ (forall l, reachable h2 v1 l -> length h1 <= l)
         /\ forall h3, mutation_of h2 v1 h3 ->
              exists v2 h4,
                @tv._cache_get _ _ (tv_config d ttl) now2 key (<[key := (now, sv)]> sc) h3
                  = (Returned (Some v2), <[key := (now, sv)]> sc, h4)
                /\ reify d h4 v2 = Some j.
Proof.
  intros Httl Hv Hnow1 Hnow2.
  destruct (deepcopy_spec _ _ _ _ Hv) as (sv & ext0 & Hc0 & Hr0 & _ & _).
  exists sv, (h0 ++ ext0). unfold tv._cache_set, tv._cache_get. simpl.
  destruct (Z.leb_spec ttl 0); [lia|]. rewrite Hc0. split; [done|].
  rewrite lookup_insert_eq.
  destruct (Z.ltb_spec ttl (now1 - now)); [lia|].
  destruct (Z.ltb_spec ttl (now2 - now)); [lia|].
  destruct (deepcopy_spec _ _ _ _ Hr0) as (v1 & ext1 & Hc1 & Hr1 & Ha1 & Hcl1).
  exists v1, ((h0 ++ ext0) ++ ext1). rewrite Hc1. split; [done|]. split; [done|].
  assert (Hfresh : forall l, reachable ((h0 ++ ext0) ++ ext1) v1 l -> length (h0 ++ ext0) <= l).
  { intros l. apply reachable_above; [done|]. intros l' o. by apply closed_region. }
  split; [done|]. intros h3 Hmut.
  assert (Hr3 : reify d h3 sv = Some j).
  { apply (reify_agree _ _ _ _ _ Hr0). intros l Hl. rewrite Hmut.
    - by apply lookup_app_l.
    - rewrite length_app. lia.
    - intros Hreach. apply Hfresh in Hreach. lia. }
  destruct (deepcopy_spec _ _ _ _ Hr3) as (v2 & ext2 & Hc2 & Hr2 & _ & _).
  exists v2, (h3 ++ ext2). by rewrite Hc2.
Qed.

(** **** The record cache: copies of the dictionary itself *)
Section EndsWith.
Context {V H : Type} {C : ph.Config V H}.
Implicit Types (d : ph.cache V) (x : Z * V).

Lemma ends_with_stored now key v d : ends_with key (now, v) (ph.stored now key v d).
Proof.
  exists (dict_pop key d). split; [apply cache_facts.stored_eq|].
  apply Forall_forall. intros e. apply cache_facts.dict_pop_keys.
Qed.

Lemma ends_with_popitems key x d :
  ends_with key x d -> ends_with key x (ph.popitems d).2.
Proof.
  intros (d0 & -> & Hd0). induction d0 as [|e d0 IH]; simpl.
  - destruct (Z.ltb_spec ph.CACHE_MAX (Z.of_nat 1)), (Z.ltb_spec 0 ph.CACHE_MAX);
      try lia; simpl; (exists []; split; [done|constructor]).
  - apply Forall_cons in Hd0 as [He Hd0].
    destruct (_ && _).
    + specialize (IH Hd0). by destruct (ph.popitems (d0 ++ [(key, x)])).
    + simpl. exists (e :: d0). split; [done|]. by constructor.
Qed.

Lemma ends_with_purge now key x d :
  (0 < ph.CACHE_TTL)%Z -> (now - x.1 <= ph.CACHE_TTL)%Z ->
  ends_with key x d -> ends_with key x (ph._purge_expired now d).
Proof.
  intros Httl Hx (d0 & -> & Hd0). rewrite cache_facts.purge_enabled by done.
  rewrite List.filter_app. simpl.
  replace (ph.expired now (key, x)) with false
    by (symmetry; unfold ph.expired; simpl; apply Z.ltb_ge; lia).
  simpl. eexists. split; [done|].
  apply Forall_forall. intros e. rewrite list_elem_of_In, filter_In. intros [Hin _].
  rewrite Forall_forall in Hd0. by apply Hd0, list_elem_of_In.
Qed.

Lemma ends_with_get key x d : ends_with key x d -> dict_get key d = Some x.
Proof.
  intros (d0 & -> & Hd0). induction d0 as [|[k y] d0 IH]; simpl.
  - by rewrite decide_True.
  - apply Forall_cons in Hd0 as [He Hd0]. simpl in He.
    rewrite decide_False by done. auto.
Qed.

Lemma ends_with_move key x d : ends_with key x d -> move_to_end key d = d.
Proof.
  intros Hd. unfold move_to_end. rewrite (ends_with_get _ _ _ Hd).
  destruct Hd as (d0 & -> & Hd0). f_equal. unfold dict_pop.
  rewrite List.filter_app. simpl. rewrite bool_decide_eq_true_2 by done. simpl.
  rewrite app_nil_r. apply forallb_filter_id, forallb_forall. intros e He.
  rewrite Forall_forall in Hd0. apply negb_true_iff, bool_decide_eq_false.
  by apply Hd0, list_elem_of_In.
Qed.

End EndsWith.

Lemma record_cache_copies (ttl max : Z) (c : ph.cache value) (key : str)
    (h0 : store) (l : loc) (items : dict value) (now now1 now2 : Z) :
  (0 < ttl)%Z -> h0 !! l = Some (ODict items) ->
  (now1 - now <= ttl)%Z -> (now2 - now <= ttl)%Z ->
  exists c1 h1,
    @ph._cache_set _ _ (ph_config ttl max) now key (VRef l) c h0 = (Returned (), c1, h1)
    /\ exists l1 c2 h2,
         @ph._cache_get _ _ (ph_config ttl max) now1 key c1 h1
           = (Returned (Some (VRef l1)), c2, h2)
         /\ h2 !! l1 = Some (ODict items)
         /\ length h1 <= l1
         /\ (forall d j, reify d h0 (VRef l) = Some j -> reify d h2 (VRef l1) = Some j)
         /\ (forallb is_atom (dict_values items) = true ->
               forall l', reachable h2 (VRef l1) l' -> l' = l1)
         /\ forall h3, mutation_at h2 l1 h3 ->
              exists l2 c3 h4,
                @ph._cache_get _ _ (ph_config ttl max) now2 key c2 h3
                  = (Returned (Some (VRef l2)), c3, h4)
                /\ h4 !! l2 = Some (ODict items).
Proof.
  intros Httl Hl Hnow1 Hnow2.
  set (cfg := ph_config ttl max).
  set (sv := VRef (length h0)).
  set (h1 := h0 ++ [ODict items]).
  set (c1 := (@ph.popitems _ _ cfg
                (ph.stored now key sv (@ph._purge_expired _ _ cfg now c))).2).
  assert (Hc1 : ends_with key (now, sv) c1).
  { apply (@ends_with_popitems _ _ cfg), ends_with_stored. }
  assert (Hsv : forall h, h1 `prefix_of` h \/ (forall l', l' < length h1 -> h !! l' = h1 !! l') ->
                          h !! length h0 = Some (ODict items)).
  { intros h [[ext ->]|Hag].
    - rewrite lookup_app_l by (subst h1; rewrite length_app; simpl; lia).
      subst h1. by apply list_lookup_middle.
    - rewrite Hag by (subst h1; rewrite length_app; simpl; lia).
      subst h1. by apply list_lookup_middle. }
  exists c1, h1. split.
  { unfold ph._cache_set. simpl. destruct (Z.leb_spec ttl 0); [lia|]. by rewrite Hl. }
  assert (Hget : forall now' h, (now' - now <= ttl)%Z -> forall c', ends_with key (now, sv) c' ->
            h !! length h0 = Some (ODict items) ->
            @ph._cache_get _ _ cfg now' key c' h
              = (Returned (Some (VRef (length h))), @ph._purge_expired _ _ cfg now' c',
                 h ++ [ODict items])
            /\ ends_with key (now, sv) (@ph._purge_expired _ _ cfg now' c')).
  { intros now' h Hnow' c' Hc' Hh.
    assert (Hp : ends_with key (now, sv) (@ph._purge_expired _ _ cfg now' c')).
    { by apply (@ends_with_purge _ _ cfg). }
    split; [|done]. unfold ph._cache_get. simpl.
    destruct (Z.leb_spec ttl 0); [lia|].
    rewrite (ends_with_get _ _ _ Hp), (ends_with_move _ _ _ Hp). simpl. by rewrite Hh. }
  destruct (Hget now1 h1 Hnow1 c1 Hc1) as [Hg1 Hc2]; [apply Hsv; by left|].
  exists (length h1), (@ph._purge_expired _ _ cfg now1 c1), (h1 ++ [ODict items]).
  split; [done|]. split; [by apply list_lookup_middle|]. split; [done|]. split; [|split].
  - intros [|d] j Hr; [done|]. simpl in Hr |- *. rewrite Hl in Hr.
    rewrite list_lookup_middle by done.
    destruct (mapM (reify d h0) (dict_values items)) as [js|] eqn:Hm; [|done].
    subst h1. rewrite <- app_assoc.
    by rewrite (mapM_reify_extend _ _ _ _ _ Hm).
  - intros Hflat l' Hreach. inversion Hreach as [|l0 o x l'' Ho Hx Hrx]; subst; [done|].
    rewrite list_lookup_middle in Ho by done. injection Ho as <-. simpl in Hx.
    rewrite forallb_forall in Hflat. apply list_elem_of_In, Hflat in Hx.
    destruct x; try done; inversion Hrx.
  - intros h3 Hmut.
    destruct (Hget now2 h3 Hnow2 _ Hc2) as [Hg2 _].
    { apply Hsv. right. intros l' Hl'. rewrite Hmut.
      - by apply lookup_app_l.
      - rewrite length_app. lia.
      - lia. }
    eexists _, _, _. split; [exact Hg2|]. by apply list_lookup_middle.
Qed.

(** C6, the record cache as the specification has it: the value returned shares
    its nested list with the entry stored, so appending to that list through
    the value returned changes what the next get returns.  The value stored
    is [{"a": [1]}]; the second get returns [{"a": [1, 2]}]. *)
Lemma C6_record_cache_shares_nested :
  reify 2 nested_store (VRef 1) = Some nested_structure
  /\ first_get.1.1 = Returned (Some (VRef 3))
  /\ reify 2 first_get.2 (VRef 3) = Some nested_structure
  /\ reachable first_get.2 (VRef 3) 0
  /\ mutation_of first_get.2 (VRef 3) mutated
  /\ second_get.1.1 = Returned (Some (VRef 4))
  /\ reify 2 second_get.2 (VRef 4)
       = Some (ph.JDict [(lit "a", ph.JList [ph.JInt 1; ph.JInt 2])])
  /\ reify 2 second_get.2 (VRef 4) ≠ Some nested_structure.
Proof.
  assert (Hreach : reachable first_get.2 (VRef 3) 0).
  { eapply (reach_child _ 3 (ODict [(lit "a", VRef 0)]) (VRef 0)).
    - vm_compute. reflexivity.
    - simpl. left.
    - constructor. }
  repeat split; try (vm_compute; reflexivity); try done.
  intros l _ Hl. unfold mutated. apply list_lookup_insert_ne.
  intros <-. by apply Hl.
Qed.

(** C6, amended. Within the time to live, a get that follows a set returns a
    copy of the value set.  In the sheet cache of [tv] the copy is deep: for a
    value with a structure within the recursion limit it has that structure,
    all its objects are new, and whatever is done to them, objects created
    and put in them included, the next get returns the structure again.  In
    the record cache of [ph] the copy is a new dictionary with the items of
    the dictionary set, hence of the same structure: whatever is done to that
    dictionary itself, objects created and put in it included, the next get
    returns the same items, and when the items are numbers, strings or [None]
    the dictionary is the only object the copy gives access to; objects
    nested in the items are shared. *)
Theorem C6_cache_copies (d : nat) (ttl max : Z) (key : str) (now now1 now2 : Z)
    (h0 : store) (sc : gmap str (Z * value)) (c : ph.cache value)
    (v : value) (j : ph.json) (l : loc) (items : dict value) :
  (0 < ttl)%Z -> (now1 - now <= ttl)%Z -> (now2 - now <= ttl)%Z ->
  reify d h0 v = Some j -> h0 !! l = Some (ODict items) ->
  (exists sv h1,
    @tv._cache_set _ _ (tv_config d ttl) now key v sc h0
      = (Returned (), <[key := (now, sv)]> sc, h1)
    /\ exists v1 h2,
         @tv._cache_get _ _ (tv_config d ttl) now1 key (<[key := (now, sv)]> sc) h1
           = (Returned (Some v1), <[key := (now, sv)]> sc, h2)
         /\ reify d h2 v1 = Some j
         /\ (forall l, reachable h2 v1 l -> length h1 <= l)
         /\ forall h3, mutation_of h2 v1 h3 ->
              exists v2 h4,
                @tv._cache_get _ _ (tv_config d ttl) now2 key (<[key := (now, sv)]> sc) h3
                  = (Returned (Some v2), <[key := (now, sv)]> sc, h4)
                /\ reify d h4 v2 = Some j)
  /\ (exists c1 h1,
    @ph._cache_set _ _ (ph_config ttl max) now key (VRef l) c h0 = (Returned (), c1, h1)
    /\ exists l1 c2 h2,
         @ph._cache_get _ _ (ph_config ttl max) now1 key c1 h1
           = (Returned (Some (VRef l1)), c2, h2)
         /\ h2 !! l1 = Some (ODict items)
         /\ length h1 <= l1
         /\ (forall d j, reify d h0 (VRef l) = Some j -> reify d h2 (VRef l1) = Some j)
         /\ (forallb is_atom (dict_values items) = true ->
               forall l', reachable h2 (VRef l1) l' -> l' = l1)
         /\ forall h3, mutation_at h2 l1 h3 ->
              exists l2 c3 h4,
                @ph._cache_get _ _ (ph_config ttl max) now2 key c2 h3
                  = (Returned (Some (VRef l2)), c3, h4)
                /\ h4 !! l2 = Some (ODict items)).
Proof.
  intros Httl Hnow1 Hnow2 Hv Hl. split.
  - by apply sheet_cache_copies.
  - by apply record_cache_copies.
Qed.

End copy_facts.

(** ** The upstream lookup *)
Module fetch_facts.
Import py ph fetch_spec examples.

Section Fetch.
Context {E : Env}.








End Fetch.


(** The other difference: after a status 200 whose body is not JSON the code
    goes on to the next variant, where the specification stops. *)
Lemma unparsed_200_goes_on :
  @_req_masiva garbled_upstream [] = Returned (Some client_7)
  /\ @claimed_data garbled_upstream [] = None.
Proof. split; vm_compute; reflexivity. Qed.

End fetch_facts.

(** ** The sheet *)
Module sheet_facts.
Import py tv tv_spec examples.

(** *** Searching the first element *)
Section FirstIndex.
Context {A : Type} (p : A -> bool).

Lemma first_index_here (x : A) (l : list A) : p x = true -> first_index p (x :: l) 0.
Proof. intros Hp. exists x. repeat split; [done|]. intros k' x' Hk. lia. Qed.

Lemma first_index_later (x : A) (l : list A) (k : nat) :
  p x = false -> first_index p (x :: l) k <-> exists k', k = S k' /\ first_index p l k'.
Proof.
  intros Hp. split.
  - intros (y & Hl & Hy & Hmin). destruct k as [|k'].
    + simpl in Hl. injection Hl as <-. congruence.
    + exists k'. split; [done|]. exists y. repeat split; [done..|].
      intros k'' x' Hk Hx'. apply (Hmin (S k'')); [lia|done].
  - intros (k' & -> & y & Hl & Hy & Hmin). exists y. repeat split; [done..|].
    intros [|k''] x' Hk Hx'.
    + simpl in Hx'. by injection Hx' as <-.
    + apply (Hmin k''); [lia|done].
Qed.

Lemma first_index_unique (l : list A) (k k' : nat) :
  first_index p l k -> first_index p l k' -> k = k'.
Proof.
  intros (x & Hx & Hpx & Hmin) (x' & Hx' & Hpx' & Hmin').
  destruct (Nat.lt_trichotomy k k') as [Hlt|[Heq|Hgt]]; [|done|].
  - specialize (Hmin' _ _ Hlt Hx). congruence.
  - specialize (Hmin _ _ Hgt Hx'). congruence.
Qed.

Lemma first_index_none (l : list A) (k : nat) :
  Forall (fun x => p x = false) l -> ~ first_index p l k.
Proof.
  intros Hall (x & Hx & Hpx & _). rewrite Forall_forall in Hall.
  apply list_elem_of_lookup_2, Hall in Hx. congruence.
Qed.

End FirstIndex.

Section Sheet.
Context {U : Unicode}.

Lemma index_where_first (p : str -> bool) (index : nat) (headers : list str) :
  match index_where p index headers with
  | Some n => exists k, n = index + k /\ first_index p headers k
  | None => Forall (fun header => p header = false) headers
  end.
Proof.
  revert index. induction headers as [|header headers IH]; intros index; simpl; [done|].
  destruct (p header) eqn:Hp.
  - exists 0. split; [lia|]. by apply first_index_here.
  - specialize (IH (S index)). destruct (index_where p (S index) headers) as [n|].
    + destruct IH as (k & -> & Hk). exists (S k). split; [lia|].
      apply first_index_later; [done|]. by exists k.
    + by constructor.
Qed.

(** [find_col_idx] locates a column: first by equal keys, then by prefix. *)
Lemma find_col_idx_located (headers : list str) (name : string) :
  match find_col_idx headers name with
  | Some idx => located headers name idx
  | None => forall idx, ~ located headers name idx
  end.
Proof.
  unfold find_col_idx, located.
  pose proof (index_where_first
    (fun header => str_eqb (_normkey header) (_normkey (lit name))) 0 headers) as Hexact.
  destruct (index_where _ 0 headers) as [n|].
  - destruct Hexact as (k & -> & Hk). by left.
  - pose proof (index_where_first
      (fun header => startswith (_normkey header) (_normkey (lit name))) 0 headers) as Hprefix.
    destruct (index_where _ 0 headers) as [n|].
    + destruct Hprefix as (k & -> & Hk). right. by split.
    + intros idx [Hidx|[_ Hidx]].
      * by apply (first_index_none _ _ _ Hexact) in Hidx.
      * by apply (first_index_none _ _ _ Hprefix) in Hidx.
Qed.

Lemma located_unique (headers : list str) (name : string) (idx idx' : nat) :
  located headers name idx -> located headers name idx' -> idx = idx'.
Proof.
  intros [H1|[Hn1 H1]] [H2|[Hn2 H2]].
  - by eapply first_index_unique.
  - by apply (first_index_none _ _ _ Hn2) in H1.
  - by apply (first_index_none _ _ _ Hn1) in H2.
  - by eapply first_index_unique.
Qed.

Lemma find_col_idx_Some (headers : list str) (name : string) (idx : nat) :
  located headers name idx -> find_col_idx headers name = Some idx.
Proof.
  intros Hloc. pose proof (find_col_idx_located headers name) as Hfind.
  destruct (find_col_idx headers name) as [idx'|].
  - f_equal. by eapply located_unique.
  - by apply Hfind in Hloc.
Qed.

(** The loop over the data rows returns the first available row. *)
Lemma scan_rows_first (idx_cic idx_user idx_reg row_index : nat) (rows : grid) :
  match scan_rows idx_cic idx_user idx_reg row_index rows with
  | Some d =>
      exists k r,
        first_index (available idx_cic idx_user idx_reg) rows k
        /\ rows !! k = Some r
        /\ d = {| disp_usuario := strip (cell_at r idx_user);
                  disp_cic := strip (cell_at r idx_cic);
                  tv.row_index := row_index + k + 1 |}
  | None => Forall (fun r => available idx_cic idx_user idx_reg r = false) rows
  end.
Proof.
  revert row_index. induction rows as [|r rows IH]; intros row_index; simpl; [done|].
  fold (available idx_cic idx_user idx_reg r).
  destruct (available idx_cic idx_user idx_reg r) eqn:Hr.
  - exists 0, r. split; [by apply first_index_here|]. split; [done|].
    by rewrite Nat.add_0_r.
  - specialize (IH (S row_index)).
    destruct (scan_rows idx_cic idx_user idx_reg (S row_index) rows) as [d|].
    + destruct IH as (k & r' & Hk & Hr' & ->). exists (S k), r'.
      split; [apply first_index_later; [done|]; by exists k|]. split; [done|].
      do 2 f_equal. lia.
    + by constructor.
Qed.

(** The matrix that both [load_data_from_sheet] and
    [obtener_usuario_cic_disponible] work on: the cached one or a fetched one. *)
Lemma cache_set_returns {Sh : Sheet} (key : string) (v : sheet_value) (w : world) :
  (cache_set key v w).1 = Returned ().
Proof.
  unfold cache_set, _cache_set. simpl. by destruct (SHEET_TTL <=? 0)%Z.
Qed.

Lemma obtener_first_available {Sh : Sheet} (w : world) :
  obtener_usuario_cic_disponible w
  = match (cached_matrix ≫= matrix_or_fetch) w with
    | (Returned values, w') => (Returned (first_available values), w')
    | (Raised e, w') => (Raised e, w')
    end.
Proof.
  unfold obtener_usuario_cic_disponible, mbind, M_bind.
  destruct (cached_matrix w) as [[cached|e] w1]; [|done].
  by destruct (matrix_or_fetch cached w1) as [[values|e] w2].
Qed.

Lemma load_records_of {Sh : Sheet} (force_refresh : bool) (w : world) :
  (load_data_from_sheet force_refresh w).1
  = match ((if force_refresh then mret None else cached_matrix) ≫= matrix_or_fetch) w with
    | (Returned values, _) => Returned (records_of values)
    | (Raised e, _) => Raised e
    end.
Proof.
  unfold load_data_from_sheet, mbind, M_bind.
  destruct ((if force_refresh then mret None else cached_matrix) w) as [[cached|e] w1]; [|done].
  destruct (matrix_or_fetch cached w1) as [[values|e] w2]; [|done].
  destruct values as [|r values]; [done|].
  pose proof (cache_set_returns "records" (Records (records_of (r :: values))) w2) as Hset.
  by destruct (cache_set "records" _ w2) as [[[]|e] w3].
Qed.

(** C8. When the columns CIC, Usuario and Registrado are located in the
    first row, [first_available] returns the first data row that is available
    (Registrado one of no, n, false, 0 and a Usuario or CIC that is not empty),
    with its trimmed Usuario and CIC and its row number counted from 1 for
    the header row, and returns nothing when no data row is available; it
    also returns nothing, and never raises, when a column is not located or
    the grid has no data row; on the grid of the example the result is
    usuario u2, cic c2, row 3.  [obtener_usuario_cic_disponible] returns
    [first_available] of the matrix, cached or fetched, and raises only when
    the matrix cannot be had. *)
Theorem C8_first_available (headers : list str) (rows : grid)
    (idx_cic idx_user idx_reg : nat) :
  located headers "CIC" idx_cic ->
  located headers "Usuario" idx_user ->
  located headers "Registrado" idx_reg ->
  match first_available (headers :: rows) with
  | Some d =>
      exists k r,
        first_index (available idx_cic idx_user idx_reg) rows k
        /\ rows !! k = Some r
        /\ d = {| disp_usuario := strip (cell_at r idx_user);
                  disp_cic := strip (cell_at r idx_cic);
                  row_index := k + 2 |}
  | None => Forall (fun r => available idx_cic idx_user idx_reg r = false) rows
  end
  /\ (forall headers' rows',
        (forall idx, ~ located headers' "CIC" idx)
        \/ (forall idx, ~ located headers' "Usuario" idx)
        \/ (forall idx, ~ located headers' "Registrado" idx) ->
        first_available (headers' :: rows') = None)
  /\ first_available [] = None
  /\ @first_available BasicLatin credentials_grid
     = Some {| disp_usuario := lit "u2"; disp_cic := lit "c2"; row_index := 3 |}
  /\ (forall (Sh : Sheet) (w : world),
        obtener_usuario_cic_disponible w
        = match (cached_matrix ≫= matrix_or_fetch) w with
          | (Returned values, w') => (Returned (first_available values), w')
          | (Raised e, w') => (Raised e, w')
          end).
Proof.
  intros Hcic Huser Hreg. split; [|split; [|split; [|split]]];
    [| | | |intros; apply obtener_first_available].
  - unfold first_available.
    rewrite (find_col_idx_Some _ _ _ Hcic), (find_col_idx_Some _ _ _ Huser),
      (find_col_idx_Some _ _ _ Hreg).
    destruct rows as [|r rows]; [constructor|].
    pose proof (scan_rows_first idx_cic idx_user idx_reg 1 (r :: rows)) as Hscan.
    destruct (scan_rows idx_cic idx_user idx_reg 1 (r :: rows)) as [d|]; [|done].
    destruct Hscan as (k & r' & Hk & Hr' & ->). exists k, r'.
    split; [done|]. split; [done|]. f_equal. lia.
  - intros headers' rows' Hmissing. unfold first_available.
    destruct rows' as [|r rows']; [done|].
    pose proof (find_col_idx_located headers' "CIC") as H1.
    pose proof (find_col_idx_located headers' "Usuario") as H2.
    pose proof (find_col_idx_located headers' "Registrado") as H3.
    destruct (find_col_idx headers' "CIC") as [i1|]; [|done].
    destruct (find_col_idx headers' "Usuario") as [i2|]; [|done].
    destruct (find_col_idx headers' "Registrado") as [i3|]; [|done].
    destruct Hmissing as [Hm|[Hm|Hm]]; exfalso; by eapply Hm.
  - done.
  - vm_compute. reflexivity.
Qed.

(** *** Header discovery and record derivation *)

(** The loop over the first rows: the first row that holds CIC or, when
    there is none, the first of the rows with the most non-empty cells among
    those that beat [best_nonempty] ([header_index] when none does). *)
Lemma scan_header_spec (rows : grid) (idx hi : nat) (best : Z) :
  (exists k, first_index has_CIC rows k /\ scan_header rows idx hi best = idx + k)
  \/ (Forall (fun r => has_CIC r = false) rows
      /\ ((Forall (fun r => (Z.of_nat (count_nonempty r) <= best)%Z) rows
           /\ scan_header rows idx hi best = hi)
          \/ exists k r,
               rows !! k = Some r
               /\ scan_header rows idx hi best = idx + k
               /\ (best < Z.of_nat (count_nonempty r))%Z
               /\ Forall (fun r' => count_nonempty r' <= count_nonempty r) rows
               /\ forall k' r', k' < k -> rows !! k' = Some r' ->
                    count_nonempty r' < count_nonempty r)).
Proof.
  revert idx hi best. induction rows as [|r rows IH]; intros idx hi best.
  { right. split; [constructor|]. left. by split. }
  simpl. destruct (has_CIC r) eqn:Hcic.
  { left. exists 0. split; [by apply first_index_here|lia]. }
  destruct (Z.ltb_spec best (Z.of_nat (count_nonempty r))) as [Hbeats|Hnot].
  - destruct (IH (S idx) idx (Z.of_nat (count_nonempty r)))
      as [(k & Hk & ->)|(Hnone & [(Hle & ->)|(k & r2 & Hr2 & -> & Hgt & Hmax & Hmin)])].
    + left. exists (S k). split; [|lia]. apply first_index_later; [done|]. by exists k.
    + right. split; [by constructor|]. right. exists 0, r.
      split; [done|]. split; [lia|]. split; [done|]. split.
      * constructor; [lia|]. eapply Forall_impl; [exact Hle|]. intros r'. simpl. lia.
      * intros k' r' Hk'. lia.
    + right. split; [by constructor|]. right. exists (S k), r2.
      split; [done|]. split; [lia|]. split; [lia|]. split.
      * constructor; [lia|done].
      * intros [|k'] r' Hk' Hr'.
        -- simpl in Hr'. injection Hr' as <-. lia.
        -- apply (Hmin k'); [lia|done].
  - destruct (IH (S idx) hi best)
      as [(k & Hk & ->)|(Hnone & [(Hle & ->)|(k & r2 & Hr2 & -> & Hgt & Hmax & Hmin)])].
    + left. exists (S k). split; [|lia]. apply first_index_later; [done|]. by exists k.
    + right. split; [by constructor|]. left. split; [by constructor|done].
    + right. split; [by constructor|]. right. exists (S k), r2.
      split; [done|]. split; [lia|]. split; [done|]. split.
      * constructor; [lia|done].
      * intros [|k'] r' Hk' Hr'.
        -- simpl in Hr'. injection Hr' as <-. lia.
        -- apply (Hmin k'); [lia|done].
Qed.

(** The header row: the first of the first five rows that holds CIC, else
    the first of those with the most non-empty cells. *)
Lemma header_index_spec (values : grid) :
  values ≠ [] ->
  (first_index has_CIC (take 5 values) (header_index values))
  \/ (Forall (fun r => has_CIC r = false) (take 5 values)
      /\ exists r,
           take 5 values !! header_index values = Some r
           /\ Forall (fun r' => count_nonempty r' <= count_nonempty r) (take 5 values)
           /\ forall k' r', k' < header_index values -> take 5 values !! k' = Some r' ->
                count_nonempty r' < count_nonempty r).
Proof.
  intros Hne. unfold header_index.
  destruct (scan_header_spec (take 5 values) 0 0 (-1))
    as [(k & Hk & ->)|(Hnone & [(Hle & _)|(k & r & Hr & -> & _ & Hmax & Hmin)])].
  - by left.
  - destruct values as [|r values]; [done|]. simpl in Hle.
    apply Forall_cons in Hle as [Hle _]. lia.
  - right. split; [done|]. by exists r.
Qed.

Lemma dict_set_new {V : Type} (k : str) (v : V) (d : dict V) :
  k ∉ dict_keys d -> dict_set k v d = d ++ [(k, v)].
Proof.
  induction d as [|[k' v'] d IH]; simpl; [done|].
  intros Hk. apply not_elem_of_cons in Hk as [Hne Hk].
  rewrite decide_False by done. by rewrite IH.
Qed.

(** With distinct column names a record is the row under its names. *)
Lemma fill_record_padded (headers : list str) (j : nat) (r : list str) (rec : record) :
  NoDup (dict_keys rec ++ headers) ->
  fill_record headers j r rec = rec ++ padded headers j r.
Proof.
  revert j rec. induction headers as [|name headers IH]; intros j rec Hnd; simpl.
  { by rewrite app_nil_r. }
  rewrite dict_set_new.
  - rewrite IH.
    + by rewrite <- app_assoc.
    + unfold dict_keys in *. rewrite fmap_app. simpl. by rewrite <- app_assoc.
  - apply NoDup_app in Hnd as (_ & Hdisj & _). intros Hin.
    apply (Hdisj _ Hin). left.
Qed.

(** With distinct raw names the columns keep their raw names: the trimmed
    header cell, col_N for a blank one. *)
Lemma name_headers_raw (header_raw : list str) (j : nat) (seen : gmap str nat) :
  NoDup (raw_names header_raw j) ->
  (forall name, name ∈ raw_names header_raw j -> seen !! name = None) ->
  name_headers header_raw j seen = raw_names header_raw j.
Proof.
  revert j seen. induction header_raw as [|header rest IH]; intros j seen Hnd Hseen; [done|].
  simpl in *. apply NoDup_cons in Hnd as [Hnotin Hnd].
  rewrite Hseen by left. f_equal. apply IH; [done|].
  intros name Hname. rewrite lookup_insert_ne; [apply Hseen; by right|].
  intros <-. done.
Qed.

Lemma name_headers_length (header_raw : list str) (j : nat) (seen : gmap str nat) :
  length (name_headers header_raw j seen) = length header_raw.
Proof.
  revert j seen. induction header_raw as [|header rest IH]; intros j seen; [done|].
  simpl. destruct (seen !! _); simpl; by rewrite IH.
Qed.

(** Every row after the header row that is not blank gives one record, in
    order; with distinct column names the record is the padded row. *)
Lemma records_of_spec (values : grid) :
  length (records_of values)
  = length (List.filter (fun r => negb (is_blank r)) (drop (S (header_index values)) values))
  /\ (NoDup (headers_of values) ->
      records_of values
      = padded (headers_of values) 0
          <$> List.filter (fun r => negb (is_blank r)) (drop (S (header_index values)) values)).
Proof.
  unfold records_of. split; [by rewrite length_fmap|].
  intros Hnd. apply list_fmap_ext. intros _ r _. by apply fill_record_padded.
Qed.

(** *** Matching names without tokens *)

Lemma empty_signature (tokens : list str) :
  Counter_eqb (Counter_of tokens) (Counter_of []) = true <-> tokens = [].
Proof.
  rewrite signature_facts.Counter_of_eqb_perm. split.
  - apply Permutation_nil_r.
  - by intros ->.
Qed.

(** The loop over the rows stops at the first record whose name has no
    token, when the name searched has none. *)
Lemma match_rows_blank (rows : list record) (i : nat) (r : record) :
  first_index has_blank_name rows i -> rows !! i = Some r ->
  match_rows (Counter_of []) rows = Some (match_of r).
Proof.
  revert i. induction rows as [|r0 rows IH]; intros i Hfirst Hr; [done|].
  destruct (has_blank_name r0) eqn:Hr0.
  - assert (i = 0) as -> by (eapply first_index_unique; [exact Hfirst|by apply first_index_here]).
    simpl in Hr. injection Hr as <-. simpl. unfold has_blank_name in Hr0.
    destruct (_find_key r0 name_candidates) as [[|c k]|]; try done.
    unfold _name_signature.
    destruct (name_tokens (default [] (dict_get (c :: k) r0))) as [|t ts]; [|done].
    done.
  - apply first_index_later in Hfirst as (i' & -> & Hfirst); [|done].
    simpl in Hr. specialize (IH _ Hfirst Hr). simpl. unfold has_blank_name in Hr0.
    destruct (_find_key r0 name_candidates) as [[|c k]|]; try done.
    unfold _name_signature.
    destruct (name_tokens (default [] (dict_get (c :: k) r0))) as [|t ts] eqn:Ht; [done|].
    destruct (Counter_eqb (Counter_of (t :: ts)) (Counter_of [])) eqn:Heq; [|done].
    by apply empty_signature in Heq.
Qed.

(** C10. When the name searched has no token (the empty name is one such)
    and some record of the sheet has a name column that can be found and a
    name without token, [encontrar_abonado_por_nombre] returns the first such
    record as a match, with its abonado, cic and usuario. *)
Theorem C10_blank_names_match {Sh : Sheet} (w w' : world) (rows : list record)
    (nombre_busqueda : str) (i : nat) (r : record) :
  load_data_from_sheet false w = (Returned rows, w') ->
  name_tokens nombre_busqueda = [] ->
  first_index has_blank_name rows i -> rows !! i = Some r ->
  encontrar_abonado_por_nombre nombre_busqueda w = (Returned (Some (match_of r)), w')
  /\ name_tokens [] = [].
Proof.
  intros Hload Hq Hfirst Hr. split; [|done].
  unfold encontrar_abonado_por_nombre, mbind, M_bind. rewrite Hload.
  unfold mret, M_ret, _name_signature. rewrite Hq.
  by rewrite (match_rows_blank _ _ _ Hfirst Hr).
Qed.

End Sheet.

(** C7: a header that already holds a name made up for a duplicate.  The
    columns named a, a, a_2 are named a, a_2, a_2: the names are not
    pairwise distinct, and the record of the row 1, 2, 3 has two fields, the
    third cell under a_2 and the second cell lost; this is what
    [load_data_from_sheet] returns for that sheet. *)
Theorem C7_generated_name_clash :
  @headers_of BasicLatin clash_grid = [lit "a"; lit "a_2"; lit "a_2"]
  /\ ~ NoDup (@headers_of BasicLatin clash_grid)
  /\ @records_of BasicLatin clash_grid = [[(lit "a", lit "1"); (lit "a_2", lit "3")]]
  /\ (@load_data_from_sheet BasicLatin clash_sheet false fresh_world).1
     = Returned [[(lit "a", lit "1"); (lit "a_2", lit "3")]].
Proof.
  assert (Hh : @headers_of BasicLatin clash_grid = [lit "a"; lit "a_2"; lit "a_2"])
    by (vm_compute; reflexivity).
  split; [done|]. split; [|split; vm_compute; reflexivity].
  rewrite Hh. intros Hnd. apply NoDup_cons in Hnd as [_ Hnd].
  apply NoDup_cons in Hnd as [Hnotin _]. apply Hnotin. left.
Qed.

(** The example of the header discovery: the third row holds CIC and is
    the header row, and the one data row gives one record. *)
Lemma header_discovery_example :
  @header_index BasicLatin banner_grid = 2
  /\ @records_of BasicLatin banner_grid
     = [[(lit "ID", lit "1"); (lit "Name", lit "Ana"); (lit "CIC", lit "C1");
         (lit "Registrado", lit "no")]].
Proof. split; vm_compute; reflexivity. Qed.

End sheet_facts.

(** ** The handler *)
Module handler_facts.
Import py main main_spec examples.

Section Handler.
Context {U : Unicode} {E : ph.Env} {A : App}.
#[local] Existing Instance ph_config.

(** The record returned by [consultar] is a normalised record, and so are
    the records left in the cache. *)
Lemma consultar_record (ida : str) (w w1 : world) (data : dict ph.scalar) :
  cache_ok (ph_cache w) ->
  consultar ida w = (Returned data, w1) ->
  (exists r, data = ph.record_dict r) /\ cache_ok (ph_cache w1).
Proof.
  intros Hok. unfold consultar. destruct (int_of_str ida) as [ida_int|]; [|done].
  unfold ph.consultar_y_transformar_masiva.
  pose proof (cache_facts.Forall_get _ (ph_clock (ph_clock_reads w)) (str_of_Z ida_int)
                (ph_cache w) () Hok) as Hget.
  destruct (ph._cache_get _ _ (ph_cache w) ()) as [[r c1] u1] eqn:Eget. simpl in Hget.
  destruct r as [[cached|]|e]; [| |by intros [=]].
  - intros [= <- <-]. split; [|done].
    apply cache_facts.get_hit in Eget as (ts & d & Hd & [= <- _]).
    assert (Hp : cache_ok (ph._purge_expired (ph_clock (ph_clock_reads w)) (ph_cache w)))
      by (by apply cache_facts.Forall_purge).
    unfold cache_ok in Hp. rewrite Forall_forall in Hp. apply (Hp _ Hd).
  - destruct (ph.consulta_masiva_por_id ida_int) as [[[|field record]|]|e]; try by intros [=].
    unfold ph.transformar_desde_masiva.
    destruct (ph.derive_fields (field :: record)) as [r|e]; [|by intros [=]].
    pose proof (cache_facts.Forall_set _ (ph_clock (S (ph_clock_reads w))) (str_of_Z ida_int)
                  (ph.record_dict r) c1 u1 Hget) as Hset.
    destruct (ph._cache_set _ _ (ph.record_dict r) c1 u1) as [[r2 c2] u2]. simpl in Hset.
    destruct r2 as [[]|e]; [|by intros [=]]. intros [= <- <-]. split; [by exists r|].
    simpl. apply Hset. intros v h' [= <- _]. by exists r.
Qed.

Lemma consultar_cache_ok (ida : str) (w : world) :
  cache_ok (ph_cache w) -> cache_ok (ph_cache (consultar ida w).2).
Proof.
  intros Hok. unfold consultar. destruct (int_of_str ida) as [ida_int|]; [|done].
  unfold ph.consultar_y_transformar_masiva.
  pose proof (cache_facts.Forall_get _ (ph_clock (ph_clock_reads w)) (str_of_Z ida_int)
                (ph_cache w) () Hok) as Hget.
  destruct (ph._cache_get _ _ (ph_cache w) ()) as [[r c1] u1]. simpl in Hget.
  destruct r as [[cached|]|e]; [done| |done].
  destruct (ph.consulta_masiva_por_id ida_int) as [[[|field record]|]|e]; try done.
  unfold ph.transformar_desde_masiva.
  destruct (ph.derive_fields (field :: record)) as [r|e]; [|done].
  pose proof (cache_facts.Forall_set _ (ph_clock (S (ph_clock_reads w))) (str_of_Z ida_int)
                (ph.record_dict r) c1 u1 Hget) as Hset.
  destruct (ph._cache_set _ _ (ph.record_dict r) c1 u1) as [[r2 c2] u2]. simpl in Hset.
  assert (Hc2 : cache_ok c2) by (apply Hset; intros v h' [= <- _]; by exists r).
  by destruct r2 as [[]|e].
Qed.

(** The fields that the handler sets, read back from its result. *)
Lemma fields_with_match (m : option tv.Match) (r : ph.ClientRecord) :
  let data := with_match m (ph.record_dict r) in
  field "ya_tiene_usuario" data
    = Some (ph.SBool (match m with Some _ => true | None => false end))
  /\ field "UsuarioPropuesto" data = Some (ph.SStr [])
  /\ field "CICPropuesto" data = Some (ph.SStr [])
  /\ field "fila_propuesta" data = None
  /\ (m = None ->
       field "abonado_sheet" data = Some (ph.SStr [])
       /\ field "usuario_sheet" data = Some (ph.SStr [])
       /\ field "cic_sheet" data = Some (ph.SStr [])).
Proof.
  repeat split; try reflexivity; subst m; reflexivity.
Qed.

Lemma fields_with_proposal (d : option tv.Disp) (r : ph.ClientRecord) :
  let data := with_proposal d (with_match None (ph.record_dict r)) in
  field "ya_tiene_usuario" data = Some (ph.SBool false)
  /\ field "abonado_sheet" data = Some (ph.SStr [])
  /\ field "usuario_sheet" data = Some (ph.SStr [])
  /\ field "cic_sheet" data = Some (ph.SStr []).
Proof. destruct d; repeat split; reflexivity. Qed.

Lemma guarded_cache {B : Type} (call : tv.M B) (fallback : B) (w : world) :
  ph_cache (guarded call fallback w).2 = ph_cache w.
Proof. unfold guarded. by destruct (call (sheet w)) as [[b|e] s]. Qed.

(** The record cache holds normalised records after every request, served
    or not: from the empty cache on, it always does. *)
Lemma api_cliente_cache_ok (ida : str) (w : world) :
  cache_ok (ph_cache w) -> cache_ok (ph_cache (api_cliente ida w).2).
Proof.
  intros Hok. unfold api_cliente. destruct (strip ida) as [|c0 ida']; [done|].
  pose proof (consultar_cache_ok (c0 :: ida') w Hok) as Hc.
  destruct (consultar (c0 :: ida') w) as [[d0|e] w1]; [|done]. simpl in Hc.
  destruct (@tv A) as [m|]; [|done].
  pose proof (guarded_cache (encontrar_abonado_por_nombre m (nombre_of d0)) None w1) as Hg.
  destruct (guarded _ None w1) as [[mm|] w2]; simpl in Hg |- *; [by rewrite Hg|].
  pose proof (guarded_cache (obtener_usuario_cic_disponible m) None w2) as Hg'.
  destruct (guarded (obtener_usuario_cic_disponible m) None w2) as [disp w3].
  simpl in Hg' |- *. by rewrite Hg', Hg.
Qed.

(** C9. When [api_cliente] returns, on a record cache that holds normalised
    records, the result says whether a row of the sheet matched the name.
    If it says so, no credential is proposed: UsuarioPropuesto and
    CICPropuesto are empty, there is no fila_propuesta, and the lookup of an
    available credential was not made, the result being the same whatever
    that lookup would do.  If it says not, abonado_sheet, usuario_sheet and
    cic_sheet are empty.  The record cache still holds normalised records. *)
Theorem C9_match_or_proposal (ida : str) (w w' : world) (data : dict ph.scalar) :
  cache_ok (ph_cache w) ->
  api_cliente ida w = (Returned data, w') ->
  cache_ok (ph_cache w')
  /\ (exists b, field "ya_tiene_usuario" data = Some (ph.SBool b))
  /\ (field "ya_tiene_usuario" data = Some (ph.SBool true) ->
        field "UsuarioPropuesto" data = Some (ph.SStr [])
        /\ field "CICPropuesto" data = Some (ph.SStr [])
        /\ field "fila_propuesta" data = None
        /\ forall f, @api_cliente U E (with_lookup f A) ida w = (Returned data, w'))
  /\ (field "ya_tiene_usuario" data = Some (ph.SBool false) ->
        field "abonado_sheet" data = Some (ph.SStr [])
        /\ field "usuario_sheet" data = Some (ph.SStr [])
        /\ field "cic_sheet" data = Some (ph.SStr [])).
Proof.
  intros Hok. unfold api_cliente.
  change (@consultar U E (with_lookup ?f A)) with (@consultar U E A).
  destruct (strip ida) as [|c0 ida'] eqn:Hida; [done|].
  destruct (consultar (c0 :: ida') w) as [[d0|e] w1] eqn:Hc; [|done].
  apply (consultar_record _ _ _ _ Hok) in Hc as [[r ->] Hok1].
  destruct (@tv A) as [m|] eqn:Htv.
  - pose proof (guarded_cache (encontrar_abonado_por_nombre m
                  (nombre_of (ph.record_dict r))) None w1) as Hcache.
    destruct (guarded _ None w1) as [[mm|] w2] eqn:Hg; simpl in Hcache.
    + intros [= <- <-]. destruct (fields_with_match (Some mm) r) as (Hy & Hu & Hcic & Hf & _).
      split; [by rewrite Hcache|]. split; [by eexists|]. split.
      * intros _. split; [done|]. split; [done|]. split; [done|].
        intros f. unfold with_lookup at 1. cbn [tv]. rewrite Htv. cbn [fmap option_fmap option_map with_obtener encontrar_abonado_por_nombre].
        by rewrite Hg.
      * intros Hno. rewrite Hy in Hno. done.
    + pose proof (guarded_cache (obtener_usuario_cic_disponible m) None w2) as Hcache'.
      destruct (guarded (obtener_usuario_cic_disponible m) None w2) as [disp w3].
      simpl in Hcache'. intros [= <- <-].
      destruct (fields_with_proposal disp r) as (Hy & Ha & Hu & Hcic).
      split; [by rewrite Hcache', Hcache|]. split; [by eexists|]. split.
      * intros Hyes. rewrite Hy in Hyes. done.
      * done.
  - intros [= <- <-]. destruct (fields_with_match None r) as (Hy & Hu & Hcic & Hf & Hnone).
    split; [done|]. split; [by eexists|]. split.
    + intros Hyes. rewrite Hy in Hyes. done.
    + intros _. by apply Hnone.
Qed.

End Handler.

End handler_facts.

(** ** The theorems at concrete inputs *)
Module witnesses.
Import py examples.


(** C3 on a cache of capacity 2: after three sets and a get it holds at most
    two entries. *)
Lemma C3_bounded_lru_witness :
  (0 < 2)%Z /\ (0 < 10)%Z
  /\ (Z.of_nat (length (@cache_spec.run _ _ record_cfg three_sets ([], (), [])).1.1) <= 2)%Z.
Proof.
  split; [lia|]. split; [lia|].
  pose proof (@cache_facts.C3_bounded_lru _ _ record_cfg three_sets ()
                ltac:(simpl; lia) ltac:(simpl; lia)) as Hthm.
  destruct (@cache_spec.run _ _ record_cfg three_sets ([], (), [])) as [[c h] hist].
  exact (proj1 Hthm).
Defined.

(** C4 on caches with a time to live of 0 and of -1. *)
Lemma C4_disabled_cache_witness :
  (0 <= 0)%Z /\ (-1 <= 0)%Z
  /\ @ph._cache_get _ _ record_cfg_off 5 (lit "7") [(lit "7", (4%Z, 11))] ()
     = (Returned None, [(lit "7", (4%Z, 11))], ())
  /\ @tv._cache_set _ _ sheet_cfg_off 5 (lit "7") 1 ∅ () = (Returned (), ∅, ()).
Proof.
  split; [lia|]. split; [lia|].
  destruct (@cache_facts.C4_disabled_cache _ _ record_cfg_off _ _ sheet_cfg_off
              5 (lit "7") 11 [(lit "7", (4%Z, 11))] () 1 ∅ ()
              ltac:(simpl; lia) ltac:(simpl; lia)) as (Hget & _ & _ & Hset).
  split; [exact Hget|exact Hset].
Defined.

(** C5 on a record cache that lives 10, read at time 20. *)
Lemma C5_lazy_expiry_witness :
  ((0 < 10)%Z \/ [(lit "7", (4%Z, 11)); (lit "8", (15%Z, 12))] = [])
  /\ cache_spec.all_fresh (C := record_cfg) 20
       (@ph._cache_get _ _ record_cfg 20 (lit "7")
          [(lit "7", (4%Z, 11)); (lit "8", (15%Z, 12))] ()).1.2.
Proof.
  assert (Hon : (0 < @ph.CACHE_TTL _ _ record_cfg)%Z
                \/ [(lit "7", (4%Z, 11)); (lit "8", (15%Z, 12))] = [])
    by (left; simpl; lia).
  split; [exact Hon|].
  exact (proj1 (@cache_facts.C5_lazy_expiry _ _ record_cfg _ _ sheet_cfg
                  20 (lit "7") 11 [(lit "7", (4%Z, 11)); (lit "8", (15%Z, 12))] ()
                  1 ∅ () Hon)).
Defined.

(** C6 on the store that holds [{"a": [1]}].  Both caches return a value of
    that structure.  The value that the sheet cache returns is then changed
    through and through, with a list created on the way ([g["a"].append(2)]
    and [g["b"] = [3]]): the next get returns the structure set.  The
    dictionary that the record cache returns is given a new list
    ([g["b"] = [3]]): the next get returns the items set. *)
Lemma C6_cache_copies_witness :
  (0 < 180)%Z /\ (1 - 0 <= 180)%Z /\ (2 - 0 <= 180)%Z
  /\ heap.reify 2 nested_store (heap.VRef 1) = Some nested_structure
  /\ nested_store !! 1 = Some (heap.ODict [(lit "a", heap.VRef 0)])
  /\ (exists sv h1 v1 h2,
        @tv._cache_set _ _ (heap.tv_config 2 180) 0 (lit "7") (heap.VRef 1) ∅ nested_store
          = (Returned (), <[lit "7" := (0%Z, sv)]> ∅, h1)
        /\ @tv._cache_get _ _ (heap.tv_config 2 180) 1 (lit "7")
             (<[lit "7" := (0%Z, sv)]> ∅) h1
          = (Returned (Some v1), <[lit "7" := (0%Z, sv)]> ∅, h2)
        /\ heap.reify 2 h2 v1 = Some nested_structure)
  /\ deep_get.1.1 = Returned (Some (heap.VRef 5))
  /\ heap_spec.mutation_of deep_get.2 (heap.VRef 5) grown
  /\ length deep_get.2 < length grown
  /\ heap.reify 2 grown (heap.VRef 5) = Some grown_structure
  /\ (exists v2 h4,
        @tv._cache_get _ _ (heap.tv_config 2 180) 2 (lit "7") deep_get.1.2 grown
          = (Returned (Some v2), deep_get.1.2, h4)
        /\ heap.reify 2 h4 v2 = Some nested_structure)
  /\ first_get.1.1 = Returned (Some (heap.VRef 3))
  /\ heap_spec.mutation_at first_get.2 3 extended
  /\ length first_get.2 < length extended
  /\ exists l2 c3 h4,
       @ph._cache_get _ _ (heap.ph_config 180 64) 2 (lit "7") first_get.1.2 extended
         = (Returned (Some (heap.VRef l2)), c3, h4)
       /\ h4 !! l2 = Some (heap.ODict [(lit "a", heap.VRef 0)]).
Proof.
  assert (Hv : heap.reify 2 nested_store (heap.VRef 1) = Some nested_structure)
    by reflexivity.
  assert (Hl : nested_store !! 1 = Some (heap.ODict [(lit "a", heap.VRef 0)]))
    by reflexivity.
  assert (Hv1 : deep_get.1.1 = Returned (Some (heap.VRef 5))) by (vm_compute; reflexivity).
  assert (Hgrown : heap_spec.mutation_of deep_get.2 (heap.VRef 5) grown).
  { intros l Hlt Hn. do 4 (destruct l as [|l]; [reflexivity|]).
    destruct l as [|l].
    { exfalso. apply Hn.
      apply (heap.reach_child _ 5 (heap.ODict [(lit "a", heap.VRef 4)]) (heap.VRef 4));
        [reflexivity|left|constructor]. }
    destruct l as [|l]; [exfalso; apply Hn; constructor|].
    exfalso. vm_compute in Hlt. lia. }
  assert (Hl1 : first_get.1.1 = Returned (Some (heap.VRef 3))) by (vm_compute; reflexivity).
  assert (Hext : heap_spec.mutation_at first_get.2 3 extended).
  { intros l Hlt Hn. do 3 (destruct l as [|l]; [reflexivity|]).
    destruct l as [|l]; [done|]. exfalso. vm_compute in Hlt. lia. }
  assert (Hlen : length deep_get.2 < length grown) by (vm_compute; lia).
  assert (Hrg : heap.reify 2 grown (heap.VRef 5) = Some grown_structure)
    by (vm_compute; reflexivity).
  assert (Hlen' : length first_get.2 < length extended) by (vm_compute; lia).
  repeat (split; [first [lia | done]|]).
  destruct (copy_facts.C6_cache_copies 2 180 64 (lit "7") 0 1 2 nested_store ∅ []
              (heap.VRef 1) nested_structure 1 [(lit "a", heap.VRef 0)]
              ltac:(lia) ltac:(lia) ltac:(lia) Hv Hl)
    as [(sv & h1 & Hset & v1 & h2 & Hget & Hr & _ & Hmut)
        (c1 & k1 & Hpset & l1 & c2 & k2 & Hpget & _ & _ & _ & _ & Hpmut)].
  split; [by exists sv, h1, v1, h2|].
  assert (Hds : deep_set = (Returned (), <[lit "7" := (0%Z, sv)]> ∅, h1)) by exact Hset.
  assert (Hdg : deep_get = (Returned (Some v1), <[lit "7" := (0%Z, sv)]> ∅, h2)).
  { unfold deep_get. rewrite Hds. exact Hget. }
  assert (Has : after_set = (Returned (), c1, k1)) by exact Hpset.
  assert (Hfg : first_get = (Returned (Some (heap.VRef l1)), c2, k2)).
  { unfold first_get. rewrite Has. exact Hpget. }
  rewrite Hdg in Hv1. injection Hv1 as ->.
  rewrite Hfg in Hl1. injection Hl1 as ->.
  assert (Hh2 : h2 = deep_get.2) by (by rewrite Hdg).
  assert (Hsc : <[lit "7" := (0%Z, sv)]> ∅ = deep_get.1.2) by (by rewrite Hdg).
  assert (Hk2 : k2 = first_get.2) by (by rewrite Hfg).
  assert (Hc2 : c2 = first_get.1.2) by (by rewrite Hfg).
  subst h2 k2 c2. rewrite Hsc in Hmut.
  repeat (split; [done|]). split; [exact (Hmut grown Hgrown)|].
  repeat (split; [done|]). exact (Hpmut extended Hext).
Defined.

(** C8 on the grid of the example: the three columns are located and the
    first available row is the second data row, row 3 of the grid. *)
Lemma C8_first_available_witness :
  tv_spec.located (U := BasicLatin) [s "ID"; s "Usuario"; s "CIC"; s "Registrado"] "CIC" 2
  /\ tv_spec.located (U := BasicLatin) [s "ID"; s "Usuario"; s "CIC"; s "Registrado"] "Usuario" 1
  /\ tv_spec.located (U := BasicLatin) [s "ID"; s "Usuario"; s "CIC"; s "Registrado"] "Registrado" 3
  /\ exists k r,
       tv_spec.first_index (tv_spec.available (U := BasicLatin) 2 1 3)
         [[s "1"; s "u1"; s "c1"; s "si"]; [s "2"; s "u2"; s "c2"; s "no"]] k
       /\ [[s "1"; s "u1"; s "c1"; s "si"]; [s "2"; s "u2"; s "c2"; s "no"]] !! k = Some r
       /\ k + 2 = 3.
Proof.
  pose (headers := [s "ID"; s "Usuario"; s "CIC"; s "Registrado"]).
  assert (Hcic : tv_spec.located (U := BasicLatin) headers "CIC" 2).
  { pose proof (@sheet_facts.find_col_idx_located BasicLatin headers "CIC") as Hloc.
    replace (@tv.find_col_idx BasicLatin headers "CIC") with (Some 2) in Hloc
      by (vm_compute; reflexivity). exact Hloc. }
  assert (Huser : tv_spec.located (U := BasicLatin) headers "Usuario" 1).
  { pose proof (@sheet_facts.find_col_idx_located BasicLatin headers "Usuario") as Hloc.
    replace (@tv.find_col_idx BasicLatin headers "Usuario") with (Some 1) in Hloc
      by (vm_compute; reflexivity). exact Hloc. }
  assert (Hreg : tv_spec.located (U := BasicLatin) headers "Registrado" 3).
  { pose proof (@sheet_facts.find_col_idx_located BasicLatin headers "Registrado") as Hloc.
    replace (@tv.find_col_idx BasicLatin headers "Registrado") with (Some 3) in Hloc
      by (vm_compute; reflexivity). exact Hloc. }
  split; [exact Hcic|]. split; [exact Huser|]. split; [exact Hreg|].
  destruct (@sheet_facts.C8_first_available BasicLatin headers
              [[s "1"; s "u1"; s "c1"; s "si"]; [s "2"; s "u2"; s "c2"; s "no"]]
              2 1 3 Hcic Huser Hreg) as [Hfirst _].
  replace (@tv.first_available BasicLatin
             (headers :: [[s "1"; s "u1"; s "c1"; s "si"]; [s "2"; s "u2"; s "c2"; s "no"]]))
    with (Some {| tv.disp_usuario := lit "u2"; tv.disp_cic := lit "c2"; tv.row_index := 3 |})
    in Hfirst by (vm_compute; reflexivity).
  destruct Hfirst as (k & r & Hk & Hr & Hd). exists k, r.
  split; [exact Hk|]. split; [exact Hr|]. by injection Hd.
Defined.

(** C9 on the request of client 7, whose name matches a row of the sheet:
    no credential is proposed. *)
Lemma C9_match_or_proposal_witness :
  main_spec.cache_ok (main.ph_cache start)
  /\ exists data w',
       handled = (Returned data, w')
       /\ main_spec.field "ya_tiene_usuario" data = Some (ph.SBool true)
       /\ main_spec.field "UsuarioPropuesto" data = Some (ph.SStr [])
       /\ main_spec.field "fila_propuesta" data = None.
Proof.
  assert (Hok : main_spec.cache_ok (main.ph_cache start)) by constructor.
  split; [exact Hok|].
  let r := eval vm_compute in handled in
  match r with
  | (Returned ?d, ?w) =>
      assert (Hrun : handled = (Returned d, w)) by (vm_compute; reflexivity);
      exists d, w;
      destruct (@handler_facts.C9_match_or_proposal BasicLatin known_upstream handler
                  (lit "7") start w d Hok Hrun) as (_ & _ & Hyes & _)
  end.
  split; [exact Hrun|].
  assert (Hy : main_spec.field "ya_tiene_usuario"
                 match handled.1 with Returned d => d | Raised _ => [] end
               = Some (ph.SBool true)) by (vm_compute; reflexivity).
  rewrite Hrun in Hy. simpl in Hy.
  destruct (Hyes Hy) as (Hu & _ & Hf & _). by repeat split.
Defined.

(** C10 on the sheet whose first data row is named "---", searched with the
    empty name: that row is the match. *)
Lemma C10_blank_names_match_witness :
  exists rows w' r,
    loaded = (Returned rows, w')
    /\ @tv.name_tokens BasicLatin [] = []
    /\ tv_spec.first_index (tv_spec.has_blank_name (U := BasicLatin)) rows 0
    /\ rows !! 0 = Some r
    /\ @tv.encontrar_abonado_por_nombre BasicLatin dashes_sheet [] fresh_world
       = (Returned (Some (tv_spec.match_of r)), w')
    /\ tv.usuario (tv_spec.match_of (U := BasicLatin) r) = lit "u1".
Proof.
  let r := eval vm_compute in loaded in
  match r with
  | (Returned (?r0 :: ?rs), ?w) =>
      assert (Hload : loaded = (Returned (r0 :: rs), w)) by (vm_compute; reflexivity);
      exists (r0 :: rs), w, r0;
      assert (Hfirst : tv_spec.first_index (tv_spec.has_blank_name (U := BasicLatin))
                         (r0 :: rs) 0)
        by (apply sheet_facts.first_index_here; vm_compute; reflexivity);
      pose proof (@sheet_facts.C10_blank_names_match BasicLatin dashes_sheet
                    fresh_world w (r0 :: rs) [] 0 r0 Hload eq_refl Hfirst eq_refl) as [Hthm _]
  end.
  repeat (split; [done|]). vm_compute. reflexivity.
Defined.

End witnesses.

(** ** Accounts and sessions *)
Module auth_facts.
Import py auth auth_spec.

Section Auth.
Context {U : Unicode} {Acc : Accounts}.

Lemma nonempty_true (s : str) : nonempty s = true <-> s ≠ [].
Proof. by destruct s. Qed.

Lemma first_account_cons (role user pwd username password : str)
    (rest : list (str * str * str)) :
  first_account ((role, user, pwd) :: rest) username password
  = if bool_decide (username = user /\ password = pwd)
    then Some role else first_account rest username password.
Proof.
  simpl. unfold str_eqb. by rewrite bool_decide_and.
Qed.

Lemma authenticate_iff (username password role : str) :
  authenticate username password = Some role
  <-> (role = lit "read" /\ is_read username password)
      \/ (role = lit "write" /\ is_write username password
          /\ ~ is_read username password).
Proof.
  unfold authenticate, ACCOUNTS, _build_accounts, is_read, is_write.
  destruct READ_USERNAME as [|a1 ru], READ_PASSWORD as [|a2 rp],
    WRITE_USERNAME as [|a3 wu], WRITE_PASSWORD as [|a4 wp];
    cbn [nonempty andb app]; rewrite ?first_account_cons; cbn [first_account];
    repeat (match goal with
            | |- context [bool_decide ?P] =>
                destruct (decide P);
                [rewrite (bool_decide_eq_true_2 P) by done
                |rewrite (bool_decide_eq_false_2 P) by done]
            end);
    intuition congruence.
Qed.

Lemma authenticate_role (username password role : str) :
  authenticate username password = Some role -> role = lit "read" \/ role = lit "write".
Proof. rewrite authenticate_iff. tauto. Qed.

Lemma login_submit_ok (s : session) (username password role : str) :
  authenticate (strip username) (strip password) = Some role ->
  login_submit s username password
  = (RedirectResponse "/" 303,
     dict_set (lit "auth") [(lit "user", strip username); (lit "role", role)] s).
Proof.
  intros Ha. unfold login_submit. rewrite Ha.
  by destruct (authenticate_role _ _ _ Ha) as [->| ->].
Qed.

Lemma login_submit_refused (s : session) (username password : str) :
  authenticate (strip username) (strip password) = None ->
  login_submit s username password
  = (TemplateResponse "login.html" [(lit "error", invalid_login)] 400, s).
Proof. intros Ha. unfold login_submit. by rewrite Ha. Qed.

(** X1. [authenticate] gives the role read exactly for the credentials of
    the read account and the role write exactly for those of the write
    account when they are not also those of the read account; an account
    with an empty user name or password does not exist, so empty credentials
    never authenticate. *)
Theorem authenticate_roles (username password role : str) :
  authenticate username password = Some role
  <-> (role = lit "read" /\ is_read username password)
      \/ (role = lit "write" /\ is_write username password
          /\ ~ is_read username password).
Proof. apply authenticate_iff. Qed.

(** X2. A login with credentials that authenticate answers with a redirect
    to the home page and leaves a session from which [require_auth] returns
    the trimmed user name and the role, whatever the session held before;
    the home page then shows that role and name, the login form redirects,
    and after [logout] the session is refused with status 401 and the home
    page redirects to the login form.  A login that does not authenticate
    answers with status 400 and leaves the session as it was. *)
Theorem login_session_round_trip (s : session) (username password : str) :
  match authenticate (strip username) (strip password) with
  | Some role =>
      let s' := (login_submit s username password).2 in
      (login_submit s username password).1 = RedirectResponse "/" 303
      /\ require_auth s'
         = Returned [(lit "user", strip username); (lit "role", role)]
      /\ home s'
         = TemplateResponse "index.html"
             [(lit "role", role); (lit "username", strip username)] 200
      /\ login_form s' = RedirectResponse "/" 303
      /\ require_auth (logout s').2 = Raised (HTTPException 401)
      /\ home (logout s').2 = RedirectResponse "/login" 303
  | None =>
      login_submit s username password
      = (TemplateResponse "login.html" [(lit "error", invalid_login)] 400, s)
  end.
Proof.
  destruct (authenticate (strip username) (strip password)) as [role|] eqn:Ha.
  - rewrite (login_submit_ok _ _ _ _ Ha). cbn [fst snd].
    unfold require_auth, home, login_form.
    rewrite cache_facts.dict_get_set_eq. done.
  - by apply login_submit_refused.
Qed.

(** X3. Starting without a session, a login gives a session that passes
    [require_write] exactly when the trimmed credentials are those of the
    write account and not also those of the read account: when the two
    accounts share their credentials nobody can be given the write role. *)
Theorem write_session_iff (username password : str) :
  (exists auth,
      depends_require_write (login_submit [] username password).2 = Returned auth)
  <-> is_write (strip username) (strip password)
      /\ ~ is_read (strip username) (strip password).
Proof.
  destruct (authenticate (strip username) (strip password)) as [role|] eqn:Ha.
  - rewrite (login_submit_ok _ _ _ _ Ha). cbn [fst snd].
    unfold depends_require_write, require_auth. rewrite cache_facts.dict_get_set_eq.
    apply authenticate_iff in Ha as [[-> Hr]|[-> [Hw Hnr]]].
    + split; [|tauto]. intros [auth Hauth]. done.
    + split; [done|]. intros _. by eexists.
  - rewrite (login_submit_refused _ _ _ Ha). cbn [fst snd]. split.
    + intros [auth Hauth]. done.
    + intros [Hw Hnr]. assert (Some (lit "write") = None) as Hx; [|done].
      rewrite <- Ha. symmetry. apply authenticate_iff. right. done.
Qed.

End Auth.

End auth_facts.

(** ** Marking a credential *)
Module marcar_facts.
Import py tv_write tv_spec.
#[local] Existing Instances tv.M_ret tv.M_bind.

Section Marcar.
Context {U : Unicode} {Ws : Worksheet}.

(** The search of the column: from the second row on, the first cell that
    equals the user name once both are trimmed. *)
Lemma find_row_from (usuario_norm : str) (idx : Z) (col : list str) :
  (2 <= idx)%Z ->
  match find_row usuario_norm idx col with
  | Some r => exists k, first_index (fun v => str_eqb (strip v) usuario_norm) col k
                        /\ r = (idx + Z.of_nat k)%Z
  | None => Forall (fun v => str_eqb (strip v) usuario_norm = false) col
  end.
Proof.
  revert idx. induction col as [|v col IH]; intros idx Hidx; simpl; [done|].
  destruct (Z.eqb_spec idx 1) as [->|_]; [lia|].
  destruct (str_eqb (strip v) usuario_norm) eqn:Hv.
  - exists 0. split; [by apply sheet_facts.first_index_here|lia].
  - specialize (IH (idx + 1)%Z ltac:(lia)).
    destruct (find_row usuario_norm (idx + 1) col) as [r|].
    + destruct IH as (k & Hk & ->). exists (S k). split; [|lia].
      apply sheet_facts.first_index_later; [done|]. by exists k.
    + by constructor.
Qed.

Lemma find_row_spec (usuario_norm : str) (col : list str) :
  match find_row usuario_norm 1 col with
  | Some r => exists k, first_index (fun v => str_eqb (strip v) usuario_norm) (drop 1 col) k
                        /\ r = (Z.of_nat k + 2)%Z
  | None => Forall (fun v => str_eqb (strip v) usuario_norm = false) (drop 1 col)
  end.
Proof.
  destruct col as [|v col]; simpl; [done|]. rewrite drop_0.
  pose proof (find_row_from usuario_norm 2 col ltac:(lia)) as H.
  change (1 + 1)%Z with 2%Z.
  destruct (find_row usuario_norm 2 col) as [r|]; [|done].
  destruct H as (k & Hk & ->). exists k. split; [done|lia].
Qed.

(** The row that [target_row] gives is never the header row. *)
Lemma target_row_from_2 (usuario : str) (row_index : option Z) (w w' : world) (r : Z) :
  target_row usuario row_index w = (Returned (Some r), w') -> (2 <= r)%Z /\ w' = w.
Proof.
  assert (Hsearch : forall w w' r,
    (col_usuario ← read_col 3; mret (find_row (strip usuario) 1 col_usuario)) w
    = (Returned (Some r), w') -> (2 <= r)%Z /\ w' = w).
  { clear. intros w w' r. unfold mbind, M_bind, read_col, mret, M_ret.
    destruct (col_values (written w) 3) as [col|e]; [|done].
    pose proof (find_row_spec (strip usuario) col) as H.
    destruct (find_row (strip usuario) 1 col) as [r'|]; [|done].
    intros [= <- <-]. destruct H as (k & _ & ->). split; [lia|done]. }
  unfold target_row. destruct row_index as [r0|]; [|apply Hsearch].
  destruct (negb (r0 =? 0)%Z && (2 <=? r0)%Z) eqn:Hr0; [|apply Hsearch].
  intros [= <- <-]. apply andb_true_iff in Hr0 as [_ Hr0]. split; [lia|done].
Qed.

Lemma target_row_world (usuario : str) (row_index : option Z) (w : world) :
  (target_row usuario row_index w).2 = w.
Proof.
  assert (Hsearch : forall w,
    ((col_usuario ← read_col 3; mret (find_row (strip usuario) 1 col_usuario)) w).2 = w).
  { clear. intros w. unfold mbind, M_bind, read_col, mret, M_ret.
    by destruct (col_values (written w) 3). }
  unfold target_row. destruct row_index as [r0|]; [|apply Hsearch].
  destruct (negb (r0 =? 0)%Z && (2 <=? r0)%Z); [done|apply Hsearch].
Qed.

(** What a call of [marcar_registro_sheet] does, whether it returns or
    raises. *)
Lemma marcar_cases (usuario ida nombre : str) (row_index : option Z) (w : world) :
  match marcar_registro_sheet usuario ida nombre row_index w with
  | (Returned m, w') =>
      (2 <= row m)%Z
      /\ target_row usuario row_index w = (Returned (Some (row m)), w)
      /\ m = {| ok := true; row := row m; usuario := usuario; ida := ida; nombre := nombre |}
      /\ written w' = written w ++ marks (row m) ida nombre
      /\ tv.sheet_cache (sheet w') = ∅
      /\ tv.clock_reads (sheet w') = tv.clock_reads (sheet w)
      /\ tv.sheet_reads (sheet w') = tv.sheet_reads (sheet w)
  | (Raised e, w') =>
      sheet w' = sheet w
      /\ exists r n, (2 <= r)%Z /\ n < 4
                     /\ written w' = written w ++ take n (marks r ida nombre)
                     /\ (n ≠ 0 ->
                         target_row usuario row_index w = (Returned (Some r), w))
  end.
Proof.
  unfold marcar_registro_sheet.
  unfold mbind at 1. unfold M_bind at 1. unfold open_ws_rw.
  destruct (_open_ws_rw (written w)) as [[]|e].
  2:{ split; [done|]. exists 2%Z, 0. rewrite app_nil_r. repeat split; first [lia|done]. }
  unfold mbind at 1. unfold M_bind at 1.
  pose proof (target_row_world usuario row_index w) as Hw.
  destruct (target_row usuario row_index w) as [[[r|]|e] w0] eqn:Ht; simpl in Hw; subst w0.
  2,3: split; [done|]; exists 2%Z, 0; rewrite app_nil_r; repeat split; lia.
  apply target_row_from_2 in Ht as Hr. destruct Hr as [Hr _].
  destruct (Z.eqb_spec r 0) as [->|_]; [lia|].
  unfold mbind, M_bind, call, cache_clear, mret, M_ret, marks. cbn [sheet written].
  destruct (perform (written w) _) as [[]|e1].
  2:{ split; [done|]. exists r, 0. rewrite app_nil_r. repeat split; first [lia|done]. }
  cbn [sheet written].
  destruct (perform (written w ++ _) (update_cell r 6 ida)) as [[]|e2].
  2:{ split; [done|]. exists r, 1. repeat split; first [lia|done]. }
  cbn [sheet written].
  destruct (perform ((written w ++ _) ++ _) (update_cell r 7 nombre)) as [[]|e3].
  2:{ split; [done|]. exists r, 2. rewrite <- app_assoc. repeat split; first [lia|done]. }
  cbn [sheet written].
  destruct (perform (((written w ++ _) ++ _) ++ _) (format _ _)) as [[]|e4].
  2:{ split; [done|]. exists r, 3. rewrite <- !app_assoc. repeat split; first [lia|done]. }
  cbn [sheet written row tv.sheet_cache tv.clock_reads tv.sheet_reads].
  rewrite <- !app_assoc. repeat split; done.
Qed.

(** X4. Whatever its arguments and whatever the worksheet answers,
    [marcar_registro_sheet] changes cells of one row only, and never of the
    header row: the changing calls it makes are the first n of the four calls
    for a row numbered 2 or more (Mail in column 4, the ida in column 6, the
    name in column 7, the black format of columns A to J), in this order, and
    all four are made exactly when it returns. *)
Theorem marcar_writes_one_row (usuario ida nombre : str) (row_index : option Z) (w : world) :
  exists r n,
    (2 <= r)%Z /\ n <= 4
    /\ written (marcar_registro_sheet usuario ida nombre row_index w).2
       = written w ++ take n (marks r ida nombre)
    /\ (n = 4 <-> exists m, (marcar_registro_sheet usuario ida nombre row_index w).1
                            = Returned m).
Proof.
  pose proof (marcar_cases usuario ida nombre row_index w) as H.
  destruct (marcar_registro_sheet usuario ida nombre row_index w) as [[m|e] w'].
  - destruct H as (Hr & _ & _ & Hw & _). exists (row m), 4. cbn [fst snd].
    split; [done|]. split; [lia|]. split; [done|]. split; [by eexists|done].
  - destruct H as (_ & r & n & Hr & Hn & Hw & _). exists r, n. cbn [fst snd].
    split; [done|]. split; [lia|]. split; [done|]. split; [lia|].
    intros [m Hm]. done.
Qed.




(** With a row number of 2 or more the calls are those for that row. *)
Lemma marcar_at_row (usuario ida nombre : str) (r0 : Z) (w : world) :
  (2 <= r0)%Z ->
  match marcar_registro_sheet usuario ida nombre (Some r0) w with
  | (Returned m, w') => row m = r0 /\ written w' = written w ++ marks r0 ida nombre
  | (Raised e, w') =>
      exists n, n < 4 /\ written w' = written w ++ take n (marks r0 ida nombre)
  end.
Proof.
  intros Hr0.
  assert (Ht : target_row usuario (Some r0) w = (Returned (Some r0), w)).
  { unfold target_row. destruct (Z.eqb_spec r0 0) as [|_]; [lia|].
    destruct (Z.leb_spec 2 r0) as [_|]; [done|lia]. }
  pose proof (marcar_cases usuario ida nombre (Some r0) w) as H.
  destruct (marcar_registro_sheet usuario ida nombre (Some r0) w) as [[m|e] w'].
  - destruct H as (_ & Hm & _ & Hw & _). rewrite Ht in Hm. injection Hm as Hm.
    rewrite Hm. by split.
  - destruct H as (_ & r & n & _ & Hn & Hw & Hr). destruct n as [|n].
    + exists 0. split; [lia|]. by rewrite Hw.
    + specialize (Hr ltac:(done)). rewrite Ht in Hr. injection Hr as <-.
      exists (S n). by split.
Qed.

(** The row that the search of the third column gives. *)
Lemma target_row_search (usuario : str) (row_index : option Z) (w : world) (col : list str) :
  row_index = None \/ (exists r0, row_index = Some r0 /\ (r0 < 2)%Z) ->
  col_values (written w) 3 = Returned col ->
  target_row usuario row_index w = (Returned (find_row (strip usuario) 1 col), w).
Proof.
  intros Hri Hcol.
  assert (Hsearch :
    (col_usuario ← read_col 3; mret (find_row (strip usuario) 1 col_usuario)) w
    = (Returned (find_row (strip usuario) 1 col), w)).
  { unfold mbind, M_bind, read_col, mret, M_ret. by rewrite Hcol. }
  unfold target_row. destruct Hri as [->|(r0 & -> & Hr0)]; [done|].
  destruct (Z.leb_spec 2 r0) as [|_]; [lia|]. by rewrite andb_false_r.
Qed.

Lemma bind_open {B : Type} (k : unit -> M B) (w : world) :
  (open_ws_rw ≫= k) w
  = match _open_ws_rw (written w) with
    | Returned a => k a w
    | Raised e => (Raised e, w)
    end.
Proof. unfold mbind, M_bind, open_ws_rw. by destruct (_open_ws_rw (written w)). Qed.

Lemma bind_eq {A B : Type} (m m' : M A) (k : A -> M B) (w : world) :
  m w = m' w -> (m ≫= k) w = (m' ≫= k) w.
Proof. unfold mbind, M_bind. by intros ->. Qed.

(** Two calls for which [target_row] agrees do the same. *)
Lemma marcar_by_target (usuario ida nombre : str) (row_index row_index' : option Z)
    (w : world) :
  target_row usuario row_index w = target_row usuario row_index' w ->
  marcar_registro_sheet usuario ida nombre row_index w
  = marcar_registro_sheet usuario ida nombre row_index' w.
Proof.
  intros Ht. unfold marcar_registro_sheet. rewrite !bind_open.
  destruct (_open_ws_rw (written w)) as [[]|e]; [|done].
  by apply bind_eq.
Qed.

(** X6. The row that is marked.  A [row_index] of 2 or more is taken as it
    is, whatever the user name and the sheet hold: the cells changed are
    those of that row, all four when the call returns.  Otherwise (no
    [row_index], or one below 2, zero and the negative ones included) the
    third column is read and the row is that of its first cell, from the
    second row on, that equals the user name once both are trimmed: the call
    does what it does with the number of that row as [row_index], and a call
    that returns has found such a cell.  When the worksheet opens and the
    column has no such cell the call raises [ValueError] and changes
    nothing. *)
Theorem marcar_row_selection (usuario ida nombre : str) (row_index : option Z)
    (w : world) :
  (forall r0, row_index = Some r0 -> (2 <= r0)%Z ->
     match marcar_registro_sheet usuario ida nombre row_index w with
     | (Returned m, w') => row m = r0 /\ written w' = written w ++ marks r0 ida nombre
     | (Raised e, w') =>
         exists n, n < 4 /\ written w' = written w ++ take n (marks r0 ida nombre)
     end)
  /\ (row_index = None \/ (exists r0, row_index = Some r0 /\ (r0 < 2)%Z) ->
      (forall col k,
         col_values (written w) 3 = Returned col ->
         first_index (fun v => str_eqb (strip v) (strip usuario)) (drop 1 col) k ->
         marcar_registro_sheet usuario ida nombre row_index w
         = marcar_registro_sheet usuario ida nombre (Some (Z.of_nat k + 2)%Z) w)
      /\ (forall col,
           _open_ws_rw (written w) = Returned () ->
           col_values (written w) 3 = Returned col ->
           Forall (fun v => str_eqb (strip v) (strip usuario) = false) (drop 1 col) ->
           marcar_registro_sheet usuario ida nombre row_index w = (Raised ValueError, w))
      /\ (forall m w',
           marcar_registro_sheet usuario ida nombre row_index w = (Returned m, w') ->
           exists col k,
             col_values (written w) 3 = Returned col
             /\ first_index (fun v => str_eqb (strip v) (strip usuario)) (drop 1 col) k
             /\ row m = (Z.of_nat k + 2)%Z)).
Proof.
  split.
  - intros r0 -> Hr0. by apply marcar_at_row.
  - intros Hri. split; [|split].
    + intros col k Hcol Hk. apply marcar_by_target.
      rewrite (target_row_search _ _ _ col Hri Hcol).
      pose proof (find_row_spec (strip usuario) col) as H.
      destruct (find_row (strip usuario) 1 col) as [r|].
      * destruct H as (k' & Hk' & ->).
        rewrite (sheet_facts.first_index_unique _ _ _ _ Hk Hk').
        unfold target_row. destruct (Z.eqb_spec (Z.of_nat k' + 2) 0) as [|_]; [lia|].
        destruct (Z.leb_spec 2 (Z.of_nat k' + 2)) as [_|]; [done|lia].
      * by apply sheet_facts.first_index_none with (k := k) in H.
    + intros col Hopen Hcol Hnone. unfold marcar_registro_sheet.
      rewrite bind_open, Hopen. unfold mbind, M_bind at 1.
      rewrite (target_row_search _ _ _ col Hri Hcol).
      pose proof (find_row_spec (strip usuario) col) as H.
      destruct (find_row (strip usuario) 1 col) as [r|]; [|done].
      destruct H as (k & Hk & _). by apply sheet_facts.first_index_none in Hk.
    + intros m w' Hm.
      pose proof (marcar_cases usuario ida nombre row_index w) as H. rewrite Hm in H.
      destruct H as (_ & Ht & _).
      destruct (col_values (written w) 3) as [col|e] eqn:Hcol.
      * rewrite (target_row_search _ _ _ col Hri Hcol) in Ht.
        pose proof (find_row_spec (strip usuario) col) as H.
        destruct (find_row (strip usuario) 1 col) as [r|]; [|done].
        injection Ht as ->. destruct H as (k & Hk & Hrow). by exists col, k.
      * exfalso. revert Ht. unfold target_row, mbind, M_bind, read_col.
        destruct Hri as [->|(r0 & -> & Hr0)].
        -- by rewrite Hcol.
        -- destruct (Z.leb_spec 2 r0) as [|_]; [lia|]. rewrite andb_false_r.
           by rewrite Hcol.
Qed.

(** X25. The proposal and the marking agree on the row.  The row number
    that [obtener_usuario_cic_disponible] gives with a credential, which
    [api_cliente] hands out as fila_propuesta, is 2 or more and is the
    number, counted from 1, of the row of the matrix that holds that
    credential; sent back as [row_index] it makes [marcar_registro_sheet]
    change the cells of that row and of no other, whatever user name comes
    with it. *)
Theorem proposed_row_is_marked (values : tv.grid) (d : tv.Disp)
    (usuario ida nombre : str) (w : world) :
  tv.first_available values = Some d ->
  (exists r idx_user idx_cic,
      values !! (tv.row_index d - 1) = Some r
      /\ 2 <= tv.row_index d
      /\ tv.disp_usuario d = strip (tv.cell_at r idx_user)
      /\ tv.disp_cic d = strip (tv.cell_at r idx_cic))
  /\ match marcar_registro_sheet usuario ida nombre
             (Some (Z.of_nat (tv.row_index d))) w with
     | (Returned m, w') =>
         row m = Z.of_nat (tv.row_index d)
         /\ written w' = written w ++ marks (Z.of_nat (tv.row_index d)) ida nombre
     | (Raised e, w') =>
         exists n, n < 4
                   /\ written w'
                      = written w ++ take n (marks (Z.of_nat (tv.row_index d)) ida nombre)
     end.
Proof.
  intros Hd.
  assert (Hrow : exists r idx_user idx_cic,
             values !! (tv.row_index d - 1) = Some r
             /\ 2 <= tv.row_index d
             /\ tv.disp_usuario d = strip (tv.cell_at r idx_user)
             /\ tv.disp_cic d = strip (tv.cell_at r idx_cic)).
  { revert Hd. unfold tv.first_available.
    destruct values as [|headers [|r0 rows]]; try done.
    destruct (tv.find_col_idx headers "CIC") as [idx_cic|]; [|done].
    destruct (tv.find_col_idx headers "Usuario") as [idx_user|]; [|done].
    destruct (tv.find_col_idx headers "Registrado") as [idx_reg|]; [|done].
    pose proof (sheet_facts.scan_rows_first idx_cic idx_user idx_reg 1 (r0 :: rows)) as Hs.
    destruct (tv.scan_rows idx_cic idx_user idx_reg 1 (r0 :: rows)) as [d'|]; [|done].
    intros [= ->]. destruct Hs as (k & r & _ & Hr & ->).
    exists r, idx_user, idx_cic. cbn [tv.row_index tv.disp_usuario tv.disp_cic].
    replace (1 + k + 1 - 1) with (S k) by lia. split; [done|]. split; [lia|done]. }
  split; [done|]. destruct Hrow as (_ & _ & _ & _ & Hge & _).
  apply marcar_at_row. lia.
Qed.

End Marcar.

End marcar_facts.

(** ** The routes *)
Module routes_facts.
Import py auth routes routes_spec main_spec.

Section Routes.
Context {U : Unicode} {Acc : Accounts} {E : ph.Env} {A : main.App}
        {Ws : tv_write.Worksheet}.
#[local] Existing Instance main.ph_config.

(** X7. [api_marcar_registro] reaches the worksheet only for a session whose
    role is write: for any other session it raises 401 (no session) or 403
    (another role) and leaves the worksheet and the caches as they were.
    Whatever else goes wrong, the sheet integration missing or the marking
    raising, the status is 500. *)
Theorem marcar_needs_write_role (s : session) (payload : MarcaPayload) (w : tv_write.world) :
  ((exists auth, dict_get (lit "auth") s = Some auth
                 /\ dict_get (lit "role") auth = Some (lit "write"))
   \/ ((api_marcar_registro s payload w).2 = w
       /\ ((api_marcar_registro s payload w).1 = Raised (HTTPException 401)
           \/ (api_marcar_registro s payload w).1 = Raised (HTTPException 403))))
  /\ forall e, (api_marcar_registro s payload w).1 = Raised e ->
       e = HTTPException 401 \/ e = HTTPException 403 \/ e = HTTPException 500.
Proof.
  unfold api_marcar_registro, depends_require_write, require_auth, require_write.
  destruct (dict_get (lit "auth") s) as [[|field auth]|] eqn:Hs.
  1,3: split; [right; split; [done|by left]|intros e [= <-]; by left].
  case_bool_decide as Hrole.
  - split; [left; by eexists|]. destruct main.tv as [m|].
    + destruct (tv_write.marcar_registro_sheet _ _ _ _ w) as [[res|e0] w'].
      * by intros e.
      * intros e [= <-]. by right; right.
    + intros e [= <-]. by right; right.
  - split; [right; split; [done|by right]|intros e [= <-]; right; by left].
Qed.

(** X8. The outcomes of [api_cliente] behind its session check.  It raises
    401 without a session, 400 for an identifier that is empty once trimmed,
    in both cases leaving the caches as they were, and 500 when the upstream
    lookup raises; in every other case it returns: the calls into the sheet
    module are guarded, so nothing they raise fails the request. *)
Theorem api_cliente_outcomes (s : session) (ida : str) (w : main.world) :
  match api_cliente s ida w with
  | (Raised e, w') =>
      (e = HTTPException 401 /\ require_auth s = Raised (HTTPException 401) /\ w' = w)
      \/ (e = HTTPException 400 /\ strip ida = [] /\ w' = w)
      \/ (e = HTTPException 500
          /\ exists e0, main.consultar (strip ida) w = (Raised e0, w'))
  | (Returned data, w') =>
      (exists auth, require_auth s = Returned auth)
      /\ strip ida ≠ []
      /\ exists d0 w1, main.consultar (strip ida) w = (Returned d0, w1)
                       /\ main.ph_cache w' = main.ph_cache w1
  end.
Proof.
  unfold api_cliente.
  destruct (require_auth s) as [auth|e] eqn:Hs.
  2:{ left. unfold require_auth in Hs.
      destruct (dict_get (lit "auth") s) as [[|??]|]; [|done|]; by injection Hs as <-. }
  unfold main.api_cliente. destruct (strip ida) as [|c0 ida'] eqn:Hida.
  { right. by left. }
  destruct (main.consultar (c0 :: ida') w) as [[d0|e0] w1] eqn:Hc.
  2:{ right. right. split; [done|]. by exists e0. }
  destruct (@main.tv A) as [m|].
  - pose proof (handler_facts.guarded_cache
                  (main.encontrar_abonado_por_nombre m (main.nombre_of d0)) None w1) as Hg.
    destruct (main.guarded _ None w1) as [[mm|] w2]; simpl in Hg.
    + split; [by eexists|]. split; [done|]. by exists d0, w1.
    + pose proof (handler_facts.guarded_cache
                    (main.obtener_usuario_cic_disponible m) None w2) as Hg'.
      destruct (main.guarded (main.obtener_usuario_cic_disponible m) None w2) as [disp w3].
      simpl in Hg'. split; [by eexists|]. split; [done|]. exists d0, w1.
      split; [done|]. by rewrite Hg', Hg.
  - split; [by eexists|]. split; [done|]. by exists d0, w1.
Qed.

(** X9. The shape of what [api_cliente] returns, on a record cache that
    holds normalised records: the eleven fields of the upstream record with
    the values the lookup gave them, followed by the seven fields the
    handler adds, AltaURL being the configured address, and after those by
    fila_propuesta exactly when a credential is proposed.  A credential is
    proposed when the sheet module is there, the search of the name gave no
    row (or raised) and the lookup of an available credential, made on the
    state that search left, returned one: fila_propuesta is then its row
    number and UsuarioPropuesto and CICPropuesto are its user name and its
    CIC; in every other case, that lookup raising included, there is no
    fila_propuesta and both are empty.  The handler overwrites no field of
    the record. *)
Theorem api_cliente_shape (ida : str) (w w' : main.world) (data : dict ph.scalar) :
  cache_ok (main.ph_cache w) ->
  main.api_cliente ida w = (Returned data, w') ->
  exists r,
    (main.consultar (strip ida) w).1 = Returned (ph.record_dict r)
    /\ Forall (fun k => dict_get k data = dict_get k (ph.record_dict r))
         (dict_keys (ph.record_dict r))
    /\ field "AltaURL" data = Some (ph.SStr main.ALTA_URL)
    /\ match field "fila_propuesta" data with
       | None => dict_keys data = dict_keys (ph.record_dict r) ++ added_keys
       | Some _ =>
           dict_keys data
           = dict_keys (ph.record_dict r) ++ added_keys ++ [lit "fila_propuesta"]
       end
    /\ exists proposal : option tv.Disp,
         match main.tv with
         | None => proposal = None
         | Some m =>
             match main.guarded
                     (main.encontrar_abonado_por_nombre m (main.nombre_of (ph.record_dict r)))
                     None (main.consultar (strip ida) w).2 with
             | (Some _, _) => proposal = None
             | (None, w2) =>
                 proposal = (main.guarded (main.obtener_usuario_cic_disponible m) None w2).1
             end
         end
         /\ field "fila_propuesta" data
            = (fun d => ph.SInt (Z.of_nat (tv.row_index d))) <$> proposal
         /\ field "UsuarioPropuesto" data
            = Some (ph.SStr (match proposal with Some d => tv.disp_usuario d | None => [] end))
         /\ field "CICPropuesto" data
            = Some (ph.SStr (match proposal with Some d => tv.disp_cic d | None => [] end)).
Proof.
  intros Hok. unfold main.api_cliente.
  destruct (strip ida) as [|c0 ida'] eqn:Hida; [done|].
  destruct (main.consultar (c0 :: ida') w) as [[d0|e] w1] eqn:Hc; [|done].
  pose proof Hc as Hc'.
  apply (handler_facts.consultar_record _ _ _ _ Hok) in Hc' as [[r ->] Hok1].
  cbn [fst snd].
  destruct (@main.tv A) as [m|].
  - destruct (main.guarded _ None w1) as [[mm|] w2] eqn:Hg.
    + intros [= <- <-]. exists r. split; [done|].
      split; [repeat constructor|]. split; [reflexivity|]. split; [reflexivity|].
      exists None. rewrite Hg. repeat split.
    + destruct (main.guarded (main.obtener_usuario_cic_disponible m) None w2)
        as [[d|] w3] eqn:Hg'; intros [= <- <-]; exists r; (split; [done|]);
        (split; [repeat constructor|]; split; [reflexivity|]; split; [reflexivity|]).
      * exists (Some d). rewrite Hg, Hg'. repeat split.
      * exists None. rewrite Hg, Hg'. repeat split.
  - intros [= <- <-]. exists r. split; [done|].
    split; [repeat constructor|]. split; [reflexivity|]. split; [reflexivity|].
    exists None. repeat split.
Qed.

End Routes.

End routes_facts.

(** ** The record cache, continued *)
Module record_cache_facts.
Import py cache_spec heap_spec.

Section RecordCache.
Context {V H : Type} {C : ph.Config V H}.

(** X10. A hit of the record cache is never stale: the value that
    [_cache_get] returns is the copy of an entry stored under the key no longer
    ago than the time to live, and that entry is then the most recent of the
    cache. *)
Theorem record_hit_is_fresh (now : Z) (key : str) (c c' : ph.cache V) (h h' : H) (v : V) :
  ph._cache_get now key c h = (Returned (Some v), c', h') ->
  exists ts data,
    (key, (ts, data)) ∈ c
    /\ (now - ts <= ph.CACHE_TTL)%Z
    /\ (0 < ph.CACHE_TTL)%Z
    /\ ph.dict_copy h data = Returned (v, h')
    /\ last c' = Some (key, (ts, data)).
Proof.
  unfold ph._cache_get. destruct (Z.leb_spec ph.CACHE_TTL 0) as [|Hon]; [done|].
  destruct (dict_get key (ph._purge_expired now c)) as [[ts data]|] eqn:Hget; [|done].
  destruct (ph.dict_copy h data) as [[v0 h0]|e] eqn:Hcopy; [|done].
  intros [= <- <- <-]. exists ts, data.
  pose proof (cache_facts.dict_get_Some_elem _ _ _ Hget) as Hin.
  rewrite cache_facts.purge_enabled in Hin by done.
  apply list_elem_of_In, filter_In in Hin as [Hin Hfresh].
  apply list_elem_of_In in Hin. unfold ph.expired in Hfresh. simpl in Hfresh.
  apply negb_true_iff, Z.ltb_ge in Hfresh.
  split; [done|]. split; [lia|]. split; [done|]. split; [done|].
  rewrite (cache_facts.move_to_end_eq _ _ _ Hget). by rewrite last_snoc.
Qed.

Lemma popitems_unbounded (c : ph.cache V) :
  (ph.CACHE_MAX <= 0)%Z -> ph.popitems c = ([], c).
Proof.
  intros Hmax. destruct c as [|e c]; [done|]. simpl.
  destruct (Z.ltb_spec 0 ph.CACHE_MAX) as [|_]; [lia|]. by rewrite andb_false_r.
Qed.

(** X11. A capacity of zero or less switches the bound off, not the cache:
    [_cache_set] then evicts nothing, so the cache after it holds the entry
    just stored, as its most recent one, and every entry under another key
    that has not expired. *)
Theorem nonpositive_max_is_unbounded (now : Z) (key : str) (value v : V)
    (c : ph.cache V) (h h' : H) :
  (ph.CACHE_MAX <= 0)%Z -> (0 < ph.CACHE_TTL)%Z ->
  ph.dict_copy h value = Returned (v, h') ->
  evicted now key v c = []
  /\ last (ph._cache_set now key value c h).1.2 = Some (key, (now, v))
  /\ forall e, e ∈ c -> e.1 ≠ key -> (now - e.2.1 <= ph.CACHE_TTL)%Z ->
       e ∈ (ph._cache_set now key value c h).1.2.
Proof.
  intros Hmax Hon Hcopy. unfold evicted, ph._cache_set.
  destruct (Z.leb_spec ph.CACHE_TTL 0) as [|_]; [lia|]. rewrite Hcopy.
  rewrite popitems_unbounded by done. cbn [fst snd].
  rewrite cache_facts.stored_eq. split; [done|]. split; [by rewrite last_snoc|].
  intros e He Hkey Hfresh. apply elem_of_app. left.
  unfold dict_pop. apply list_elem_of_In, filter_In. split.
  - apply list_elem_of_In. rewrite cache_facts.purge_enabled by done.
    apply list_elem_of_In, filter_In. split; [by apply list_elem_of_In|].
    unfold ph.expired. apply negb_true_iff, Z.ltb_ge. lia.
  - apply negb_true_iff. by apply bool_decide_eq_false_2.
Qed.

End RecordCache.

Section Lookup.
Context {E : ph.Env}.

Lemma dict_get_filter_None {W : Type} (p : str * W -> bool) (k : str) (d : dict W) :
  dict_get k d = None -> dict_get k (List.filter p d) = None.
Proof.
  induction d as [|[k' v] d IH]; simpl; [done|].
  destruct (decide (k = k')) as [->|Hne]; [done|]. intros Hd.
  destruct (p (k', v)); simpl; [rewrite decide_False by done|]; by apply IH.
Qed.

Lemma dict_get_filter_Some {W : Type} (p : str * W -> bool) (k : str) (x : W) (d : dict W) :
  dict_get k d = Some x -> p (k, x) = true -> dict_get k (List.filter p d) = Some x.
Proof.
  induction d as [|[k' v] d IH]; simpl; [done|].
  destruct (decide (k = k')) as [<-|Hne].
  - intros [= ->] Hp. rewrite Hp. simpl. by rewrite decide_True.
  - intros Hd Hp. destruct (p (k', v)); simpl; [rewrite decide_False by done|]; by apply IH.
Qed.

(** A lookup on a cache that holds a fresh entry for the identifier. *)
Lemma lookup_on_cached (E' : ph.Env) (ttl max t3 t4 ida_int ts : Z)
    (c2 : ph.cache (dict ph.scalar)) (data : dict ph.scalar) :
  (0 < ttl)%Z -> dict_get (str_of_Z ida_int) c2 = Some (ts, data) -> (t3 - ts <= ttl)%Z ->
  @ph.consultar_y_transformar_masiva E' _ (ph.pure_config _ ttl max) t3 t4 ida_int c2 ()
  = (Returned data,
     move_to_end (str_of_Z ida_int) (@ph._purge_expired _ _ (ph.pure_config _ ttl max) t3 c2),
     ()).
Proof.
  intros Hon Hget Hfresh.
  set (C := ph.pure_config (dict ph.scalar) ttl max) in *.
  unfold ph.consultar_y_transformar_masiva, ph._cache_get.
  destruct (Z.leb_spec (@ph.CACHE_TTL _ _ C) 0) as [Hoff|_].
  { simpl in Hoff. lia. }
  rewrite cache_facts.purge_enabled by done.
  rewrite (dict_get_filter_Some _ _ _ _ Hget); [done|].
  unfold ph.expired. apply negb_true_iff, Z.ltb_ge. simpl. lia.
Qed.

(** X12. A record that was fetched is served from the cache.  With a
    positive time to live, a lookup that misses the cache and returns a
    record leaves it in the cache as the most recent entry, stamped with the
    reading of the clock at which [_cache_set] stored it.  The next lookup
    of the same identifier, run on the cache that the first one left, with
    nothing in between, at a reading of the clock no later than the time to
    live after the stamp, returns the same record whatever the upstream
    would answer then, also when it is down, and only purges the cache.  In
    general, on any cache that holds an entry under the identifier (what
    came in between, an eviction included, shows in that cache), a lookup
    no later than the time to live after the stamp of the entry returns the
    record of the entry without asking the upstream, and makes the entry the
    most recent. *)
Theorem fetched_record_is_served (E' : ph.Env) (ttl max t1 t2 t3 t4 ida_int : Z)
    (c c0 c1 : ph.cache (dict ph.scalar)) (data : dict ph.scalar) :
  (0 < ttl)%Z ->
  @ph._cache_get _ _ (ph.pure_config _ ttl max) t1 (str_of_Z ida_int) c ()
    = (Returned None, c0, ()) ->
  @ph.consultar_y_transformar_masiva E _ (ph.pure_config _ ttl max) t1 t2 ida_int c ()
    = (Returned data, c1, ()) ->
  last c1 = Some (str_of_Z ida_int, (t2, data))
  /\ ((t3 - t2 <= ttl)%Z ->
      @ph.consultar_y_transformar_masiva E' _ (ph.pure_config _ ttl max) t3 t4 ida_int c1 ()
      = (Returned data, @ph._purge_expired _ _ (ph.pure_config _ ttl max) t3 c1, ()))
  /\ forall c2 ts data',
       dict_get (str_of_Z ida_int) c2 = Some (ts, data') -> (t3 - ts <= ttl)%Z ->
       @ph.consultar_y_transformar_masiva E' _ (ph.pure_config _ ttl max) t3 t4 ida_int c2 ()
       = (Returned data',
          move_to_end (str_of_Z ida_int)
            (@ph._purge_expired _ _ (ph.pure_config _ ttl max) t3 c2), ()).
Proof.
  intros Hon Hmiss Hrun.
  set (C := ph.pure_config (dict ph.scalar) ttl max) in *.
  assert (Hends : ends_with (str_of_Z ida_int) (t2, data) c1).
  { revert Hrun. unfold ph.consultar_y_transformar_masiva. rewrite Hmiss.
    destruct (ph.consulta_masiva_por_id ida_int) as [[[|field record]|]|e]; try done.
    destruct (ph.transformar_desde_masiva (field :: record)) as [d|e]; [|done].
    unfold ph._cache_set. destruct (Z.leb_spec (@ph.CACHE_TTL _ _ C) 0) as [Hoff|_].
    { simpl in Hoff. lia. }
    cbn [ph.dict_copy C ph.pure_config]. intros [= <- <-].
    apply copy_facts.ends_with_popitems, copy_facts.ends_with_stored. }
  split; [|split].
  - destruct Hends as (d0 & -> & _). by rewrite last_snoc.
  - intros Hfresh. unfold ph.consultar_y_transformar_masiva, ph._cache_get.
    destruct (Z.leb_spec (@ph.CACHE_TTL _ _ C) 0) as [Hoff|_].
    { simpl in Hoff. lia. }
    assert (Hends' : ends_with (str_of_Z ida_int) (t2, data) (ph._purge_expired t3 c1))
      by (by apply copy_facts.ends_with_purge).
    rewrite (copy_facts.ends_with_get _ _ _ Hends').
    by rewrite (copy_facts.ends_with_move _ _ _ Hends').
  - intros c2 ts data' Hget Hfresh.
    exact (lookup_on_cached E' ttl max t3 t4 ida_int ts c2 data' Hon Hget Hfresh).
Qed.

(** X13. A failed lookup is not cached: when
    [consultar_y_transformar_masiva] raises, whatever the reason, the cache
    it leaves holds no entry for the identifier, so that every later read of
    the key misses and the next lookup goes to the upstream again. *)
Theorem failed_lookup_is_not_cached (ttl max t1 t2 ida_int : Z)
    (c c1 : ph.cache (dict ph.scalar)) (e : exn) :
  @ph.consultar_y_transformar_masiva E _ (ph.pure_config _ ttl max) t1 t2 ida_int c ()
    = (Raised e, c1, ()) ->
  (0 < ttl -> dict_get (str_of_Z ida_int) c1 = None)%Z
  /\ forall t, (@ph._cache_get _ _ (ph.pure_config _ ttl max) t (str_of_Z ida_int) c1 ()).1.1
               = Returned None.
Proof.
  set (C := ph.pure_config (dict ph.scalar) ttl max).
  intros Hrun.
  assert (Hkey : (0 < ttl)%Z -> dict_get (str_of_Z ida_int) c1 = None).
  { intros Hon. revert Hrun. unfold ph.consultar_y_transformar_masiva, ph._cache_get.
    destruct (Z.leb_spec (@ph.CACHE_TTL _ _ C) 0) as [Hoff|_]; [simpl in Hoff; lia|].
    destruct (dict_get (str_of_Z ida_int) (ph._purge_expired t1 c)) as [[ts d]|] eqn:Hget.
    { by cbn [ph.dict_copy C ph.pure_config]. }
    assert (Hset : forall d, exists c2,
               ph._cache_set t2 (str_of_Z ida_int) d (ph._purge_expired t1 c) ()
               = (Returned (), c2, ())).
    { intros d. unfold ph._cache_set. destruct (ph.CACHE_TTL <=? 0)%Z; by eexists. }
    destruct (ph.consulta_masiva_por_id ida_int) as [[[|field record]|]|e0];
      try (by intros [= _ <-]).
    destruct (ph.transformar_desde_masiva (field :: record)) as [d|e0];
      [|by intros [= _ <-]].
    destruct (Hset d) as [c2 ->]. done. }
  split; [done|]. intros t. unfold ph._cache_get.
  destruct (Z.leb_spec (@ph.CACHE_TTL _ _ C) 0) as [|Hon]; [done|].
  simpl in Hon. specialize (Hkey Hon).
  rewrite cache_facts.purge_enabled by done.
  by rewrite (dict_get_filter_None _ _ _ Hkey).
Qed.

End Lookup.

End record_cache_facts.

(** ** The sheet helpers, continued *)
Module lookup_facts.
Import py tv tv_spec.

Lemma startswith_refl (a : str) : startswith a a = true.
Proof. induction a as [|x a IH]; simpl; [done|]. by rewrite N.eqb_refl. Qed.

Lemma elem_of_dict_set {V : Type} (k : str) (v : V) (d : dict V) (e : str * V) :
  e ∈ dict_set k v d -> e = (k, v) \/ e ∈ d.
Proof.
  induction d as [|[k' v'] d IH]; simpl.
  - intros He%list_elem_of_singleton. by left.
  - destruct (decide (k = k')) as [->|Hne].
    + intros [->|He]%elem_of_cons; [by left|right; by right].
    + intros [->|He]%elem_of_cons; [right; by left|].
      destruct (IH He) as [->|Hd]; [by left|right; by right].
Qed.

Lemma dict_get_set (k k' : str) {V : Type} (v : V) (d : dict V) :
  dict_get k' (dict_set k v d) = if decide (k' = k) then Some v else dict_get k' d.
Proof.
  destruct (decide (k' = k)) as [->|Hne].
  - apply cache_facts.dict_get_set_eq.
  - apply cache_facts.dict_get_set_ne. congruence.
Qed.

Section Lookup.
Context {U : Unicode}.

(** The table [normalised] of [_find_key]: every entry pairs the collapsed
    form of a key with that key, and every key has an entry under its
    collapsed form. *)
Lemma normalised_table (keys seen : list str) (d : dict str) :
  (forall e, e ∈ d -> e.1 = _normkey e.2 /\ e.2 ∈ seen) ->
  (forall k, k ∈ seen -> exists kr, dict_get (_normkey k) d = Some kr) ->
  let normalised := foldl (fun d key => dict_set (_normkey key) key d) d keys in
  (forall e, e ∈ normalised -> e.1 = _normkey e.2 /\ e.2 ∈ seen ++ keys)
  /\ (forall k, k ∈ seen ++ keys -> exists kr, dict_get (_normkey k) normalised = Some kr).
Proof.
  revert seen d. induction keys as [|key keys IH]; intros seen d Ha Hb; simpl.
  { rewrite app_nil_r. by split. }
  replace (seen ++ key :: keys) with ((seen ++ [key]) ++ keys)
    by (by rewrite <- app_assoc).
  apply IH.
  - intros e [->|He]%elem_of_dict_set.
    + split; [done|]. apply elem_of_app. right. by apply list_elem_of_singleton.
    + destruct (Ha e He) as [? ?]. split; [done|]. apply elem_of_app. by left.
  - intros k [Hk|Hk%list_elem_of_singleton]%elem_of_app; [|subst k]; rewrite dict_get_set.
    + destruct (decide (_normkey k = _normkey key)); [by eexists|by apply Hb].
    + rewrite decide_True by done. by eexists.
Qed.

Lemma find_exact_spec (normalised : dict str) (desired : list str) :
  match find_exact normalised desired with
  | Some k => exists cand, cand ∈ desired /\ dict_get cand normalised = Some k
  | None => forall cand, cand ∈ desired -> dict_get cand normalised = None
  end.
Proof.
  induction desired as [|cand desired IH]; simpl.
  - intros cand Hc. by apply elem_of_nil in Hc.
  - destruct (dict_get cand normalised) as [k|] eqn:Hget.
    + exists cand. split; [left|done].
    + destruct (find_exact normalised desired) as [k|].
      * destruct IH as (c & Hc & Hk). exists c. split; [by right|done].
      * intros c [->|Hc]%elem_of_cons; [done|by apply IH].
Qed.

Lemma find_prefixed_spec (cand : str) (items : dict str) :
  match find_prefixed cand items with
  | Some k => exists kn, (kn, k) ∈ items /\ startswith kn cand = true
  | None => forall e, e ∈ items -> startswith e.1 cand = false
  end.
Proof.
  induction items as [|[kn kr] items IH]; simpl.
  - intros e He. by apply elem_of_nil in He.
  - destruct (startswith kn cand) eqn:Hs.
    + exists kn. split; [left|done].
    + destruct (find_prefixed cand items) as [k|].
      * destruct IH as (kn' & Hin & Hs'). exists kn'. split; [by right|done].
      * intros e [->|He]%elem_of_cons; [done|by apply IH].
Qed.

Lemma find_prefix_spec (normalised : dict str) (desired : list str) :
  match find_prefix normalised desired with
  | Some k => exists cand kn, cand ∈ desired /\ (kn, k) ∈ normalised
                              /\ startswith kn cand = true
  | None => forall cand e, cand ∈ desired -> e ∈ normalised -> startswith e.1 cand = false
  end.
Proof.
  induction desired as [|cand desired IH]; simpl.
  - intros cand e Hc. by apply elem_of_nil in Hc.
  - pose proof (find_prefixed_spec cand normalised) as Hp.
    destruct (find_prefixed cand normalised) as [k|].
    + destruct Hp as (kn & Hin & Hs). exists cand, kn. split; [left|done].
    + destruct (find_prefix normalised desired) as [k|].
      * destruct IH as (c & kn & Hc & Hin & Hs). exists c, kn. split; [by right|done].
      * intros c e [->|Hc]%elem_of_cons He; [by apply Hp|by apply IH].
Qed.

(** X14. [_find_key] never makes up a key: what it returns is a key of the
    row whose collapsed form starts with the collapsed form of one of the
    candidates, and it is equal to the collapsed form of a candidate
    whenever some key of the row is (an exact match goes before every
    prefix match).  It returns nothing only when no key of the row starts,
    once collapsed, with a collapsed candidate. *)
Theorem find_key_spec (row : record) (candidates : list string) :
  match _find_key row candidates with
  | Some k =>
      k ∈ dict_keys row
      /\ (exists c, c ∈ candidates
                    /\ startswith (_normkey k) (_normkey (lit c)) = true)
      /\ ((exists k' c', k' ∈ dict_keys row /\ c' ∈ candidates
                         /\ _normkey k' = _normkey (lit c')) ->
          exists c, c ∈ candidates /\ _normkey k = _normkey (lit c))
  | None =>
      forall k c, k ∈ dict_keys row -> c ∈ candidates ->
        startswith (_normkey k) (_normkey (lit c)) = false
  end.
Proof.
  unfold _find_key. destruct row as [|field row'].
  { intros k c Hk. by apply elem_of_nil in Hk. }
  set (row := field :: row').
  destruct (normalised_table (dict_keys row) [] []) as [Ha Hb].
  { intros e He. by apply elem_of_nil in He. }
  { intros k Hk. by apply elem_of_nil in Hk. }
  cbn [app] in Ha, Hb.
  set (normalised := foldl (fun d key => dict_set (_normkey key) key d) [] (dict_keys row)) in *.
  set (desired := (fun c => _normkey (lit c)) <$> candidates).
  pose proof (find_exact_spec normalised desired) as Hexact.
  destruct (find_exact normalised desired) as [k|].
  - destruct Hexact as (cand & Hcand & Hget).
    apply list_elem_of_fmap in Hcand as (c & -> & Hc).
    apply cache_facts.dict_get_Some_elem in Hget. destruct (Ha _ Hget) as [Hn Hk].
    simpl in Hn, Hk. split; [done|]. split.
    + exists c. split; [done|]. rewrite <- Hn. apply startswith_refl.
    + intros _. by exists c.
  - pose proof (find_prefix_spec normalised desired) as Hprefix.
    destruct (find_prefix normalised desired) as [k|].
    + destruct Hprefix as (cand & kn & Hcand & Hin & Hs).
      apply list_elem_of_fmap in Hcand as (c & -> & Hc).
      destruct (Ha _ Hin) as [Hn Hk]. simpl in Hn, Hk. subst kn.
      split; [done|]. split; [by exists c|].
      intros (k' & c' & Hk' & Hc' & Heq). destruct (Hb k' Hk') as [kr Hkr].
      rewrite Heq in Hkr. rewrite Hexact in Hkr; [done|].
      apply list_elem_of_fmap. by exists c'.
    + intros k c Hk Hc. destruct (Hb k Hk) as [kr Hkr].
      apply cache_facts.dict_get_Some_elem in Hkr.
      apply (Hprefix (_normkey (lit c)) (_normkey k, kr)); [|exact Hkr].
      apply list_elem_of_fmap. by exists c.
Qed.

(** X15. [encontrar_abonado_por_nombre] matches by the words of the name
    in any order: the loop over the rows returns the first row that has a
    name column (found by [_find_key], not empty) whose name has the same
    tokens as the name searched up to their order, with the abonado, cic and
    usuario read from that row; it returns nothing exactly when no row has
    such a name. *)
Theorem name_match_is_token_permutation (nombre_busqueda : str) (rows : list record) :
  match match_rows (_name_signature nombre_busqueda) rows with
  | Some m =>
      exists i key,
        rows !! i = Some (row m) /\ m = match_of (row m)
        /\ _find_key (row m) name_candidates = Some key /\ key ≠ []
        /\ name_tokens (default [] (dict_get key (row m))) ≡ₚ name_tokens nombre_busqueda
        /\ forall i' r' key', i' < i -> rows !! i' = Some r' ->
             _find_key r' name_candidates = Some key' -> key' ≠ [] ->
             ~ name_tokens (default [] (dict_get key' r')) ≡ₚ name_tokens nombre_busqueda
  | None =>
      forall r key, r ∈ rows -> _find_key r name_candidates = Some key -> key ≠ [] ->
        ~ name_tokens (default [] (dict_get key r)) ≡ₚ name_tokens nombre_busqueda
  end.
Proof.
  unfold _name_signature. induction rows as [|r rows IH]; simpl.
  { intros r key Hr. by apply elem_of_nil in Hr. }
  assert (Hskip :
    (forall key, _find_key r name_candidates = Some key -> key ≠ [] ->
       ~ name_tokens (default [] (dict_get key r)) ≡ₚ name_tokens nombre_busqueda) ->
    match match_rows (Counter_of (name_tokens nombre_busqueda)) rows with
    | Some m =>
        exists i key,
          (r :: rows) !! i = Some (row m) /\ m = match_of (row m)
          /\ _find_key (row m) name_candidates = Some key /\ key ≠ []
          /\ name_tokens (default [] (dict_get key (row m))) ≡ₚ name_tokens nombre_busqueda
          /\ forall i' r' key', i' < i -> (r :: rows) !! i' = Some r' ->
               _find_key r' name_candidates = Some key' -> key' ≠ [] ->
               ~ name_tokens (default [] (dict_get key' r')) ≡ₚ name_tokens nombre_busqueda
    | None =>
        forall r0 key, r0 ∈ r :: rows -> _find_key r0 name_candidates = Some key ->
          key ≠ [] ->
          ~ name_tokens (default [] (dict_get key r0)) ≡ₚ name_tokens nombre_busqueda
    end).
  { intros Hr. destruct (match_rows _ rows) as [m|].
    - destruct IH as (i & key & Hi & Hm & Hkey & Hne & Hperm & Hfirst).
      exists (S i), key. repeat (split; [done|]).
      intros [|i'] r' key' Hlt Hr'; simpl in Hr'.
      + injection Hr' as <-. apply Hr.
      + apply (Hfirst i'); [lia|done].
    - intros r0 key [->|Hr0]%elem_of_cons; [apply Hr|by apply IH]. }
  destruct (_find_key r name_candidates) as [[|c k]|] eqn:Hkey.
  - apply Hskip. by intros key [= <-].
  - destruct (Counter_eqb _ _) eqn:Heq.
    + unfold _name_signature in Heq.
      apply signature_facts.Counter_of_eqb_perm in Heq.
      exists 0, (c :: k). cbn [row]. repeat (split; [done|]).
      intros i' r' key' Hlt. lia.
    + apply Hskip. intros key [= <-] _ Hperm.
      apply signature_facts.Counter_of_eqb_perm in Hperm.
      unfold _name_signature in Heq. congruence.
  - apply Hskip. by intros key.
Qed.

(** X16. The header row is a row of the matrix: for a matrix that is not
    empty the index that [load_data_from_sheet] picks is below 5 and below
    the number of rows, so that reading the header row never fails. *)
Theorem header_row_in_range (values : grid) :
  match values with
  | [] => header_index values = 0
  | _ => header_index values < 5
         /\ exists header_raw, values !! header_index values = Some header_raw
  end.
Proof.
  destruct values as [|r0 values]; [done|].
  assert (Hrow : exists r, take 5 (r0 :: values) !! header_index (r0 :: values) = Some r).
  { destruct (sheet_facts.header_index_spec (r0 :: values) ltac:(done))
      as [(r & Hr & _)|(_ & r & Hr & _)]; by exists r. }
  destruct Hrow as [r Hr]. split.
  - apply lookup_lt_Some in Hr. rewrite length_take in Hr. lia.
  - exists r. by apply lookup_take_Some in Hr as [Hr _].
Qed.

Section Reload.
Context {Sh : Sheet}.

Lemma cache_set_on (key : string) (v : sheet_value) (w : world) :
  (0 < SHEET_TTL)%Z ->
  cache_set key v w
  = (Returned (),
     {| sheet_cache := <[lit key := (clock (clock_reads w), v)]> (sheet_cache w);
        clock_reads := S (clock_reads w); sheet_reads := sheet_reads w |}).
Proof.
  intros Hon. unfold cache_set, _cache_set. cbn [SHEET_CACHE_TTL sheet_config pure_config].
  destruct (Z.leb_spec SHEET_TTL 0) as [|_]; [lia|]. done.
Qed.

Lemma cached_matrix_at (w : world) :
  (0 < SHEET_TTL)%Z ->
  cached_matrix w
  = match sheet_cache w !! lit "matrix" with
    | Some (ts, Matrix values) =>
        if (SHEET_TTL <? clock (clock_reads w) - ts)%Z
        then (Returned None,
              {| sheet_cache := delete (lit "matrix") (sheet_cache w);
                 clock_reads := S (clock_reads w); sheet_reads := sheet_reads w |})
        else (Returned (Some values),
              {| sheet_cache := sheet_cache w;
                 clock_reads := S (clock_reads w); sheet_reads := sheet_reads w |})
    | Some (ts, Records _) =>
        if (SHEET_TTL <? clock (clock_reads w) - ts)%Z
        then (Returned None,
              {| sheet_cache := delete (lit "matrix") (sheet_cache w);
                 clock_reads := S (clock_reads w); sheet_reads := sheet_reads w |})
        else (Raised TypeError,
              {| sheet_cache := sheet_cache w;
                 clock_reads := S (clock_reads w); sheet_reads := sheet_reads w |})
    | None =>
        (Returned None,
         {| sheet_cache := sheet_cache w;
            clock_reads := S (clock_reads w); sheet_reads := sheet_reads w |})
    end.
Proof.
  intros Hon. unfold cached_matrix, mbind, M_bind, cache_get, _cache_get.
  cbn [SHEET_CACHE_TTL sheet_config pure_config deepcopy].
  destruct (Z.leb_spec SHEET_TTL 0) as [|_]; [lia|].
  destruct (sheet_cache w !! lit "matrix") as [[ts [values|records]]|]; [| |done].
  - by destruct (SHEET_TTL <? clock (clock_reads w) - ts)%Z.
  - by destruct (SHEET_TTL <? clock (clock_reads w) - ts)%Z.
Qed.

(** What a forced load leaves behind. *)
Lemma forced_load (w w1 : world) (rows : list record) :
  (0 < SHEET_TTL)%Z ->
  load_data_from_sheet true w = (Returned rows, w1) ->
  exists values,
    get_all_values (sheet_reads w) = Returned values
    /\ rows = records_of values
    /\ sheet_cache w1 !! lit "matrix" = Some (clock (clock_reads w), Matrix values)
    /\ sheet_reads w1 = S (sheet_reads w).
Proof.
  intros Hon. unfold load_data_from_sheet.
  unfold mbind at 1. unfold M_bind at 1. unfold mret at 1. unfold M_ret at 1.
  unfold mbind at 1. unfold M_bind at 1.
  unfold matrix_or_fetch, mbind at 1. unfold M_bind at 1. unfold fetch_values.
  destruct (get_all_values (sheet_reads w)) as [values|e]; [|done].
  unfold mbind at 1. unfold M_bind at 1. rewrite cache_set_on by done.
  unfold mret at 1. unfold M_ret at 1. cbn [sheet_cache clock_reads sheet_reads].
  destruct values as [|r0 values].
  - intros [= <- <-]. exists []. cbn [sheet_cache sheet_reads].
    rewrite lookup_insert_eq. done.
  - unfold mbind, M_bind. rewrite cache_set_on by done. unfold mret, M_ret.
    intros [= <- <-]. exists (r0 :: values). cbn [sheet_cache sheet_reads].
    rewrite lookup_insert_ne by done. rewrite lookup_insert_eq. done.
Qed.

(** A load on a state whose cache holds a matrix. *)
Lemma load_on_cached (w1 : world) (ts : Z) (values : grid) :
  (0 < SHEET_TTL)%Z ->
  sheet_cache w1 !! lit "matrix" = Some (ts, Matrix values) ->
  ((clock (clock_reads w1) - ts <= SHEET_TTL)%Z ->
   exists w2, load_data_from_sheet false w1 = (Returned (records_of values), w2)
              /\ sheet_reads w2 = sheet_reads w1)
  /\ ((SHEET_TTL < clock (clock_reads w1) - ts)%Z ->
      (load_data_from_sheet false w1).1
      = match get_all_values (sheet_reads w1) with
        | Returned values => Returned (records_of values)
        | Raised e => Raised e
        end).
Proof.
  intros Hon Hc. split.
  - intros Hfresh. unfold load_data_from_sheet.
    unfold mbind at 1. unfold M_bind at 1. rewrite cached_matrix_at by done. rewrite Hc.
    destruct (Z.ltb_spec SHEET_TTL (clock (clock_reads w1) - ts)) as [|_]; [lia|].
    unfold mbind at 1. unfold M_bind at 1. unfold matrix_or_fetch, mret at 1.
    unfold M_ret at 1. destruct values as [|r0 values].
    + eexists. split; [reflexivity|done].
    + unfold mbind, M_bind. rewrite cache_set_on by done. unfold mret, M_ret.
      eexists. split; [reflexivity|done].
  - intros Hstale. rewrite sheet_facts.load_records_of.
    assert (Heq : (cached_matrix ≫= matrix_or_fetch) w1
                  = matrix_or_fetch None
                      {| sheet_cache := delete (lit "matrix") (sheet_cache w1);
                         clock_reads := S (clock_reads w1);
                         sheet_reads := sheet_reads w1 |}).
    { change ((cached_matrix ≫= matrix_or_fetch) w1)
        with (match cached_matrix w1 with
              | (Returned a, w') => matrix_or_fetch a w'
              | (Raised e, w') => (Raised e, w')
              end).
      rewrite cached_matrix_at by done. rewrite Hc.
      destruct (Z.ltb_spec SHEET_TTL (clock (clock_reads w1) - ts)) as [_|]; [done|lia]. }
    rewrite Heq. unfold matrix_or_fetch, mbind, M_bind, fetch_values.
    cbn [sheet_reads sheet_cache clock_reads].
    destruct (get_all_values (sheet_reads w1)) as [vs|e]; [|done].
    rewrite cache_set_on by done. done.
Qed.

(** X17. After a forced load the rows are served from the cache.  With a
    positive time to live, a forced load that returns has read the sheet once
    and leaves its matrix in the cache, stamped with the reading of the clock
    at which it was stored.  The next load without [force_refresh], run on
    the state that the forced one left, with nothing in between, returns the
    same rows without reading the sheet when its reading of the clock is no
    later than the time to live after the stamp, and reads the sheet again
    when it is later.  In general, on any state whose cache holds a matrix
    (what came in between, a marking that clears the cache or a later load
    that stamps it anew, shows in that state), a load without
    [force_refresh] returns the rows of that matrix without reading the sheet
    when its reading of the clock is no later than the time to live after
    the stamp of the entry, and reads the sheet when it is later. *)
Theorem reload_within_ttl (w w1 : world) (rows : list record) :
  (0 < SHEET_TTL)%Z ->
  load_data_from_sheet true w = (Returned rows, w1) ->
  sheet_reads w1 = S (sheet_reads w)
  /\ ((clock (clock_reads w1) - clock (clock_reads w) <= SHEET_TTL)%Z ->
      exists w2, load_data_from_sheet false w1 = (Returned rows, w2)
                 /\ sheet_reads w2 = sheet_reads w1)
  /\ ((SHEET_TTL < clock (clock_reads w1) - clock (clock_reads w))%Z ->
      (load_data_from_sheet false w1).1
      = match get_all_values (sheet_reads w1) with
        | Returned values => Returned (records_of values)
        | Raised e => Raised e
        end)
  /\ (exists values,
        sheet_cache w1 !! lit "matrix" = Some (clock (clock_reads w), Matrix values)
        /\ rows = records_of values)
  /\ forall w3 ts values,
       sheet_cache w3 !! lit "matrix" = Some (ts, Matrix values) ->
       ((clock (clock_reads w3) - ts <= SHEET_TTL)%Z ->
        exists w4, load_data_from_sheet false w3 = (Returned (records_of values), w4)
                   /\ sheet_reads w4 = sheet_reads w3)
       /\ ((SHEET_TTL < clock (clock_reads w3) - ts)%Z ->
           (load_data_from_sheet false w3).1
           = match get_all_values (sheet_reads w3) with
             | Returned values => Returned (records_of values)
             | Raised e => Raised e
             end).
Proof.
  intros Hon Hload.
  destruct (forced_load _ _ _ Hon Hload) as (values & Hvalues & -> & Hc & Hreads).
  split; [done|].
  destruct (load_on_cached w1 _ _ Hon Hc) as [Hfresh Hstale].
  split; [done|]. split; [done|]. split; [by exists values|].
  intros w3 ts values'. by apply load_on_cached.
Qed.

End Reload.

End Lookup.

End lookup_facts.

(** ** The fields of the normalised record *)
Module fields_facts.
Import py ph errors ph_fields fields_spec.

(** *** Splitting and searching strings *)

Lemma split_nonempty (sep : char) (s : str) : split sep s ≠ [].
Proof.
  induction s as [|c s IH]; simpl; [done|].
  destruct (c =? sep)%N; [done|]. by destruct (split sep s).
Qed.

Lemma split_app (sep : char) (a b : str) :
  split sep (a ++ sep :: b) = split sep a ++ split sep b.
Proof.
  induction a as [|c a IH]; simpl.
  - by rewrite N.eqb_refl.
  - destruct (c =? sep)%N; [by rewrite IH|]. rewrite IH.
    pose proof (split_nonempty sep a). by destruct (split sep a).
Qed.

Lemma startswith_app (p x y : str) :
  startswith p (x ++ y) = true -> startswith p x = true.
Proof.
  revert p. induction x as [|c x IH]; intros p; simpl; [by destruct p|].
  destruct p as [|d p]; simpl; [done|]. intros [Hc Hp]%andb_true_iff.
  rewrite Hc. by apply IH.
Qed.

Lemma contains_app (x y p : str) :
  contains (x ++ y) p = true -> contains x p = true.
Proof.
  induction p as [|d p IH].
  - cbn [contains]. rewrite !orb_false_r. apply startswith_app.
  - cbn [contains]. intros [Hs|Hc]%orb_true_iff; apply orb_true_iff.
    + left. by apply startswith_app in Hs.
    + right. by apply IH.
Qed.

(** *** The search for an e-mail address *)

Ltac norm_app := repeat (progress (rewrite <- ?app_assoc; cbn [app])).

Lemma span_eq (cls : char -> bool) (s : str) : s = (span cls s).1 ++ (span cls s).2.
Proof.
  induction s as [|c s IH]; simpl; [done|].
  destruct (cls c); [|done]. destruct (span cls s) as [run rest]. simpl in *. by f_equal.
Qed.

Lemma span_all (cls : char -> bool) (s : str) : forallb cls (span cls s).1 = true.
Proof.
  induction s as [|c s IH]; simpl; [done|].
  destruct (cls c) eqn:Hc; [|done]. destruct (span cls s) as [run rest]. simpl in *.
  by rewrite Hc.
Qed.

Lemma span_app (cls : char -> bool) (l r : str) :
  forallb cls l = true ->
  span cls (l ++ r) = (l ++ (span cls r).1, (span cls r).2).
Proof.
  induction l as [|c l IH]; simpl.
  - intros _. by destruct (span cls r).
  - intros [Hc Hl]%andb_true_iff. rewrite Hc, (IH Hl). done.
Qed.

Lemma forallb_take (cls : char -> bool) (n : nat) (s : str) :
  forallb cls s = true -> forallb cls (take n s) = true.
Proof.
  revert n. induction s as [|c s IH]; intros [|n]; simpl; try done.
  intros [Hc Hs]%andb_true_iff. rewrite Hc. by apply IH.
Qed.

Lemma letter_is_domain (c : char) : is_letter c = true -> is_domain c = true.
Proof. unfold is_domain. by intros ->. Qed.

Lemma letters_are_domain (s : str) :
  forallb is_letter s = true -> forallb is_domain s = true.
Proof.
  induction s as [|c s IH]; simpl; [done|].
  intros [Hc Hs]%andb_true_iff. by rewrite (letter_is_domain _ Hc), IH.
Qed.

(** Where the match of the domain ends: after the letters that follow a dot
    of the run. *)
Lemma domain_end_sound (run : str) (n stop : nat) :
  domain_end run n = Some stop ->
  exists k,
    run !! k = Some 46%N
    /\ 2 <= length (span is_letter (drop (S k) run)).1
    /\ stop = n + k + 1 + length (span is_letter (drop (S k) run)).1.
Proof.
  revert n. induction run as [|c run IH]; intros n; cbn [domain_end]; [done|].
  destruct (domain_end run (S n)) as [stop'|] eqn:Hrest.
  - intros [= <-]. destruct (IH _ Hrest) as (k & Hk & Hlen & ->).
    exists (S k). simpl. split; [done|]. split; [done|lia].
  - destruct (N.eqb_spec c 46) as [->|]; [|done]. cbn [andb].
    destruct (Nat.leb_spec 2 (length (span is_letter run).1)) as [Hlen|]; [|done].
    intros [= <-]. exists 0. simpl. rewrite drop_0. split; [done|]. split; [done|lia].
Qed.

Lemma domain_end_complete (run : str) (n k : nat) :
  run !! k = Some 46%N ->
  2 <= length (span is_letter (drop (S k) run)).1 ->
  is_Some (domain_end run n).
Proof.
  revert n k. induction run as [|c run IH]; intros n k; [done|].
  cbn [domain_end]. destruct k as [|k].
  - intros [= ->]. cbn [drop]. rewrite drop_0. intros Hlen.
    destruct (domain_end run (S n)); [done|]. cbn [N.eqb Pos.eqb andb].
    destruct (Nat.leb_spec 2 (length (span is_letter run).1)); [done|lia].
  - intros Hk Hlen. simpl in Hk. cbn [drop] in Hlen.
    destruct (IH (S n) k Hk Hlen) as [stop ->]. done.
Qed.

Lemma match_domain_sound (s d : str) :
  match_domain s = Some d ->
  exists domain tld post,
    s = d ++ post /\ d = domain ++ [46%N] ++ tld
    /\ domain ≠ [] /\ forallb is_domain domain = true
    /\ 2 <= length tld /\ forallb is_letter tld = true.
Proof.
  unfold match_domain.
  pose proof (span_eq is_domain s) as Hs. pose proof (span_all is_domain s) as Hall.
  destruct (span is_domain s) as [run rest]. simpl in *.
  destruct run as [|c0 run']; [done|].
  destruct (domain_end run' 1) as [stop|] eqn:Hend; [|done]. intros [= <-].
  apply domain_end_sound in Hend as (k & Hk & Hlen & ->).
  pose proof (span_eq is_letter (drop (S k) run')) as Ht.
  pose proof (span_all is_letter (drop (S k) run')) as Htall.
  destruct (span is_letter (drop (S k) run')) as [t t_rest]. simpl in *.
  pose proof (take_drop_middle _ _ _ Hk) as Hrun. rewrite Ht in Hrun.
  assert (Hk' : length (take k run') = k).
  { apply lookup_lt_Some in Hk. rewrite length_take. lia. }
  assert (Hpre : forallb is_domain (take k run') = true).
  { apply andb_true_iff in Hall as [_ Hall]. by apply forallb_take. }
  apply andb_true_iff in Hall as [Hc0 _].
  remember (take k run') as pre eqn:Heqpre. clear Heqpre Hk Ht. subst run' s k.
  exists (c0 :: pre), t, (t_rest ++ rest).
  assert (Htake : take (S (length pre + 1 + length t))
                    (c0 :: (pre ++ 46%N :: t ++ t_rest) ++ rest)
                  = (c0 :: pre) ++ [46%N] ++ t).
  { replace (c0 :: (pre ++ 46%N :: t ++ t_rest) ++ rest)
      with (((c0 :: pre) ++ [46%N] ++ t) ++ t_rest ++ rest)
      by (by norm_app).
    rewrite take_app_length'; [done|]. rewrite !length_app. simpl. lia. }
  rewrite Htake. split; [by norm_app|].
  split; [done|]. split; [done|]. split; [|done].
  simpl. by rewrite Hc0.
Qed.

Lemma match_domain_complete (domain tld post : str) :
  domain ≠ [] -> forallb is_domain domain = true ->
  2 <= length tld -> forallb is_letter tld = true ->
  is_Some (match_domain (domain ++ [46%N] ++ tld ++ post)).
Proof.
  intros Hne Hdom Hlen Htld. unfold match_domain.
  assert (Hall : forallb is_domain (domain ++ [46%N] ++ tld) = true).
  { rewrite !forallb_app. apply andb_true_iff. split; [exact Hdom|].
    apply andb_true_iff. split; [done|]. by apply letters_are_domain. }
  replace (domain ++ [46%N] ++ tld ++ post) with ((domain ++ [46%N] ++ tld) ++ post)
    by (by rewrite <- !app_assoc).
  rewrite (span_app _ _ _ Hall). cbn [fst].
  destruct domain as [|c0 dom']; [done|]. cbn [app].
  assert (Hend : is_Some (domain_end (dom' ++ 46%N :: tld ++ (span is_domain post).1) 1)).
  { apply (domain_end_complete _ 1 (length dom')).
    - by apply list_lookup_middle.
    - replace (dom' ++ 46%N :: tld ++ (span is_domain post).1)
        with ((dom' ++ [46%N]) ++ tld ++ (span is_domain post).1)
        by (by rewrite <- app_assoc).
      rewrite drop_app_length'; [|rewrite length_app; simpl; lia].
      rewrite (span_app _ _ _ Htld). cbn [fst]. rewrite length_app. lia. }
  rewrite <- app_assoc. cbn [app]. destruct Hend as [stop ->]. done.
Qed.

Lemma match_here_sound (s m : str) :
  match_here s = Some m -> email_shaped m /\ exists post, s = m ++ post.
Proof.
  unfold match_here.
  pose proof (span_eq is_local s) as Hs. pose proof (span_all is_local s) as Hall.
  destruct (span is_local s) as [user rest]. simpl in *.
  destruct user as [|u0 user]; [done|]. destruct rest as [|c rest]; [done|].
  destruct (N.eqb_spec c 64) as [->|Hc].
  2:{ destruct c as [|p]; [done|]. do 7 (destruct p as [p|p|]; try done). }
  destruct (match_domain rest) as [d|] eqn:Hd; [|done]. intros [= <-].
  apply match_domain_sound in Hd as (domain & tld & post & Hrest & -> & Hne & Hdom & Hlen & Htld).
  split.
  - exists (u0 :: user), domain, tld. by repeat split.
  - exists post. rewrite Hs, Hrest. by norm_app.
Qed.

Lemma match_here_complete (m post : str) :
  email_shaped m -> is_Some (match_here (m ++ post)).
Proof.
  intros (user & domain & tld & -> & Hne & Huser & Hdne & Hdom & Hlen & Htld).
  unfold match_here. rewrite <- !app_assoc. rewrite (span_app _ _ _ Huser).
  cbn [app span]. change (is_local 64%N) with false. cbn [fst snd]. rewrite app_nil_r.
  destruct user as [|u0 user]; [done|].
  destruct (match_domain_complete domain tld post Hdne Hdom Hlen Htld) as [d Hd].
  cbn [app] in Hd. rewrite Hd. done.
Qed.

Lemma occurs_at_head (m s : str) : occurs_at [] m s -> exists post, s = m ++ post.
Proof. intros [post ->]. by exists post. Qed.

(** What [_EMAIL_RE.search] finds. *)
Lemma email_search_spec (s : str) :
  match email_search s with
  | Some m =>
      email_shaped m
      /\ exists pre,
           occurs_at pre m s
           /\ forall pre' m', occurs_at pre' m' s -> email_shaped m' ->
                length pre <= length pre'
  | None => forall pre m, occurs_at pre m s -> ~ email_shaped m
  end.
Proof.
  induction s as [|c s IH].
  - simpl. intros pre m [post Hs] Hshape. symmetry in Hs.
    apply app_eq_nil in Hs as [-> Hs]. apply app_eq_nil in Hs as [-> ->].
    by destruct (match_here_complete [] [] Hshape) as [m' Hm'].
  - cbn [email_search]. destruct (match_here (c :: s)) as [m|] eqn:Hm.
    + apply match_here_sound in Hm as [Hshape [post Hpost]]. split; [done|].
      exists []. split; [by exists post|]. intros; simpl; lia.
    + assert (Hnot : forall m' post', c :: s = m' ++ post' -> ~ email_shaped m').
      { intros m' post' Hs Hshape.
        destruct (match_here_complete m' post' Hshape) as [m0 Hm0]. congruence. }
      destruct (email_search s) as [m|].
      * destruct IH as (Hshape & pre & [post Hpost] & Hleft). split; [done|].
        exists (c :: pre). split; [exists post; by rewrite Hpost|].
        intros pre' m' [post' Hs] Hshape'. destruct pre' as [|c' pre'].
        { by destruct (Hnot m' post' Hs Hshape'). }
        injection Hs as -> Hs. simpl. apply le_n_S. apply (Hleft pre' m'); [|done].
        by exists post'.
      * intros pre' m' [post' Hs] Hshape'. destruct pre' as [|c' pre'].
        { by destruct (Hnot m' post' Hs Hshape'). }
        injection Hs as -> Hs. apply (IH pre' m'); [|done]. by exists post'.
Qed.

(** X19. The search for an address finds what the pattern describes: the
    text it returns is one character or more of the first class, an at
    sign, one character or more of the second class, a dot and two letters
    or more; it occurs in the text searched, no text of that shape occurs
    further to the left, and nothing is returned only when no text of that
    shape occurs at all. *)
Theorem email_search_finds_the_pattern (s : str) :
  match email_search s with
  | Some m =>
      email_shaped m
      /\ exists pre,
           occurs_at pre m s
           /\ forall pre' m', occurs_at pre' m' s -> email_shaped m' ->
                length pre <= length pre'
  | None => forall pre m, occurs_at pre m s -> ~ email_shaped m
  end.
Proof. apply email_search_spec. Qed.

(** *** Splitting at whitespace and joining *)

Lemma runs_app (cls : char -> bool) (cur w s : str) :
  forallb cls w = true ->
  findall_runs cls cur (w ++ s) = findall_runs cls (reverse w ++ cur) s.
Proof.
  revert cur. induction w as [|c w IH]; intros cur; simpl; [done|].
  intros [Hc Hw]%andb_true_iff. rewrite Hc, (IH _ Hw).
  by rewrite reverse_cons, <- app_assoc.
Qed.

Lemma forallb_reverse (cls : char -> bool) (l : str) :
  forallb cls l = true -> forallb cls (reverse l) = true.
Proof.
  rewrite !forallb_forall. intros H x Hx. apply H.
  apply list_elem_of_In. apply elem_of_reverse. by apply list_elem_of_In.
Qed.

Lemma runs_spec (cls : char -> bool) (cur s : str) :
  forallb cls cur = true ->
  Forall (fun w => w ≠ [] /\ forallb cls w = true) (findall_runs cls cur s).
Proof.
  revert cur. induction s as [|c s IH]; intros cur Hcur; cbn [findall_runs].
  - destruct cur as [|c0 cur]; [done|]. constructor; [|done]. split.
    + intros Hr. apply (f_equal length) in Hr. rewrite length_reverse in Hr. done.
    + by apply forallb_reverse.
  - destruct (cls c) eqn:Hc.
    + apply IH. simpl. by rewrite Hc.
    + destruct cur as [|c0 cur]; [by apply IH|]. constructor; [|by apply IH]. split.
      * intros Hr. apply (f_equal length) in Hr. rewrite length_reverse in Hr. done.
      * by apply forallb_reverse.
Qed.

Lemma runs_elements (cls : char -> bool) (cur s : str) (w : str) (c : char) :
  w ∈ findall_runs cls cur s -> c ∈ w -> c ∈ cur \/ c ∈ s.
Proof.
  revert cur. induction s as [|c0 s IH]; intros cur; cbn [findall_runs].
  - destruct cur as [|c1 cur]; [by intros ?%elem_of_nil|].
    intros ->%list_elem_of_singleton Hc. left. by rewrite elem_of_reverse in Hc.
  - destruct (cls c0).
    + intros Hw Hc. destruct (IH _ Hw Hc) as [[->|H]%elem_of_cons|H].
      * right. left.
      * by left.
      * right. by right.
    + destruct cur as [|c1 cur].
      * intros Hw Hc. destruct (IH _ Hw Hc) as [H|H]; [by left|right; by right].
      * intros [->|Hw]%elem_of_cons Hc.
        -- left. by rewrite elem_of_reverse in Hc.
        -- destruct (IH _ Hw Hc) as [H|H]; [by apply elem_of_nil in H|right; by right].
Qed.

Lemma runs_join (cls : char -> bool) (sep : char) (ws : list str) :
  cls sep = false ->
  Forall (fun w => w ≠ [] /\ forallb cls w = true) ws ->
  findall_runs cls [] (join [sep] ws) = ws.
Proof.
  intros Hsep. induction ws as [|w ws IH]; [done|].
  intros [[Hne Hw] Hws]%Forall_cons. specialize (IH Hws).
  destruct ws as [|w' ws].
  - cbn [join]. rewrite <- (app_nil_r w) at 1. rewrite (runs_app _ _ _ _ Hw).
    rewrite app_nil_r. simpl. destruct (reverse w) eqn:Hr.
    + apply (f_equal length) in Hr. rewrite length_reverse in Hr. by destruct w.
    + by rewrite <- Hr, reverse_involutive.
  - change (join [sep] (w :: w' :: ws)) with (w ++ [sep] ++ join [sep] (w' :: ws)).
    rewrite (runs_app _ _ _ _ Hw). rewrite app_nil_r.
    cbn [app findall_runs]. rewrite Hsep. destruct (reverse w) eqn:Hr.
    + apply (f_equal length) in Hr. rewrite length_reverse in Hr. by destruct w.
    + rewrite <- Hr, reverse_involutive. by rewrite IH.
Qed.

Lemma join_elements (sep : str) (ws : list str) (c : char) :
  c ∈ join sep ws -> c ∈ sep \/ exists w, w ∈ ws /\ c ∈ w.
Proof.
  induction ws as [|w ws IH]; [by intros ?%elem_of_nil|].
  destruct ws as [|w' ws].
  - cbn [join]. intros Hc. right. exists w. split; [left|done].
  - change (join sep (w :: w' :: ws)) with (w ++ sep ++ join sep (w' :: ws)).
    intros [Hc|[Hc|Hc]%elem_of_app]%elem_of_app.
    + right. exists w. split; [left|done].
    + by left.
    + destruct (IH Hc) as [H|(w0 & Hw0 & H)]; [by left|].
      right. exists w0. split; [by right|done].
Qed.

Lemma replace_char (old new : char) (s : str) :
  replace_from [old] [new] 0 s = (fun c => if (c =? old)%N then new else c) <$> s.
Proof.
  induction s as [|c s IH]; [done|]. cbn [replace_from startswith length fmap list_fmap].
  destruct s as [|c' s]; cbn [andb];
    destruct (c =? old)%N; cbn [andb app Nat.sub]; by rewrite ?IH.
Qed.

Section Fields.
Context {U : Unicode} {R : Repr}.

(** X18. The product flags of a list of products joined with semicolons
    are the flags of its parts taken together: a flag is set exactly when
    one of the parts sets it, and the empty list sets none.  The test for
    BASICO never decides anything, since a text that contains BASICO
    contains BASIC. *)
Theorem product_flags_of_parts (a b : str) :
  _parse_product_flags (a ++ [59%N] ++ b)
  = {| flag_TV := flag_TV (_parse_product_flags a) || flag_TV (_parse_product_flags b);
       flag_HBO := flag_HBO (_parse_product_flags a) || flag_HBO (_parse_product_flags b);
       flag_Pack_Futbol := flag_Pack_Futbol (_parse_product_flags a)
                           || flag_Pack_Futbol (_parse_product_flags b) |}
  /\ _parse_product_flags []
     = {| flag_TV := false; flag_HBO := false; flag_Pack_Futbol := false |}
  /\ forall p, contains (lit "BASICO") p = true -> contains (lit "BASIC") p = true.
Proof.
  split; [|split].
  - unfold _parse_product_flags. cbn [app flag_TV flag_HBO flag_Pack_Futbol].
    rewrite split_app, List.filter_app, !fmap_app, !existsb_app. done.
  - done.
  - intros p. apply (contains_app (lit "BASIC") (lit "O")).
Qed.

Lemma first_mail_spec (candidates : list json) :
  (first_mail candidates = []
   /\ forall v, v ∈ candidates ->
        forall pre m, occurs_at pre m (_clean_email_text v) -> ~ email_shaped m)
  \/ exists i v m pre,
       candidates !! i = Some v
       /\ occurs_at pre m (_clean_email_text v) /\ email_shaped m
       /\ (forall pre' m', occurs_at pre' m' (_clean_email_text v) -> email_shaped m' ->
             length pre <= length pre')
       /\ (forall j v', j < i -> candidates !! j = Some v' ->
             forall pre' m', occurs_at pre' m' (_clean_email_text v') -> ~ email_shaped m')
       /\ first_mail candidates = lower m.
Proof.
  induction candidates as [|v candidates IH]; simpl.
  { left. split; [done|]. intros v Hv. by apply elem_of_nil in Hv. }
  pose proof (email_search_spec (_clean_email_text v)) as Hv.
  destruct (email_search (_clean_email_text v)) as [m|].
  - right. destruct Hv as (Hshape & pre & Hocc & Hleft).
    exists 0, v, m, pre. repeat (split; [done|]). split; [|done].
    intros j v' Hj. lia.
  - destruct IH as [[Hnil Hnone]|(i & v' & m & pre & Hi & Hocc & Hshape & Hleft & Hfirst & Hres)].
    + left. split; [done|]. intros v' [->|Hv']%elem_of_cons; [done|by apply Hnone].
    + right. exists (S i), v', m, pre. repeat (split; [done|]). split; [|done].
      intros [|j] v'' Hj Hv''; simpl in Hv''.
      * by injection Hv'' as <-.
      * apply (Hfirst j); [lia|done].
Qed.

Lemma named_candidates (record : dict json) (keys : list string) (v : json) :
  v ∈ omap (fun key => match dict_get (lit key) record with
                       | Some v => if truthy v then Some v else None
                       | None => None
                       end) keys ->
  exists key, key ∈ keys /\ dict_get (lit key) record = Some v /\ truthy v = true.
Proof.
  intros (key & Hkey & Hv)%list_elem_of_omap. exists key. split; [done|].
  destruct (dict_get (lit key) record) as [v'|]; [|done].
  destruct (truthy v') eqn:Ht; [|done]. by injection Hv as <-.
Qed.

(** X20. [extraer_mail] returns, in lower case, the leftmost text of the
    shape of an address in the first candidate that holds one, each
    candidate being cleaned first, and the empty string when no candidate
    holds one.  The candidates are the truthy values under the seven mail
    keys; the other fields of the record, and of them only the strings, are
    searched only when none of the seven keys holds a truthy value. *)
Theorem extraer_mail_first_address (record : dict json) :
  ((extraer_mail record = []
    /\ forall v, v ∈ mail_candidates record ->
         forall pre m, occurs_at pre m (_clean_email_text v) -> ~ email_shaped m)
   \/ exists i v m pre,
        mail_candidates record !! i = Some v
        /\ occurs_at pre m (_clean_email_text v) /\ email_shaped m
        /\ (forall pre' m', occurs_at pre' m' (_clean_email_text v) -> email_shaped m' ->
              length pre <= length pre')
        /\ (forall j v', j < i -> mail_candidates record !! j = Some v' ->
              forall pre' m', occurs_at pre' m' (_clean_email_text v') -> ~ email_shaped m')
        /\ extraer_mail record = lower m)
  /\ forall v, v ∈ mail_candidates record ->
       (exists key, key ∈ mail_keys /\ dict_get (lit key) record = Some v
                    /\ truthy v = true)
       \/ ((forall key, key ∈ mail_keys -> truthy (get key record) = false)
           /\ v ∈ dict_values record /\ exists s, v = JStr s).
Proof.
  split; [apply first_mail_spec|].
  intros v. unfold mail_candidates.
  destruct (omap _ mail_keys) as [|v0 named] eqn:Hnamed.
  - intros [Hv Hstr]%list_elem_of_In%filter_In. right. split; [|split].
    + intros key Hkey. unfold get.
      destruct (dict_get (lit key) record) as [v'|] eqn:Hget; [|done].
      destruct (truthy v') eqn:Ht; [|done].
      assert (Hin : v' ∈ omap (fun key => match dict_get (lit key) record with
                                          | Some v => if truthy v then Some v else None
                                          | None => None
                                          end) mail_keys).
      { apply list_elem_of_omap. exists key. split; [done|]. by rewrite Hget, Ht. }
      rewrite Hnamed in Hin. by apply elem_of_nil in Hin.
    + by apply list_elem_of_In.
    + destruct v; try done. by eexists.
  - intros Hv. left. rewrite <- Hnamed in Hv. by apply named_candidates.
Qed.


(** X22. The name of the normalised record holds no comma, whatever the
    record; and where the space is whitespace, as it is in Unicode, it is
    laid out in words: splitting it at whitespace and joining the words with
    single spaces gives it back, so that it has no space at either end and
    no two in a row, and its words are those of the name of the record. *)
Theorem nombre_is_laid_out (record : dict json) :
  isspace 32%N = true ->
  (44%N ∉ nombre_limpio record)
  /\ join (lit " ") (words (nombre_limpio record)) = nombre_limpio record
  /\ words (nombre_limpio record)
     = words (replace "," " " (to_str (nombre_base record))).
Proof.
  intros Hspace. unfold nombre_limpio.
  set (text := to_str (nombre_base record)).
  assert (Hwords : words (join (lit " ") (words (replace "," " " text)))
                   = words (replace "," " " text)).
  { unfold words. apply (runs_join _ 32%N); [by rewrite Hspace|]. by apply runs_spec. }
  split; [|split; [by rewrite Hwords|done]].
  intros [Hc|(w & Hw & Hc)]%join_elements.
  { apply list_elem_of_singleton in Hc. done. }
  unfold words in Hw. destruct (runs_elements _ _ _ _ _ Hw Hc) as [H|H].
  { by apply elem_of_nil in H. }
  unfold replace in H. change (lit ",") with [44%N] in H. change (lit " ") with [32%N] in H.
  rewrite replace_char in H. apply list_elem_of_fmap in H as (c & Hc' & _).
  destruct (N.eqb_spec c 44) as [Heq|Hne]; [done|congruence].
Qed.

End Fields.

End fields_facts.

(** ** The token and the identifiers of the upstream *)
Module token_facts.
Import py ph errors ph_token.

Section Token.
Context {E : Env}.

(** X23. The token is reused for twelve minutes.  When [_token] returns, the
    token is truthy (an empty one is never returned or kept) and it is the
    one kept in the module state, with the time at which it was obtained; from
    that state every call made less than twelve minutes after that time
    returns the same token and leaves the state as it is, whatever the
    authentication request would answer then: no request is made.  A call
    that raises leaves the state as it was. *)
Theorem token_is_reused (second : Z) (reply : outcome json) (now : Z) (st : token_state) :
  match _token second reply now st with
  | (Ok tok, st') =>
      truthy tok = true /\ value st' = tok
      /\ (st' = st \/ ts st' = now)
      /\ forall reply' now', (now' - ts st' < 12 * 60 * second)%Z ->
           _token second reply' now' st' = (Ok tok, st')
  | (Failed f, st') => st' = st
  end.
Proof.
  unfold _token.
  destruct (nonempty PH_URL && nonempty PH_USER && nonempty PH_PASS) eqn:Hcfg; [|done].
  cbn [negb].
  assert (Hreuse : forall tok st', truthy tok = true -> value st' = tok ->
            forall reply' now', (now' - ts st' < 12 * 60 * second)%Z ->
              (if truthy (value st') && (now' - ts st' <? 12 * 60 * second)%Z
               then (Ok (value st'), st')
               else match reply' with
                    | Raised e => (Failed (Exception e), st')
                    | Returned data =>
                        match py_or data (JDict []) with
                        | JDict d =>
                            let token := default (JStr []) (dict_get (lit "token") d) in
                            if truthy token
                            then (Ok token, {| value := token; ts := now' |})
                            else (Failed (Exception
                                    (RuntimeError "Phantom API returned an empty token")), st')
                        | _ => (Failed AttributeError, st')
                        end
                    end) = (Ok tok, st')).
  { intros tok st' Htok Hval reply' now' Hnow. rewrite Hval, Htok.
    destruct (Z.ltb_spec (now' - ts st') (12 * 60 * second)) as [_|]; [|lia].
    cbn [andb]. by rewrite <- Hval. }
  destruct (truthy (value st) && (now - ts st <? 12 * 60 * second)%Z) eqn:Hhit.
  - apply andb_true_iff in Hhit as [Htok _]. split; [done|]. split; [done|].
    split; [by left|]. by apply Hreuse.
  - destruct reply as [data|e]; [|done].
    destruct (py_or data (JDict [])) as [| | | | | |d]; try done.
    cbv zeta. destruct (truthy (default (JStr []) (dict_get (lit "token") d))) eqn:Htok;
      [|done].
    split; [done|]. split; [done|]. split; [by right|]. by apply Hreuse.
Qed.

End Token.

(** *** The identifier of a record *)

Lemma lit_inj (a b : string) : lit a = lit b -> a = b.
Proof.
  unfold lit. intros H.
  rewrite <- (string_of_list_ascii_of_string a), <- (string_of_list_ascii_of_string b).
  f_equal. revert H. generalize (list_ascii_of_string a) (list_ascii_of_string b).
  induction l as [|x l IH]; intros [|y l']; simpl; try done.
  intros [= Hx Hl]. f_equal; [|by apply IH].
  rewrite <- (ascii_N_embedding x), <- (ascii_N_embedding y). by rewrite Hx.
Qed.

Lemma to_int_parses (z : Z) :
  NilZero.int_of_string (NilZero.string_of_int (Z.to_int z)) = Some (Z.to_int z).
Proof.
  apply NilZero.isi; destruct z as [|p|p]; simpl; try done.
  - intros [= H]. by apply DecimalPos.Unsigned.to_uint_nonnil in H.
  - intros [= H]. by apply DecimalPos.Unsigned.to_uint_nonnil in H.
Qed.

Lemma str_of_Z_inj (a b : Z) : str_of_Z a = str_of_Z b -> a = b.
Proof.
  unfold str_of_Z. intros H%lit_inj. apply DecimalZ.to_int_inj.
  pose proof (to_int_parses a) as Ha. rewrite H, to_int_parses in Ha. by injection Ha.
Qed.

Lemma str_of_Z_not_word (z : Z) (word : string) :
  NilZero.int_of_string word = None -> str_of_Z z ≠ lit word.
Proof.
  unfold str_of_Z. intros Hword H%lit_inj.
  pose proof (to_int_parses z) as Hz. rewrite H, Hword in Hz. done.
Qed.

(** X24. A record is recognised as the one asked for by the text of its
    identifier: [rid_matches] holds exactly when the first truthy of ID and
    IDA is the integer asked for or the string of its decimal numeral.  A
    string that writes the number in another way does not match, and neither
    does the integer 0, which is falsy and so passed over. *)
Theorem rid_matches_by_numeral (ida_int : Z) (rec : dict json) :
  (rid_matches ida_int rec = true
   <-> py_or (get "ID" rec) (py_or (get "IDA" rec) (JStr [])) = JInt ida_int
       \/ py_or (get "ID" rec) (py_or (get "IDA" rec) (JStr [])) = JStr (str_of_Z ida_int))
  /\ rid_matches 7 [(lit "ID", JStr (lit "07"))] = false
  /\ rid_matches 0 [(lit "ID", JInt 0)] = false.
Proof.
  split; [|split; vm_compute; reflexivity].
  unfold rid_matches, str_is.
  destruct (py_or (get "ID" rec) (py_or (get "IDA" rec) (JStr []))) as [|[|]|z|m e|s|l|d];
    simpl; unfold str_eqb; try (split; [done|by intros [|]]).
  - split; [|by intros [|]]. intros H%bool_decide_eq_true. symmetry in H.
    by apply (str_of_Z_not_word _ "None") in H.
  - split; [|by intros [|]]. intros H%bool_decide_eq_true. symmetry in H.
    by apply (str_of_Z_not_word _ "True") in H.
  - split; [|by intros [|]]. intros H%bool_decide_eq_true. symmetry in H.
    by apply (str_of_Z_not_word _ "False") in H.
  - rewrite bool_decide_eq_true. split.
    + intros H%str_of_Z_inj. left. by subst.
    + intros [[= ->]|]; done.
  - rewrite bool_decide_eq_true. split.
    + intros ->. by right.
    + intros [|[= ->]]; done.
Qed.

End token_facts.

(** ** The records of a response *)
Module records_facts.
Import py ph more_examples.

Lemma elem_of_dicts (items : list json) (rec : dict json) :
  rec ∈ items ≫= (fun item => match item with JDict d => [d] | _ => [] end)
  <-> JDict rec ∈ items.
Proof.
  rewrite list_elem_of_bind. split.
  - intros (item & Hrec & Hitem). destruct item; try by apply elem_of_nil in Hrec.
    apply list_elem_of_singleton in Hrec. by subst.
  - intros Hin. exists (JDict rec). split; [by apply list_elem_of_singleton|done].
Qed.

Lemma no_dicts (items : list json) :
  Forall (fun item => is_dict item = false) items ->
  items ≫= (fun item => match item with JDict d => [d] | _ => [] end) = [].
Proof.
  induction 1 as [|item items Hitem _ IH]; [done|].
  cbn [mbind list_bind]. rewrite IH. by destruct item.
Qed.

(** X26. What [_iter_records] yields.  Every record is a dictionary found
    in the response: an item of the response when it is a list, an item of
    a list under one of the seven keys when it is a dictionary, or that
    dictionary itself; the dictionary itself is yielded, last, exactly when
    one of its values is a string or a number.  So an envelope that holds a
    code and no record is taken as a record: when no list under the seven
    keys holds a dictionary, the envelope is the only record and the one
    that is picked, as for the answer code 200 with an empty data list, for
    which the lookup returns the envelope. *)
Theorem envelope_is_a_record (data : json) (ida_int : Z) :
  (forall rec, rec ∈ _iter_records data ->
     (data = JDict rec /\ existsb is_scalar (dict_values rec) = true)
     \/ exists items,
          JDict rec ∈ items
          /\ (data = JList items
              \/ exists d key, data = JDict d /\ key ∈ record_keys
                               /\ get key d = JList items))
  /\ (forall d, data = JDict d ->
        (d ∈ _iter_records data <-> existsb is_scalar (dict_values d) = true
                                    \/ exists key items, key ∈ record_keys
                                         /\ get key d = JList items /\ JDict d ∈ items)
        /\ (existsb is_scalar (dict_values d) = true -> last (_iter_records data) = Some d)
        /\ (existsb is_scalar (dict_values d) = true ->
            (forall key items, key ∈ record_keys -> get key d = JList items ->
               Forall (fun item => is_dict item = false) items) ->
            _iter_records data = [d] /\ pick_record ida_int data = Some d))
  /\ @consulta_masiva_por_id empty_upstream 7 = Returned (Some empty_envelope).
Proof.
  split; [|split; [|vm_compute; reflexivity]].
  - intros rec. destruct data as [| | | | |items|d]; cbn [_iter_records];
      try by intros ?%elem_of_nil.
    + intros Hrec%elem_of_dicts. right. exists items. split; [done|by left].
    + intros [Hrec|Hrec]%elem_of_app.
      * apply list_elem_of_bind in Hrec as (key & Hrec & Hkey).
        destruct (get key d) as [| | | | |arr|] eqn:Hget; try by apply elem_of_nil in Hrec.
        apply elem_of_dicts in Hrec. right. exists arr. split; [done|].
        right. by exists d, key.
      * destruct (existsb is_scalar (dict_values d)) eqn:Hs; [|by apply elem_of_nil in Hrec].
        apply list_elem_of_singleton in Hrec. subst. by left.
  - intros d ->. cbn [_iter_records]. split; [|split].
    + rewrite elem_of_app. split.
      * intros [Hrec|Hrec].
        -- apply list_elem_of_bind in Hrec as (key & Hrec & Hkey).
           destruct (get key d) as [| | | | |arr|] eqn:Hget; try by apply elem_of_nil in Hrec.
           apply elem_of_dicts in Hrec. right. by exists key, arr.
        -- destruct (existsb is_scalar (dict_values d)); [by left|by apply elem_of_nil in Hrec].
      * intros [Hs|(key & items & Hkey & Hget & Hin)].
        -- right. rewrite Hs. by apply list_elem_of_singleton.
        -- left. apply list_elem_of_bind. exists key. split; [|done].
           rewrite Hget. by apply elem_of_dicts.
    + intros ->. by rewrite last_snoc.
    + intros Hs Hnone.
      assert (Hyield : _iter_records (JDict d) = [d]).
      { cbn [_iter_records]. rewrite Hs.
        assert (Hkeys : forall keys, keys ⊆ record_keys ->
                  keys ≫= (fun key => match get key d with
                                      | JList arr =>
                                          arr ≫= (fun item => match item with
                                                              | JDict d => [d]
                                                              | _ => []
                                                              end)
                                      | _ => []
                                      end) = []).
        { induction keys as [|key keys IH]; [done|]. intros Hsub.
          cbn [mbind list_bind]. rewrite IH by set_solver.
          destruct (get key d) as [| | | | |arr|] eqn:Hget; try done.
          rewrite (no_dicts arr); [done|]. apply (Hnone key); [set_solver|done]. }
        by rewrite (Hkeys record_keys). }
      split; [exact Hyield|]. unfold pick_record. rewrite Hyield. cbn [List.find head].
      by destruct (rid_matches ida_int d).
Qed.

End records_facts.

(** ** The further theorems at concrete inputs *)
Module more_witnesses.
Import py examples more_examples.

(** X6 on the worksheet of the example, whose third column reads Usuario,
    u1, u2.  With the row number 5 and a user name that the column does not
    hold, row 5 is marked.  The user u2, searched without a row number, is
    the second cell below the header, row 3, and the call does what it does
    with the row number 3.  A user name that the column does not hold, with
    the row number 1 or without one, raises [ValueError] and writes
    nothing. *)
Lemma marcar_row_selection_witness :
  (exists m w',
     @tv_write.marcar_registro_sheet BasicLatin open_sheet
       (lit "nobody") (lit "7") (lit "PEREZ ANA") (Some 5%Z) idle = (Returned m, w')
     /\ tv_write.row m = 5%Z
     /\ tv_write.written w' = tv_write.marks 5 (lit "7") (lit "PEREZ ANA"))
  /\ (exists m w',
        marked_u2 = (Returned m, w')
        /\ tv_write.row m = 3%Z
        /\ marked_u2 = @tv_write.marcar_registro_sheet BasicLatin open_sheet
                         (lit "u2") (lit "7") (lit "PEREZ ANA") (Some 3%Z) idle)
  /\ @tv_write.marcar_registro_sheet BasicLatin open_sheet
       (lit "nobody") (lit "7") (lit "PEREZ ANA") (Some 1%Z) idle = (Raised ValueError, idle)
  /\ @tv_write.marcar_registro_sheet BasicLatin open_sheet
       (lit "nobody") (lit "7") (lit "PEREZ ANA") None idle = (Raised ValueError, idle).
Proof.
  assert (Hcol : @tv_write.col_values open_sheet (tv_write.written idle) 3
                 = Returned [lit "Usuario"; lit "u1"; lit " u2 "]) by reflexivity.
  assert (Hopen : @tv_write._open_ws_rw open_sheet (tv_write.written idle) = Returned ())
    by reflexivity.
  assert (Hnobody :
    Forall (fun v => str_eqb (strip (U := BasicLatin) v)
                       (strip (U := BasicLatin) (lit "nobody")) = false)
      (drop 1 [lit "Usuario"; lit "u1"; lit " u2 "])).
  { repeat constructor. }
  assert (Hu2 :
    tv_spec.first_index
      (fun v => str_eqb (strip (U := BasicLatin) v) (strip (U := BasicLatin) (lit "u2")))
      (drop 1 [lit "Usuario"; lit "u1"; lit " u2 "]) 1).
  { exists (lit " u2 "). split; [reflexivity|]. split; [reflexivity|].
    intros [|k] y Hk Hy; [|lia]. injection Hy as <-. reflexivity. }
  split; [|split; [|split]].
  - pose proof (proj1 (@marcar_facts.marcar_row_selection BasicLatin open_sheet
                         (lit "nobody") (lit "7") (lit "PEREZ ANA") (Some 5%Z) idle)
                  5%Z eq_refl ltac:(lia)) as Hrow.
    destruct (@tv_write.marcar_registro_sheet BasicLatin open_sheet
                (lit "nobody") (lit "7") (lit "PEREZ ANA") (Some 5%Z) idle)
      as [[m|e] w'] eqn:Hrun.
    + exists m, w'. destruct Hrow as [Hrow Hw]. split; [reflexivity|].
      split; [exact Hrow|exact Hw].
    + vm_compute in Hrun. discriminate Hrun.
  - destruct (proj2 (@marcar_facts.marcar_row_selection BasicLatin open_sheet
                       (lit "u2") (lit "7") (lit "PEREZ ANA") None idle)
                (or_introl eq_refl)) as (Hfound & _ & Hret).
    pose proof (Hfound _ 1 Hcol Hu2) as Heq.
    destruct marked_u2 as [[m|e] w'] eqn:Hrun.
    + exists m, w'. split; [reflexivity|].
      destruct (Hret m w' Hrun) as (col & k & Hcol' & Hk & Hrow).
      rewrite Hcol in Hcol'. injection Hcol' as <-.
      rewrite (sheet_facts.first_index_unique _ _ _ _ Hk Hu2) in Hrow.
      split; [exact Hrow|]. rewrite <- Hrun. exact Heq.
    + vm_compute in Hrun. discriminate Hrun.
  - destruct (proj2 (@marcar_facts.marcar_row_selection BasicLatin open_sheet
                       (lit "nobody") (lit "7") (lit "PEREZ ANA") (Some 1%Z) idle)
                ltac:(right; exists 1%Z; split; [reflexivity|lia]))
      as (_ & Hnone & _).
    exact (Hnone _ Hopen Hcol Hnobody).
  - destruct (proj2 (@marcar_facts.marcar_row_selection BasicLatin open_sheet
                       (lit "nobody") (lit "7") (lit "PEREZ ANA") None idle)
                (or_introl eq_refl)) as (_ & Hnone & _).
    exact (Hnone _ Hopen Hcol Hnobody).
Defined.

(** X9 on the request of client 7.  Over the sheet of names the name of
    the client matches a row: the record comes back with its eleven fields
    and the seven added, without fila_propuesta.  Over the grid of
    credentials no row matches and the lookup of an available credential
    gives u2 and c2 of row 3: these are UsuarioPropuesto, CICPropuesto and
    fila_propuesta, which comes last. *)
Lemma api_cliente_shape_witness :
  main_spec.cache_ok (main.ph_cache start)
  /\ (exists data w' r,
        handled = (Returned data, w')
        /\ (@main.consultar BasicLatin known_upstream handler
              (strip (U := BasicLatin) (lit "7")) start).1
           = Returned (ph.record_dict r)
        /\ main_spec.field "AltaURL" data = Some (ph.SStr (@main.ALTA_URL handler))
        /\ main_spec.field "fila_propuesta" data = None
        /\ dict_keys data = dict_keys (ph.record_dict r) ++ routes_spec.added_keys)
  /\ (exists data w' r d,
        proposed_7 = (Returned data, w')
        /\ (main.guarded
              (@tv.obtener_usuario_cic_disponible BasicLatin credentials_sheet) None
              (main.guarded
                 (@tv.encontrar_abonado_por_nombre BasicLatin credentials_sheet
                    (lit "PEREZ ANA")) None
                 (@main.consultar BasicLatin known_upstream proposing_handler
                    (lit "7") start).2).2).1 = Some d
        /\ d = {| tv.disp_usuario := lit "u2"; tv.disp_cic := lit "c2"; tv.row_index := 3 |}
        /\ main_spec.field "fila_propuesta" data
           = Some (ph.SInt (Z.of_nat (tv.row_index d)))
        /\ main_spec.field "UsuarioPropuesto" data = Some (ph.SStr (tv.disp_usuario d))
        /\ main_spec.field "CICPropuesto" data = Some (ph.SStr (tv.disp_cic d))
        /\ dict_keys data
           = dict_keys (ph.record_dict r) ++ routes_spec.added_keys ++ [lit "fila_propuesta"]).
Proof.
  assert (Hok : main_spec.cache_ok (main.ph_cache start)) by constructor.
  split; [exact Hok|]. split.
  - let r := eval vm_compute in handled in
    match r with
    | (Returned ?d, ?w) =>
        assert (Hrun : handled = (Returned d, w)) by (vm_compute; reflexivity);
        exists d, w;
        destruct (@routes_facts.api_cliente_shape BasicLatin known_upstream handler
                    (lit "7") start w d Hok Hrun)
          as (r0 & Hc & _ & Halta & Hkeys & proposal & _ & Hfila & _);
        exists r0
    end.
    split; [exact Hrun|]. split; [exact Hc|]. split; [exact Halta|].
    split; [reflexivity|exact Hkeys].
  - destruct proposed_7 as [o w'] eqn:Hrun.
    let r := eval vm_compute in proposed_7.1 in
    match r with
    | Returned ?d =>
        assert (Ho : proposed_7.1 = Returned d) by (vm_compute; reflexivity);
        rewrite Hrun in Ho; cbn [fst] in Ho; subst o;
        exists d, w';
        destruct (@routes_facts.api_cliente_shape BasicLatin known_upstream
                    proposing_handler (lit "7") start w' d Hok Hrun)
          as (r0 & Hc & _ & _ & Hkeys & proposal & Hprop & Hfila & Huser & Hcic);
        exists r0
    end.
    assert (Hr0 : main.nombre_of (ph.record_dict r0) = lit "PEREZ ANA").
    { destruct r0. vm_compute in Hc. inversion Hc. vm_compute. reflexivity. }
    rewrite Hr0 in Hprop. clear Hr0 Hc Hrun.
    vm_compute in Hprop. subst proposal.
    exists {| tv.disp_usuario := lit "u2"; tv.disp_cic := lit "c2"; tv.row_index := 3 |}.
    split; [reflexivity|]. split; [vm_compute; reflexivity|]. split; [reflexivity|].
    split; [exact Hfila|]. split; [exact Huser|]. split; [exact Hcic|exact Hkeys].
Defined.

(** X10 on a cache that lives 10, read at time 12: the entry of key 7,
    stored at time 4, is returned. *)
Lemma record_hit_is_fresh_witness :
  @ph._cache_get _ _ record_cfg 12 (lit "7") two_records ()
    = (Returned (Some 11), [(lit "8", (15%Z, 12)); (lit "7", (4%Z, 11))], ())
  /\ exists ts data,
       (lit "7", (ts, data)) ∈ two_records /\ (12 - ts <= 10)%Z
       /\ last [(lit "8", (15%Z, 12)); (lit "7", (4%Z, 11))] = Some (lit "7", (ts, data)).
Proof.
  assert (Hget : @ph._cache_get _ _ record_cfg 12 (lit "7") two_records ()
                 = (Returned (Some 11), [(lit "8", (15%Z, 12)); (lit "7", (4%Z, 11))], ()))
    by (vm_compute; reflexivity).
  split; [exact Hget|].
  destruct (@record_cache_facts.record_hit_is_fresh _ _ record_cfg 12 (lit "7")
              two_records _ () () 11 Hget) as (ts & data & Hin & Hfresh & _ & _ & Hlast).
  exists ts, data. split; [exact Hin|]. split; [exact Hfresh|exact Hlast].
Defined.

(** X11 on a cache of capacity 0: a third entry is stored and none is
    evicted. *)
Lemma nonpositive_max_is_unbounded_witness :
  (0 <= 0)%Z /\ (0 < 10)%Z
  /\ @cache_spec.evicted _ _ unbounded_cfg 16 (lit "9") 13 two_records = []
  /\ last (@ph._cache_set _ _ unbounded_cfg 16 (lit "9") 13 two_records ()).1.2
     = Some (lit "9", (16%Z, 13)).
Proof.
  split; [lia|]. split; [lia|].
  destruct (@record_cache_facts.nonpositive_max_is_unbounded _ _ unbounded_cfg
              16 (lit "9") 13 13 two_records () ()
              ltac:(simpl; lia) ltac:(simpl; lia) eq_refl) as (Hev & Hlast & _).
  split; [exact Hev|exact Hlast].
Defined.

(** X12 on the record of client 7, fetched at time 1 and asked for again at
    time 100 from an upstream that rejects every request. *)
Lemma fetched_record_is_served_witness :
  (0 < 180)%Z /\ (100 - 1 <= 180)%Z
  /\ exists data c1,
       fetched_7 = (Returned data, c1, ())
       /\ (@ph.consultar_y_transformar_masiva rejecting_upstream _
             (ph.pure_config _ 180 64) 100 101 7 c1 ()).1.1 = Returned data.
Proof.
  split; [lia|]. split; [lia|].
  let r := eval vm_compute in fetched_7 in
  match r with
  | (Returned ?d, ?c, _) =>
      assert (Hrun : fetched_7 = (Returned d, c, ())) by (vm_compute; reflexivity);
      exists d, c;
      pose proof (proj1 (proj2 (@record_cache_facts.fetched_record_is_served known_upstream
                    rejecting_upstream 180 64 0 1 100 101 7 [] [] c d
                    ltac:(lia) eq_refl Hrun)) ltac:(lia)) as Hthm
  end.
  split; [exact Hrun|]. by rewrite Hthm.
Defined.

(** X13 on the upstream that rejects every request: the lookup raises and a
    read of the key at time 2 misses. *)
Lemma failed_lookup_is_not_cached_witness :
  exists c1,
    refused_7 = (Raised ph.no_data, c1, ())
    /\ (@ph._cache_get _ _ (ph.pure_config (dict ph.scalar) 180 64) 2 (str_of_Z 7) c1 ()).1.1
       = Returned None.
Proof.
  let r := eval vm_compute in refused_7 in
  match r with
  | (Raised _, ?c, _) =>
      assert (Hrun : refused_7 = (Raised ph.no_data, c, ())) by (vm_compute; reflexivity);
      exists c;
      destruct (@record_cache_facts.failed_lookup_is_not_cached rejecting_upstream
                  180 64 0 1 7 [] c ph.no_data Hrun) as [_ Hmiss]
  end.
  split; [exact Hrun|exact (Hmiss 2%Z)].
Defined.

(** X17 on the sheet of the example, whose clock advances by one at every
    reading: the load that follows a forced one reads no sheet. *)
Lemma reload_within_ttl_witness :
  (0 < 45)%Z
  /\ exists rows w1 w2,
       reloaded = (Returned rows, w1)
       /\ tv.sheet_reads w1 = 1
       /\ @tv.load_data_from_sheet BasicLatin dashes_sheet false w1 = (Returned rows, w2)
       /\ tv.sheet_reads w2 = 1.
Proof.
  split; [lia|].
  let r := eval vm_compute in reloaded in
  match r with
  | (Returned ?rows, ?w) =>
      assert (Hrun : reloaded = (Returned rows, w)) by (vm_compute; reflexivity);
      exists rows, w;
      destruct (@lookup_facts.reload_within_ttl BasicLatin dashes_sheet fresh_world w rows
                  ltac:(simpl; lia) Hrun) as (Hreads & Hfresh & _ & _ & _);
      destruct (Hfresh ltac:(vm_compute; discriminate)) as (w2 & Hload & Hreads2);
      exists w2
  end.
  split; [exact Hrun|]. split; [exact Hreads|]. split; [exact Hload|].
  rewrite Hreads2. exact Hreads.
Defined.

(** X22 on a name written with a comma and spare blanks. *)
Lemma nombre_is_laid_out_witness :
  @isspace BasicLatin 32%N = true
  /\ @ph_fields.nombre_limpio BasicLatin no_repr perez_ana = lit "PEREZ Ana"
  /\ ph_fields.join (lit " ")
       (@ph_fields.words BasicLatin (@ph_fields.nombre_limpio BasicLatin no_repr perez_ana))
     = @ph_fields.nombre_limpio BasicLatin no_repr perez_ana.
Proof.
  assert (Hspace : @isspace BasicLatin 32%N = true) by reflexivity.
  split; [exact Hspace|]. split; [vm_compute; reflexivity|].
  exact (proj1 (proj2 (@fields_facts.nombre_is_laid_out BasicLatin no_repr perez_ana Hspace))).
Defined.

(** X25 on the grid of the example: the credential u2 is proposed with row
    3, and marking with that row number changes row 3. *)
Lemma proposed_row_is_marked_witness :
  @tv.first_available BasicLatin credentials_grid
    = Some {| tv.disp_usuario := lit "u2"; tv.disp_cic := lit "c2"; tv.row_index := 3 |}
  /\ exists m w',
       @tv_write.marcar_registro_sheet BasicLatin open_sheet
         (lit "other") (lit "7") (lit "PEREZ ANA") (Some 3%Z) idle = (Returned m, w')
       /\ tv_write.row m = 3%Z
       /\ tv_write.written w' = tv_write.marks 3 (lit "7") (lit "PEREZ ANA").
Proof.
  assert (Hd : @tv.first_available BasicLatin credentials_grid
               = Some {| tv.disp_usuario := lit "u2"; tv.disp_cic := lit "c2";
                         tv.row_index := 3 |}) by (vm_compute; reflexivity).
  split; [exact Hd|].
  pose proof (@marcar_facts.proposed_row_is_marked BasicLatin open_sheet credentials_grid
                _ (lit "other") (lit "7") (lit "PEREZ ANA") idle Hd) as [_ Hmark].
  cbn [tv.row_index] in Hmark.
  destruct (@tv_write.marcar_registro_sheet BasicLatin open_sheet
              (lit "other") (lit "7") (lit "PEREZ ANA") (Some (Z.of_nat 3)) idle)
    as [[m|e] w'] eqn:Hrun.
  - exists m, w'. destruct Hmark as [Hrow Hw]. split; [exact Hrun|]. split; [exact Hrow|exact Hw].
  - vm_compute in Hrun. discriminate Hrun.
Defined.

End more_witnesses.
